(** * FLUID code writer: block CRC, tagging, escaping and merge-back

    A shallow embedding of [fluid/code.cxx] and [fluid/code.h]
    ([Fd_Code_Writer]).  Memory bytes are integers in [0..255]; a C string
    is the list of its bytes before the terminating NUL; the two output
    files are the lists of bytes written to them so far. *)

From Stdlib Require Import ZArith Lia Bool List Ascii String.
From stdpp Require Import base tactics option list.
Import ListNotations.

Local Open Scope Z_scope.

(** ** Bytes and C strings *)

Definition byte_of_ascii (a : ascii) : Z := Z.of_N (N_of_ascii a).

Definition bytes (s : string) : list Z := map byte_of_ascii (list_ascii_of_string s).

(** Value of a byte read through a [char] lvalue ([char] is signed on the
    platforms FLUID is built for; every use below gives the same answer for
    an unsigned [char]). *)
Definition char_val (b : Z) : Z := if b <? 128 then b else b - 256.

(** [(uchar)c]. *)
Definition to_uchar (c : Z) : Z := c mod 256.

(** [*s]: the byte at a pointer into a buffer whose remaining bytes are [s].
    All buffers handed to the functions below are NUL terminated, so a read
    at the end of the list yields the terminator. *)
Definition peek (s : list Z) : Z := hd 0 s.

(** The C string starting at a pointer: the bytes before the first NUL. *)
Fixpoint cstr (s : list Z) : list Z :=
  match s with
  | [] => []
  | c :: s' => if c =? 0 then [] else c :: cstr s'
  end.

Definition strlen (s : list Z) : Z := Z.of_nat (length (cstr s)).

(** [isspace] of <ctype.h> in the "C" locale: space, and the control
    characters [\t \n \v \f \r]. *)
Definition isspace (c : Z) : bool := (c =? 32) || ((9 <=? c) && (c <=? 13)).

(** ** CRC-32

    [crc32] comes from zlib, outside [code.cxx]. *)

(** Modelled from the spec: one shift of the CRC32 register (reflected
    polynomial [0xEDB88320]). *)
Definition crc32_shift (c : Z) : Z :=
  if Z.testbit c 0 then Z.lxor (Z.shiftr c 1) 0xEDB88320 else Z.shiftr c 1.

(** Modelled from the spec: [crc32(crc, s, 1)], the CRC32 of zlib continued
    over the one byte [b]; the bitwise form of the table-driven routine,
    with its inversion before and after. *)
Definition crc32 (crc : Z) (b : Z) : Z :=
  Z.lxor (Nat.iter 8 crc32_shift (Z.lxor (Z.lxor crc 0xFFFFFFFF) b)) 0xFFFFFFFF.

(** Modelled from the spec: [crc32(0, NULL, 0)], the CRC32 initial value. *)
Definition crc32_init : Z := 0.

Definition crc32_bytes (crc : Z) (l : list Z) : Z := fold_left crc32 l crc.


(** ** printf conversions used by the writer *)

Fixpoint digits_of (fuel : nat) (base n : Z) (acc : list Z) : list Z :=
  match fuel with
  | O => acc
  | S fuel' =>
      let d := n mod base in
      let c := if d <? 10 then 48 + d else 87 + d in
      if n / base =? 0 then c :: acc else digits_of fuel' base (n / base) (c :: acc)
  end.

(** Digits of a non-negative number, most significant first. *)
Definition unsigned_digits (base n : Z) : list Z :=
  digits_of (S (Z.to_nat (Z.log2 n))) base n [].

Definition zero_pad (width : nat) (l : list Z) : list Z :=
  repeat 48 (width - length l) ++ l.

(** [%d] *)
Definition fmt_d (n : Z) : list Z :=
  if n <? 0 then 45 :: unsigned_digits 10 (- n) else unsigned_digits 10 n.

(** [%04x], [%08x] of an [unsigned int] *)
Definition fmt_0x (width : nat) (n : Z) : list Z :=
  zero_pad width (unsigned_digits 16 (n mod 2 ^ 32)).

(** [%o] of an [unsigned int] *)
Definition fmt_o (n : Z) : list Z := unsigned_digits 8 (n mod 2 ^ 32).

(** ** Writer state *)

(** Project settings read by the writer ([g_project]). *)
Record Fluid_Project := {
  write_mergeback_data : bool;
  utf8_in_src : bool
}.

(** [Fd_Text_Tree]: [TNull] is the null pointer. *)
Inductive Fd_Text_Tree :=
| TNull
| TNode (text : list Z) (left right : Fd_Text_Tree).

(** The members of [Fd_Code_Writer] the modelled functions touch.  A [FILE*]
    is the list of bytes written to it; [block_buffer_] is [None] for the
    null pointer and otherwise the C string the buffer holds. *)
Record Fd_Code_Writer := {
  code_file : list Z;
  header_file : list Z;
  text_in_header : Fd_Text_Tree;
  text_in_code : Fd_Text_Tree;
  block_crc_ : Z;
  block_buffer_ : option (list Z);
  block_buffer_size_ : Z;
  block_line_start_ : bool;
  indentation : Z;
  write_sourceview : bool;
  varused_test : Z;
  varused : Z
}.

(** The constructor [Fd_Code_Writer::Fd_Code_Writer()]. *)
Definition Fd_Code_Writer_new : Fd_Code_Writer := {|
  code_file := []; header_file := [];
  text_in_header := TNull; text_in_code := TNull;
  block_crc_ := crc32_init; block_buffer_ := None; block_buffer_size_ := 0;
  block_line_start_ := true; indentation := 0; write_sourceview := false;
  varused_test := 0; varused := 0 |}.

Definition fputs_code (t : list Z) (w : Fd_Code_Writer) : Fd_Code_Writer :=
  {| code_file := code_file w ++ t; header_file := header_file w;
     text_in_header := text_in_header w; text_in_code := text_in_code w;
     block_crc_ := block_crc_ w; block_buffer_ := block_buffer_ w;
     block_buffer_size_ := block_buffer_size_ w;
     block_line_start_ := block_line_start_ w; indentation := indentation w;
     write_sourceview := write_sourceview w; varused_test := varused_test w;
     varused := varused w |}.

Definition fputs_header (t : list Z) (w : Fd_Code_Writer) : Fd_Code_Writer :=
  {| code_file := code_file w; header_file := header_file w ++ t;
     text_in_header := text_in_header w; text_in_code := text_in_code w;
     block_crc_ := block_crc_ w; block_buffer_ := block_buffer_ w;
     block_buffer_size_ := block_buffer_size_ w;
     block_line_start_ := block_line_start_ w; indentation := indentation w;
     write_sourceview := write_sourceview w; varused_test := varused_test w;
     varused := varused w |}.

Definition set_block (crc : Z) (ls : bool) (w : Fd_Code_Writer) : Fd_Code_Writer :=
  {| code_file := code_file w; header_file := header_file w;
     text_in_header := text_in_header w; text_in_code := text_in_code w;
     block_crc_ := crc; block_buffer_ := block_buffer_ w;
     block_buffer_size_ := block_buffer_size_ w;
     block_line_start_ := ls; indentation := indentation w;
     write_sourceview := write_sourceview w; varused_test := varused_test w;
     varused := varused w |}.

Definition set_block_buffer (buf : option (list Z)) (size : Z) (w : Fd_Code_Writer)
  : Fd_Code_Writer :=
  {| code_file := code_file w; header_file := header_file w;
     text_in_header := text_in_header w; text_in_code := text_in_code w;
     block_crc_ := block_crc_ w; block_buffer_ := buf;
     block_buffer_size_ := size;
     block_line_start_ := block_line_start_ w; indentation := indentation w;
     write_sourceview := write_sourceview w; varused_test := varused_test w;
     varused := varused w |}.

Definition set_text_in_header (t : Fd_Text_Tree) (w : Fd_Code_Writer) : Fd_Code_Writer :=
  {| code_file := code_file w; header_file := header_file w;
     text_in_header := t; text_in_code := text_in_code w;
     block_crc_ := block_crc_ w; block_buffer_ := block_buffer_ w;
     block_buffer_size_ := block_buffer_size_ w;
     block_line_start_ := block_line_start_ w; indentation := indentation w;
     write_sourceview := write_sourceview w; varused_test := varused_test w;
     varused := varused w |}.

Definition set_text_in_code (t : Fd_Text_Tree) (w : Fd_Code_Writer) : Fd_Code_Writer :=
  {| code_file := code_file w; header_file := header_file w;
     text_in_header := text_in_header w; text_in_code := t;
     block_crc_ := block_crc_ w; block_buffer_ := block_buffer_ w;
     block_buffer_size_ := block_buffer_size_ w;
     block_line_start_ := block_line_start_ w; indentation := indentation w;
     write_sourceview := write_sourceview w; varused_test := varused_test w;
     varused := varused w |}.

Definition set_varused (v : Z) (w : Fd_Code_Writer) : Fd_Code_Writer :=
  {| code_file := code_file w; header_file := header_file w;
     text_in_header := text_in_header w; text_in_code := text_in_code w;
     block_crc_ := block_crc_ w; block_buffer_ := block_buffer_ w;
     block_buffer_size_ := block_buffer_size_ w;
     block_line_start_ := block_line_start_ w; indentation := indentation w;
     write_sourceview := write_sourceview w; varused_test := varused_test w;
     varused := v |}.

(** ** The writer monad

    A member function is a state transformer on the writer that may hit
    undefined behaviour ([None]): a null pointer handed to [fputs], a read
    outside a buffer. *)

Definition Writer (A : Type) : Type := Fd_Code_Writer -> option (A * Fd_Code_Writer).

#[global] Instance Writer_ret : MRet Writer := fun A x w => Some (x, w).

#[global] Instance Writer_bind : MBind Writer := fun A B f m w =>
  match m w with
  | Some (x, w') => f x w'
  | None => None
  end.

Definition modify (f : Fd_Code_Writer -> Fd_Code_Writer) : Writer () :=
  fun w => Some (tt, f w).

Definition gets {A} (f : Fd_Code_Writer -> A) : Writer A := fun w => Some (f w, w).

Definition undefined {A} : Writer A := fun _ => None.

(** Final state of a run, when it is defined. *)
Definition exec {A} (m : Writer A) (w : Fd_Code_Writer) : option Fd_Code_Writer :=
  snd <$> m w.

(** ** [crc_add] *)

(** The inner loop
    [while (n>0 && s[0]>0 && isspace(s[0])) { s++; n--; }]. *)
Fixpoint skip_space (s : list Z) (n : Z) : list Z * Z :=
  match s with
  | c :: s' =>
      if (0 <? n) && (0 <? char_val c) && isspace (char_val c)
      then skip_space s' (n - 1) else (s, n)
  | [] => (s, n)
  end.

(** The [for (...; n>0; --n, ++s)] loop.  Every turn lowers [n] by one or
    more, so [Z.to_nat n] turns are all the loop can make; [fuel] counts
    them. *)
Fixpoint crc_add_loop (fuel : nat) (crc : Z) (line_start : bool) (s : list Z) (n : Z)
  : Z * bool :=
  match fuel with
  | O => (crc, line_start)
  | S fuel' =>
      if 0 <? n then
        let '(line_start, s, n) :=
          if line_start then
            let '(s, n) := skip_space s n in
            ((if peek s =? 0 then line_start else false), s, n)
          else (line_start, s, n) in
        let '(s, n) := if (0 <? n) && (peek s =? 13) then (tl s, n - 1) else (s, n) in
        let line_start := if (0 <? n) && (peek s =? 10) then true else line_start in
        let crc := if 0 <? n then crc32 crc (peek s) else crc in
        crc_add_loop fuel' crc line_start (tl s) (n - 1)
      else (crc, line_start)
  end.

(** [crc_add(data, n)]; [data] is [None] for a null pointer. *)
Definition crc_add (data : option (list Z)) (n : Z) (w : Fd_Code_Writer) : Fd_Code_Writer :=
  match data with
  | None => w
  | Some s =>
      let n := if n =? -1 then strlen s else n in
      let '(crc, ls) :=
        crc_add_loop (Z.to_nat n) (block_crc_ w) (block_line_start_ w) s n in
      set_block crc ls w
  end.

Arguments crc_add : simpl never.

Section Writer.

Variable g_project : Fluid_Project.

(** The byte that follows the local [uc] of [crc_putc] in memory: [crc_add]
    reads it after it has skipped [uc] as leading white space. *)
Variable after_uc : Z.

(** [crc_vprintf]; [txt] is the text the format and its arguments expand
    to, and [va] tells whether the format holds a conversion, so that
    [vsnprintf] reads [args].
    [vsnprintf(buf, size, ...)] stores the first [size-1] bytes and a NUL
    when [size > 0], nothing when [size = 0], and returns the full length.
    When the text does not fit, the buffer grows and [vsnprintf] is called
    a second time with the same [args].  There is no [va_copy]: after a
    first call that has read from [args] its value is indeterminate, and
    the second call is undefined.
    [None]: that second call on a format with a conversion; a null
    [block_buffer_] that reaches [vsnprintf] with a size, or [fputs]. *)
Definition crc_vprintf (va : bool) (txt : list Z) : Writer () := fun w =>
  if write_mergeback_data g_project then
    let n := Z.of_nat (length txt) in
    let stored (size : Z) (old : option (list Z)) :=
      if 0 <? size then
        match old with
        | Some _ => Some (Some (take (Z.to_nat (size - 1)) txt))
        | None => None
        end
      else Some old in
    match stored (block_buffer_size_ w) (block_buffer_ w) with
    | None => None
    | Some buf1 =>
        if (block_buffer_size_ w <? n) && va then None
        else
          let '(buf, size) :=
            if block_buffer_size_ w <? n
            then (Some (take (Z.to_nat (n + 128 - 1)) txt), n + 128)
            else (buf1, block_buffer_size_ w) in
          let w := crc_add buf n (set_block_buffer buf size w) in
          match buf with
          | Some b => Some (tt, fputs_code (cstr b) w)
          | None => None
          end
    end
  else Some (tt, fputs_code txt w).

(** [crc_printf(format, ...)]: [va_start], [crc_vprintf], [va_end]. *)
Definition crc_printf (va : bool) (txt : list Z) : Writer () := crc_vprintf va txt.

(** [crc_puts(text)] *)
Definition crc_puts (text : list Z) : Writer () := fun w =>
  let w := if write_mergeback_data g_project then crc_add (Some text) (-1) w else w in
  Some (tt, fputs_code (cstr text) w).

(** [crc_putc(c)] *)
Definition crc_putc (c : Z) : Writer () := fun w =>
  let w :=
    if write_mergeback_data g_project
    then crc_add (Some [to_uchar c; after_uc]) 1 w else w in
  Some (tt, fputs_code [to_uchar c] w).

(** ** [tag] *)

Definition tag_line (type uid crc : Z) : list Z :=
  bytes "//~fl~" ++ fmt_d type ++ bytes "~" ++ fmt_0x 4 uid ++ bytes "~"
    ++ fmt_0x 8 crc ++ bytes "~~" ++ [10].

(** [Fd_Code_Writer::tag(int type, unsigned short uid)] *)
Definition tag (type uid : Z) : Writer () := fun w =>
  let w :=
    if write_mergeback_data g_project
    then fputs_code (tag_line type (uid mod 2 ^ 16) (block_crc_ w)) w else w in
  Some (tt, set_block crc32_init (block_line_start_ w) w).

(** ** Once-only lines *)

(** [strcmp] on two NUL-terminated buffers (bytes compare as
    [unsigned char]). *)
Fixpoint strcmp (a b : list Z) : Z :=
  match a with
  | [] => 0 - peek b
  | x :: a' =>
      if x =? 0 then 0 - peek b
      else if x =? peek b then strcmp a' (tl b)
      else x - peek b
  end.

(** The search loop shared by [write_h_once] and [write_c_once]:
    [while ( *p ) { i = strcmp(buf, ( *p )->text); if (!i) return 0; ... }]
    followed by [*p = new Fd_Text_Tree(buf)].  [None]: the text was found
    (the caller returns 0); [Some t]: the tree with the new node linked at
    the null pointer the walk ended on. *)
Fixpoint text_walk (buf : list Z) (p : Fd_Text_Tree) : option Fd_Text_Tree :=
  match p with
  | TNull => Some (TNode buf TNull TNull)
  | TNode text l r =>
      let i := strcmp buf text in
      if i =? 0 then None
      else if i <? 0 then (fun l' => TNode text l' r) <$> text_walk buf l
      else (fun r' => TNode text l r') <$> text_walk buf r
  end.

(** [vsnprintf(buf, sizeof(buf), format, args)] with [char buf[1024]]:
    the first 1023 bytes of the expansion [line]. *)
Definition once_buf (line : list Z) : list Z := cstr (take 1023 line).

(** [Fd_Code_Writer::write_h_once]; [line] is the expansion of the format. *)
Definition write_h_once (line : list Z) : Writer Z :=
  let buf := once_buf line in
  p ← gets text_in_header;
  match text_walk buf p with
  | None => mret 0
  | Some p' =>
      modify (fputs_header (buf ++ [10]));;
      modify (set_text_in_header p');;
      mret 1
  end.

(** [Fd_Code_Writer::write_c_once] *)
Definition write_c_once (line : list Z) : Writer Z :=
  let buf := once_buf line in
  p ← gets text_in_header;
  match text_walk buf p with
  | None => mret 0
  | Some _ =>
      p ← gets text_in_code;
      match text_walk buf p with
      | None => mret 0
      | Some p' =>
          crc_printf true (buf ++ [10]);;
          modify (set_text_in_code p');;
          mret 1
      end
  end.

(** ** [write_cstring] *)

(** [s[i]] read through [const char *]. *)
Definition char_at (s : list Z) (i : nat) : Z := char_val (nth i s 0).

Definition is_hex_digit (c : Z) : bool :=
  ((48 <=? c) && (c <=? 57)) || ((97 <=? c) && (c <=? 102)) || ((65 <=? c) && (c <=? 70)).

(** [if (linelength >= limit) { crc_puts("\\\n"); linelength = 0; }] *)
Definition wrap_at (limit linelength : Z) : Writer Z :=
  if limit <=? linelength then crc_puts [92; 10];; mret 0 else mret linelength.

(** The code after the label [QUOTED]. *)
Definition quoted (c linelength : Z) : Writer Z :=
  linelength ← wrap_at 77 linelength;
  crc_putc 92;;
  crc_putc c;;
  mret (linelength + 2).

(** The [default:] branch of the switch. *)
Definition unquoted (s : list Z) (e : Z) (p : nat) (c linelength : Z) : Writer Z :=
  if (32 <=? c) && (c <? 127) then
    linelength ← wrap_at 78 linelength;
    crc_putc c;;
    mret (linelength + 1)
  else if utf8_in_src g_project && negb (Z.land c 128 =? 0) then
    linelength ← (if negb (Z.land c 64 =? 0) then wrap_at 78 linelength else mret linelength);
    crc_putc c;;
    mret (linelength + 1)
  else
    let c := Z.land c 255 in
    linelength ←
      (if c <? 8 then
         linelength ← wrap_at 76 linelength;
         crc_printf true (92 :: fmt_o c);;
         mret (linelength + 2)
       else if c <? 64 then
         linelength ← wrap_at 75 linelength;
         crc_printf true (92 :: fmt_o c);;
         mret (linelength + 3)
       else
         linelength ← wrap_at 74 linelength;
         crc_printf true (92 :: fmt_o c);;
         mret (linelength + 4));
    let c := char_at s p in
    if (Z.of_nat p <? e) && is_hex_digit c then
      crc_putc 34;;
      let linelength := linelength + 1 in
      linelength ←
        (if 79 <=? linelength then crc_puts [10];; mret 0 else mret linelength);
      crc_putc 34;;
      mret (linelength + 1)
    else mret linelength.

(** One turn of [for (; p < e;)]: [p] is the index of the byte read by
    [c = *p++]; the result is the new [linelength]. *)
Definition write_cstring_step (s : list Z) (e : Z) (p : nat) (linelength : Z) : Writer Z :=
  let c := char_at s p in
  if c =? 8 then quoted 98 linelength
  else if c =? 9 then quoted 116 linelength
  else if c =? 10 then quoted 110 linelength
  else if c =? 12 then quoted 102 linelength
  else if c =? 13 then quoted 114 linelength
  else if (c =? 34) || (c =? 39) || (c =? 92) then quoted c linelength
  else if (c =? 63) && (1 <=? Z.of_nat p) && (char_at s (p - 1) =? 63)
  then quoted c linelength
  else unquoted s e (S p) c linelength.

(** The loop, [fuel] bounding the turns left ([e - p] of them). *)
Fixpoint write_cstring_loop (fuel : nat) (s : list Z) (e : Z) (p : nat) (linelength : Z)
  : Writer () :=
  match fuel with
  | O => mret tt
  | S fuel' =>
      if Z.of_nat p <? e then
        linelength ← write_cstring_step s e p linelength;
        write_cstring_loop fuel' s e (S p) linelength
      else mret tt
  end.

(** [Fd_Code_Writer::write_cstring(const char *s, int length)]; [s] is
    [None] for a null pointer. *)
Definition write_cstring (s : option (list Z)) (length : Z) : Writer () :=
  vt ← gets varused_test;
  if negb (vt =? 0) then modify (set_varused 1)
  else
    sv ← gets write_sourceview;
    if sv && (negb (bool_decide (is_Some s)) || (300 <? length)) then
      if 0 <=? length
      then crc_printf true ([34] ++ bytes " ... " ++ fmt_d length ++ bytes " bytes of text... " ++ [34])
      else crc_puts ([34] ++ bytes " ... text... " ++ [34])
    else
      match s with
      | Some s =>
          if length =? -1 then
            crc_puts ([10] ++ bytes "#error  string not found" ++ [10]);;
            crc_puts ([34] ++ bytes " ... undefined size text... " ++ [34])
          else
            crc_putc 34;;
            write_cstring_loop (Z.to_nat length) s length 0 1;;
            crc_putc 34
      | None =>
          crc_puts ([10] ++ bytes "#error  string not found" ++ [10]);;
          crc_puts ([34] ++ bytes " ... undefined size text... " ++ [34])
      end.

(** [Fd_Code_Writer::write_cstring(const char *s)] *)
Definition write_cstring_s (s : list Z) : Writer () :=
  write_cstring (Some s) (strlen s).

(** ** Formatted output *)

(** [vwrite_c] / [write_c]; [txt] is the expansion of the format, [va]
    tells whether the format holds a conversion. *)
Definition write_c (va : bool) (txt : list Z) : Writer () :=
  vt ← gets varused_test;
  if negb (vt =? 0) then modify (set_varused 1) else crc_vprintf va txt.

(** [write_h] *)
Definition write_h (txt : list Z) : Writer () :=
  vt ← gets varused_test;
  if negb (vt =? 0) then mret tt else modify (fputs_header txt).

(** [%.*s] with precision [n] of the string at [c]: a negative precision
    counts as none given. *)
Definition fmt_prec_s (n : Z) (c : list Z) : list Z :=
  if n <? 0 then cstr c else take (Z.to_nat n) (cstr c).

(** [c[i]] for a buffer whose bytes are exactly [c]: outside it the read is
    undefined. *)
Definition read_at (c : list Z) (i : Z) : Writer Z :=
  if i <? 0 then undefined
  else match c !! Z.to_nat i with
       | Some b => mret (char_val b)
       | None => undefined
       end.

(** [Fd_Code_Writer::write_cc] *)
Definition write_cc (indent : list Z) (n : Z) (c com : list Z) : Writer () :=
  write_c true (cstr indent ++ fmt_prec_s n c);;
  cc ← read_at c (n - 1);
  (if negb (cc =? 125) && negb (cc =? 59) then write_c false [59] else mret tt);;
  (if negb (peek com =? 0) then write_c true (32 :: cstr com) else mret tt);;
  write_c false [10].

(** [Fd_Code_Writer::write_hc] *)
Definition write_hc (indent : list Z) (n : Z) (c com : list Z) : Writer () :=
  write_h (cstr indent ++ fmt_prec_s n c);;
  cc ← read_at c (n - 1);
  (if negb (cc =? 125) && negb (cc =? 59) then write_h [59] else mret tt);;
  (if negb (peek com =? 0) then write_h (32 :: cstr com) else mret tt);;
  write_h [10].

End Writer.


(** ** [unindent] *)

(** [if (s[0]>0 && isspace(s[0])) s++;] *)
Definition skip_one_space (s : list Z) : list Z :=
  if (0 <? char_val (peek s)) && isspace (char_val (peek s)) then tl s else s.

(** The [while ( *s )] loop of [unindent] on the C string whose bytes are
    [s]; [d] collects the bytes stored through [*d++].  Every turn that
    does not end the run moves [s] forward, so [length s] turns suffice.
    [None]: the terminating NUL itself was copied by [*d++ = *s++], which
    leaves [s] behind the end of the buffer for the next [*s]. *)
Fixpoint unindent_loop (fuel : nat) (line_start : bool) (s d : list Z) : option (list Z) :=
  match s with
  | [] => Some d
  | _ :: _ =>
      match fuel with
      | O => None
      | S fuel' =>
          let s := if line_start then skip_one_space (skip_one_space s) else s in
          let line_start := if line_start then false else line_start in
          let s := if peek s =? 13 then tl s else s in
          let line_start := if peek s =? 10 then true else line_start in
          match s with
          | [] => None
          | c :: s' => unindent_loop fuel' line_start s' (d ++ [c])
          end
      end
  end.

(** [static void unindent(char *s)]: the string left in the buffer. *)
Definition unindent (s : list Z) : option (list Z) :=
  let s := cstr s in unindent_loop (length s) true s [].

(** [unindent_block(f, start, end)]: [malloc(bsize+1)] and
    [fread(block, bsize, 1, f)] with a negative [bsize] are undefined. *)
Definition unindent_block (f : list Z) (start end_ : Z) : option (list Z) :=
  let bsize := end_ - start in
  if bsize <? 0 then None
  else unindent (take (Z.to_nat bsize) (drop (Z.to_nat start) f)).

(** ** The design tree *)

(** Modelled from the spec: [Fl_Type] and its members are declared outside
    [code.cxx].  A node has a [uid]; widget nodes take [set_callback(text)]
    ([tp->callback(...)]), code nodes take [set_body(text)]
    ([tp->name(...)]); the tree is the list of nodes from [Fl_Type::first]
    along [next]. *)
Record Fl_Type := {
  uid_ : Z;
  is_true_widget : bool;
  is_a_Code : bool;
  callback_ : list Z;
  name_ : list Z
}.

Definition set_callback (text : list Z) (tp : Fl_Type) : Fl_Type :=
  {| uid_ := uid_ tp; is_true_widget := is_true_widget tp; is_a_Code := is_a_Code tp;
     callback_ := text; name_ := name_ tp |}.

Definition set_name (text : list Z) (tp : Fl_Type) : Fl_Type :=
  {| uid_ := uid_ tp; is_true_widget := is_true_widget tp; is_a_Code := is_a_Code tp;
     callback_ := callback_ tp; name_ := text |}.

(** Modelled from the spec: the tree-wide lookup [Fl_Type::find_by_uid];
    the result is the position of the first node with that uid, [None] for
    the null pointer. *)
Fixpoint find_by_uid (uid : Z) (tree : list Fl_Type) : option nat :=
  match tree with
  | [] => None
  | tp :: rest => if uid_ tp =? uid then Some O else S <$> find_by_uid uid rest
  end.

(** ** Reading the source file *)

(** [fgets(line, 1023, code)] from the unread bytes [f]: at most 1022
    bytes, through the first newline. *)
Fixpoint fgets (k : nat) (f : list Z) : list Z * list Z :=
  match k, f with
  | S k', c :: f' =>
      if c =? 10 then ([c], f')
      else let '(line, rest) := fgets k' f' in (c :: line, rest)
  | _, _ => ([], f)
  end.

(** The lines the successive [fgets] calls deliver until end of file. *)
Fixpoint read_lines (fuel : nat) (f : list Z) : list (list Z) :=
  match fuel, f with
  | S fuel', _ :: _ => let '(line, rest) := fgets 1022 f in line :: read_lines fuel' rest
  | _, _ => []
  end.

Definition file_lines (f : list Z) : list (list Z) := read_lines (length f) f.

Fixpoint is_prefix (p s : list Z) : bool :=
  match p, s with
  | [], _ => true
  | x :: p', y :: s' => (x =? y) && is_prefix p' s'
  | _ :: _, [] => false
  end.

(** [strstr(hay, needle)]: the rest of [hay] from the first match on. *)
Fixpoint strstr (hay needle : list Z) : option (list Z) :=
  if is_prefix needle hay then Some hay
  else match hay with
       | [] => None
       | _ :: hay' => strstr hay' needle
       end.

Definition tag_marker : list Z := bytes "//~fl~".

(** ** [merge_back] *)

(** The [task] argument: the four constants of [code.h] (with any other
    value no branch after the scan is taken, and the outer loop scans for
    ever). *)
Inductive Task :=
| FD_MERGEBACK_CHECK
| FD_MERGEBACK_INTERACTIVE
| FD_MERGEBACK_GO
| FD_MERGEBACK_GO_SAFE.

Definition FD_TAG_GENERIC : Z := 0.
Definition FD_TAG_CODE : Z := 1.
Definition FD_TAG_MENU_CALLBACK : Z := 2.
Definition FD_TAG_WIDGET_CALLBACK : Z := 3.
Definition FD_TAG_LAST : Z := 3.

(** What [sscanf(tag, "//~fl~%d~%04x~%08lx~~", &type, &uid, &crc)] leaves:
    its return value and the three variables. *)
Record Scanned := {
  sc_n : Z;
  sc_type : Z;
  sc_uid : Z;
  sc_crc : Z
}.

(** An edit applied to the tree: the node's position and the new text. *)
Inductive Edit :=
| EditCallback (i : nat) (text : list Z)
| EditName (i : nat) (text : list Z).

Definition apply_edit (tree : list Fl_Type) (e : Edit) : list Fl_Type :=
  match e with
  | EditCallback i text => alter (set_callback text) i tree
  | EditName i text => alter (set_name text) i tree
  end.

(** The locals of one turn of the outer loop, the writer and the tree;
    [pos] is the file position ([ftell]); [edits] records the calls of
    [tp->callback] and [tp->name], latest last. *)
Record Scan := {
  line_no : Z;
  block_start : Z;
  block_end : Z;
  pos : Z;
  num_changed_code : Z;
  num_changed_callback : Z;
  num_changed_structure : Z;
  num_uid_not_found : Z;
  tag_error : Z;
  changed : bool;
  writer : Fd_Code_Writer;
  tree : list Fl_Type;
  edits : list Edit
}.

Definition scan_start (tr : list Fl_Type) (w : Fd_Code_Writer) : Scan := {|
  line_no := 0; block_start := 0; block_end := 0; pos := 0;
  num_changed_code := 0; num_changed_callback := 0; num_changed_structure := 0;
  num_uid_not_found := 0; tag_error := 0; changed := false;
  writer := set_block crc32_init true w; tree := tr; edits := [] |}.

(** [fgets] has delivered [line]. *)
Definition next_line (line : list Z) (st : Scan) : Scan := {|
  line_no := line_no st + 1; block_start := block_start st; block_end := block_end st;
  pos := pos st + Z.of_nat (length line);
  num_changed_code := num_changed_code st;
  num_changed_callback := num_changed_callback st;
  num_changed_structure := num_changed_structure st;
  num_uid_not_found := num_uid_not_found st; tag_error := tag_error st;
  changed := changed st; writer := writer st; tree := tree st; edits := edits st |}.

(** A line without tag: [crc_add(line); block_end = ftell(code);]. *)
Definition code_line (line : list Z) (st : Scan) : Scan := {|
  line_no := line_no st; block_start := block_start st; block_end := pos st;
  pos := pos st;
  num_changed_code := num_changed_code st;
  num_changed_callback := num_changed_callback st;
  num_changed_structure := num_changed_structure st;
  num_uid_not_found := num_uid_not_found st; tag_error := tag_error st;
  changed := changed st; writer := crc_add (Some line) (-1) (writer st);
  tree := tree st; edits := edits st |}.

(** "reset everything for the next block" *)
Definition next_block (st : Scan) : Scan := {|
  line_no := line_no st; block_start := pos st; block_end := block_end st;
  pos := pos st;
  num_changed_code := num_changed_code st;
  num_changed_callback := num_changed_callback st;
  num_changed_structure := num_changed_structure st;
  num_uid_not_found := num_uid_not_found st; tag_error := tag_error st;
  changed := changed st; writer := set_block crc32_init true (writer st);
  tree := tree st; edits := edits st |}.

Definition set_tag_error (st : Scan) : Scan := {|
  line_no := line_no st; block_start := block_start st; block_end := block_end st;
  pos := pos st;
  num_changed_code := num_changed_code st;
  num_changed_callback := num_changed_callback st;
  num_changed_structure := num_changed_structure st;
  num_uid_not_found := num_uid_not_found st; tag_error := 1;
  changed := changed st; writer := writer st; tree := tree st; edits := edits st |}.

(** [tp->callback(...)] or [tp->name(...)], then [changed = true]. *)
Definition do_edit (e : Edit) (st : Scan) : Scan := {|
  line_no := line_no st; block_start := block_start st; block_end := block_end st;
  pos := pos st;
  num_changed_code := num_changed_code st;
  num_changed_callback := num_changed_callback st;
  num_changed_structure := num_changed_structure st;
  num_uid_not_found := num_uid_not_found st; tag_error := tag_error st;
  changed := true; writer := writer st; tree := apply_edit (tree st) e;
  edits := edits st ++ [e] |}.

(** The counters of the checking modes. *)
Definition count (dcode dcallback dstructure dnotfound : Z) (st : Scan) : Scan := {|
  line_no := line_no st; block_start := block_start st; block_end := block_end st;
  pos := pos st;
  num_changed_code := num_changed_code st + dcode;
  num_changed_callback := num_changed_callback st + dcallback;
  num_changed_structure := num_changed_structure st + dstructure;
  num_uid_not_found := num_uid_not_found st + dnotfound; tag_error := tag_error st;
  changed := changed st; writer := writer st; tree := tree st; edits := edits st |}.

Definition is_GO (task : Task) : bool :=
  match task with FD_MERGEBACK_GO => true | _ => false end.

(** The body of [if (block_crc_ != crc)]. *)
Definition block_differs (task : Task) (f : list Z) (type uid : Z) (st : Scan) : option Scan :=
  if is_GO task then
    if (type =? FD_TAG_MENU_CALLBACK) || (type =? FD_TAG_WIDGET_CALLBACK) then
      match find_by_uid uid (tree st) with
      | Some i =>
          if from_option is_true_widget false (tree st !! i) then
            text ← unindent_block f (block_start st) (block_end st);
            Some (do_edit (EditCallback i text) st)
          else Some st
      | None => Some st
      end
    else if type =? FD_TAG_CODE then
      match find_by_uid uid (tree st) with
      | Some i =>
          if from_option is_a_Code false (tree st !! i) then
            text ← unindent_block f (block_start st) (block_end st);
            Some (do_edit (EditName i text) st)
          else Some st
      | None => Some st
      end
    else Some st
  else
    let st :=
      if type =? FD_TAG_GENERIC then count 0 0 1 0 st
      else if type =? FD_TAG_CODE then count 1 0 0 0 st
      else if (type =? FD_TAG_MENU_CALLBACK) || (type =? FD_TAG_WIDGET_CALLBACK)
      then count 0 1 0 0 st
      else st in
    let find_node :=
      (type =? FD_TAG_CODE) || (type =? FD_TAG_MENU_CALLBACK)
      || (type =? FD_TAG_WIDGET_CALLBACK) in
    Some (if find_node && negb (bool_decide (is_Some (find_by_uid uid (tree st))))
          then count 0 0 0 1 st else st).

Section MergeBack.

Variable g_project : Fluid_Project.

(** [sscanf] on the text from the marker on (C library). *)
Variable sscanf_tag : list Z -> Scanned.

(** [fl_fopen(s, "r")]: the bytes of the file, [None] when it cannot be
    opened. *)
Variable fl_fopen : list Z -> option (list Z).

(** [fl_choice(...)] of the interactive mode: the button the user presses,
    given the four counters shown. *)
Variable fl_choice : Z -> Z -> Z -> Z -> Z.

(** The inner [for (;;)] over the lines [fgets] delivers.  The result is
    the state at the [break]; [None] when [unindent_block] is undefined. *)
Fixpoint scan (task : Task) (f : list Z) (lines : list (list Z)) (st : Scan) : option Scan :=
  match lines with
  | [] => Some st
  | line :: rest =>
      let st := next_line line st in
      match strstr (cstr line) tag_marker with
      | None => scan task f rest (code_line line st)
      | Some tag =>
          let sc := sscanf_tag tag in
          if negb (sc_n sc =? 3) || (sc_type sc <? 0) || (FD_TAG_LAST <? sc_type sc)
          then Some (set_tag_error st)
          else
            st ← (if negb (block_crc_ (writer st) =? sc_crc sc)
                  then block_differs task f (sc_type sc) (sc_uid sc) st
                  else Some st);
            scan task f rest (next_block st)
      end
  end.

(** What [merge_back] leaves: the return value, the tree, the writer, the
    final [changed] (which raises the project's modification flag) and the
    edits made. *)
Record Merged := {
  ret : Z;
  m_tree : list Fl_Type;
  m_writer : Fd_Code_Writer;
  m_changed : bool;
  m_edits : list Edit
}.

Definition merged (r : Z) (st : Scan) : Merged :=
  {| ret := r; m_tree := tree st; m_writer := writer st;
     m_changed := changed st; m_edits := edits st |}.

Definition bit_if (b : bool) (mask : Z) (r : Z) : Z := if b then Z.lor r mask else r.

(** The turn of the outer loop that [task = FD_MERGEBACK_GO; continue;]
    leads to: a new scan in the mode GO, then [if (changed) ret = 1; break;]
    with [ret] still 0. *)
Definition go_turn (f : list Z) (st : Scan) : option Merged :=
  st ← scan FD_MERGEBACK_GO f (file_lines f) (scan_start (tree st) (writer st));
  Some (merged (if changed st then 1 else 0) st).

(** [Fd_Code_Writer::merge_back(const char *s, int task)].  The outer
    [for (iter = 0; ; ++iter)] makes one turn, or two when the interactive
    or the safe mode goes on in the mode GO.  The calls into the shell
    ([undo_checkpoint], [fl_message], [set_modflag], [propagate_load]) are
    left out; of [fl_choice] the answer is kept. *)
Definition merge_back (s : list Z) (task : Task) (tr : list Fl_Type) (w : Fd_Code_Writer)
  : option Merged :=
  let unchanged := {| ret := 0; m_tree := tr; m_writer := w; m_changed := false;
                      m_edits := [] |} in
  if negb (write_mergeback_data g_project) then Some unchanged
  else
    match fl_fopen s with
    | None => Some unchanged
    | Some f =>
        st ← scan task f (file_lines f) (scan_start tr w);
        match task with
        | FD_MERGEBACK_CHECK =>
            if negb (tag_error st =? 0) then Some (merged (-1) st)
            else
              Some (merged
                (bit_if (negb (num_uid_not_found st =? 0)) 8
                  (bit_if (negb (num_changed_callback st =? 0)) 4
                    (bit_if (negb (num_changed_code st =? 0)) 2
                      (bit_if (negb (num_changed_structure st =? 0)) 1 0)))) st)
        | FD_MERGEBACK_INTERACTIVE =>
            if negb (tag_error st =? 0) then Some (merged (-1) st)
            else if (num_changed_code st =? 0) && (num_changed_callback st =? 0)
                    && (num_changed_structure st =? 0)
            then Some (merged 0 st)
            else if negb (num_changed_structure st =? 0)
                    && (num_changed_code st =? 0) && (num_changed_callback st =? 0)
            then Some (merged (-1) st)
            else if fl_choice (num_changed_code st) (num_changed_callback st)
                      (num_uid_not_found st) (num_changed_structure st) =? 0
            then Some (merged 1 st)
            else go_turn f st
        | FD_MERGEBACK_GO =>
            Some (merged (if changed st then 1 else 0) st)
        | FD_MERGEBACK_GO_SAFE =>
            if negb (tag_error st =? 0) || negb (num_changed_structure st =? 0)
            then Some (merged (-1) st)
            else if (num_changed_code st =? 0) && (num_changed_callback st =? 0)
            then Some (merged 0 st)
            else go_turn f st
        end
    end.

End MergeBack.


(** ** A model of [sscanf] for the tag format

    Used for the concrete runs below; the theorems on [merge_back] hold
    for every behaviour of [sscanf]. *)

Definition digit_of (c : Z) : option Z :=
  if (48 <=? c) && (c <=? 57) then Some (c - 48)
  else if (97 <=? c) && (c <=? 102) then Some (c - 87)
  else if (65 <=? c) && (c <=? 70) then Some (c - 55)
  else None.

Fixpoint scan_digits (width : nat) (base : Z) (s : list Z) (acc : Z) (got : bool)
  : Z * bool * list Z :=
  match width, s with
  | S width', c :: s' =>
      match digit_of c with
      | Some d =>
          if d <? base then scan_digits width' base s' (acc * base + d) true
          else (acc, got, s)
      | None => (acc, got, s)
      end
  | _, _ => (acc, got, s)
  end.

Fixpoint skip_spaces (s : list Z) : list Z :=
  match s with
  | c :: s' => if isspace c then skip_spaces s' else s
  | [] => []
  end.

Inductive Conversion :=
| Converted (v : Z) (rest : list Z)
| MatchingFailure
| InputFailure.

(** [%d] (base 10) and [%x] (base 16) with a field width: white space, an
    optional sign, for base 16 an optional [0x], then digits. *)
Definition scan_int (width : nat) (base : Z) (s : list Z) : Conversion :=
  match skip_spaces s with
  | [] => InputFailure
  | c :: s' =>
      let '(neg, width, s) :=
        if (c =? 45) || (c =? 43) then (c =? 45, pred width, s') else (false, width, c :: s') in
      let '(width, s) :=
        match s with
        | 48 :: x :: h :: s'' =>
            if (base =? 16) && ((x =? 120) || (x =? 88)) && is_hex_digit h
               && (3 <=? Z.of_nat width)
            then (pred (pred width), h :: s'') else (width, s)
        | _ => (width, s)
        end in
      let '(v, got, rest) := scan_digits width base s 0 false in
      if got then Converted (if neg then - v else v) rest else MatchingFailure
  end.

(** The literal part of a format: [Some rest] when it matches. *)
Fixpoint scan_literal (lit s : list Z) : option (list Z) :=
  match lit, s with
  | [], _ => Some s
  | x :: lit', y :: s' => if x =? y then scan_literal lit' s' else None
  | _ :: _, [] => None
  end.

Definition sscanf_tag_libc (tag : list Z) : Scanned :=
  let result n type uid crc := {| sc_n := n; sc_type := type; sc_uid := uid; sc_crc := crc |} in
  match scan_literal tag_marker tag with
  | None => result (if is_prefix tag tag_marker then -1 else 0) (-1) 0 0
  | Some s =>
      match scan_int (length s) 10 s with
      | InputFailure => result (-1) (-1) 0 0
      | MatchingFailure => result 0 (-1) 0 0
      | Converted type s =>
          match scan_literal [126] s with
          | None => result 1 type 0 0
          | Some s =>
              match scan_int 4 16 s with
              | Converted uid s =>
                  let uid := (uid + 2 ^ 31) mod 2 ^ 32 - 2 ^ 31 in
                  match scan_literal [126] s with
                  | None => result 2 type uid 0
                  | Some s =>
                      match scan_int 8 16 s with
                      | Converted crc _ => result 3 type uid (crc mod 2 ^ 64)
                      | _ => result 2 type uid 0
                      end
                  end
              | _ => result 1 type 0 0
              end
          end
      end
  end.


(** ** Reference definitions, in the specification's words *)

(** The normalized byte stream: carriage returns are dropped, and so is the
    white space at the start of a line before its first other byte;
    newlines are kept; everything else stays. *)
Fixpoint spec_normalize (line_start : bool) (s : list Z) : list Z :=
  match s with
  | [] => []
  | c :: s' =>
      if c =? 13 then spec_normalize line_start s'
      else if c =? 10 then 10 :: spec_normalize true s'
      else if line_start && isspace c then spec_normalize line_start s'
      else c :: spec_normalize false s'
  end.

(** The un-indent rule: up to two white-space bytes go from the start of
    every line ([budget] counts the ones that may still go), and every
    carriage return. *)
Fixpoint spec_unindent (budget : nat) (s : list Z) : list Z :=
  match s with
  | [] => []
  | c :: s' =>
      if c =? 13 then spec_unindent budget s'
      else if c =? 10 then 10 :: spec_unindent 2 s'
      else match budget with
           | S budget' => if isspace c then spec_unindent budget' s'
                          else c :: spec_unindent 0 s'
           | O => c :: spec_unindent 0 s'
           end
  end.

(** A block of a source file: the lines before a tag line, and what
    [sscanf] reads from the tag. *)
Record Block := {
  b_lines : list (list Z);
  b_tag : Scanned
}.

Fixpoint blocks_from (sscanf_tag : list Z -> Scanned) (lines cur : list (list Z))
  : list Block :=
  match lines with
  | [] => []
  | line :: rest =>
      match strstr (cstr line) tag_marker with
      | None => blocks_from sscanf_tag rest (cur ++ [line])
      | Some tag =>
          {| b_lines := cur; b_tag := sscanf_tag tag |} :: blocks_from sscanf_tag rest []
      end
  end.

Definition file_blocks (sscanf_tag : list Z -> Scanned) (f : list Z) : list Block :=
  blocks_from sscanf_tag (file_lines f) [].

(** The CRC and line-start flag after [crc_add(line)]. *)
Definition crc_line (st : Z * bool) (line : list Z) : Z * bool :=
  crc_add_loop (Z.to_nat (strlen line)) (fst st) (snd st) line (strlen line).

(** The CRC recomputed over the lines of a block. *)
Definition recomputed_crc (lines : list (list Z)) : Z :=
  fst (fold_left crc_line lines (crc32_init, true)).

(** A tag line is malformed: [sscanf] does not yield three fields, or the
    kind is outside [0..3]. *)
Definition malformed (sc : Scanned) : bool :=
  negb (sc_n sc =? 3) || (sc_type sc <? 0) || (FD_TAG_LAST <? sc_type sc).

Definition diverges (b : Block) : bool :=
  negb (recomputed_crc (b_lines b) =? sc_crc (b_tag b)).

Definition is_callback_kind (k : Z) : bool :=
  (k =? FD_TAG_MENU_CALLBACK) || (k =? FD_TAG_WIDGET_CALLBACK).

(** The block buffer of a writer is either still unallocated, or was
    allocated by [crc_vprintf] with room for the text that did not fit and
    128 bytes more. *)
Definition buffer_inv (w : Fd_Code_Writer) : Prop :=
  (block_buffer_ w = None /\ block_buffer_size_ w = 0)
  \/ (is_Some (block_buffer_ w) /\ 129 <= block_buffer_size_ w).

(** The texts held by a tree of once-only lines. *)
Fixpoint texts (t : Fd_Text_Tree) : list (list Z) :=
  match t with
  | TNull => []
  | TNode text l r => texts l ++ text :: texts r
  end.

(** A call of one of the two once-writers. *)
Inductive OnceCall :=
| H_once (line : list Z)
| C_once (line : list Z).

Definition once_call (g : Fluid_Project) (c : OnceCall) : Writer Z :=
  match c with
  | H_once line => write_h_once line
  | C_once line => write_c_once g line
  end.

Fixpoint once_calls (g : Fluid_Project) (cs : list OnceCall) : Writer () :=
  match cs with
  | [] => mret tt
  | c :: cs' => once_call g c;; once_calls g cs'
  end.

(** The number an octal numeral denotes. *)
Definition octal_value (digits : list Z) : Z :=
  fold_left (fun acc d => acc * 8 + (d - 48)) digits 0.

(** A list of bytes without NUL: the content of a C string. *)
Definition nonul (l : list Z) : Prop := Forall (fun c => c <> 0) l.

(** The bytes [crc_vprintf] hands to [fputs] for the expansion [txt] when
    the block buffer has [size] bytes: [vsnprintf] stores [size-1] of them,
    and the buffer only grows when [txt] has more than [size] bytes. *)
Definition crc_text (g : Fluid_Project) (size : Z) (txt : list Z) : list Z :=
  if write_mergeback_data g && (0 <? size) && (Z.of_nat (length txt) =? size)
  then take (length txt - 1) txt else txt.

(** [block_buffer_size_] after that call. *)
Definition crc_size (g : Fluid_Project) (size : Z) (txt : list Z) : Z :=
  if write_mergeback_data g && (size <? Z.of_nat (length txt))
  then Z.of_nat (length txt) + 128 else size.

(** [crc_vprintf] does not call [vsnprintf] a second time on a format
    with a conversion: merge-back data is off, the format has none, or the
    text is not longer than the buffer. *)
Definition no_second_read (g : Fluid_Project) (va : bool) (w : Fd_Code_Writer)
    (txt : list Z) : Prop :=
  write_mergeback_data g = true -> va = true ->
  Z.of_nat (length txt) <= block_buffer_size_ w.

(** The block buffer takes a text of [n] bytes whole: merge-back data is
    off, or the buffer has more than [n] bytes. *)
Definition fits (g : Fluid_Project) (w : Fd_Code_Writer) (n : Z) : Prop :=
  write_mergeback_data g = true -> n < block_buffer_size_ w.

(** [crc_vprintf] has its block buffer: merge-back data is off, or the
    buffer is allocated.  A writer gets there by printing a text without
    conversions. *)
Definition buffered (g : Fluid_Project) (w : Fd_Code_Writer) : Prop :=
  buffer_inv w /\ (write_mergeback_data g = true -> is_Some (block_buffer_ w)).

(** A line the buffer [char buf[1024]] of the once-writers holds whole. *)
Definition once_line (line : list Z) : Prop := nonul line /\ (length line <= 1023)%nat.

(** The line a call of [write_c_once] prints fits the block buffer. *)
Definition once_fit (g : Fluid_Project) (w : Fd_Code_Writer) (c : OnceCall) : Prop :=
  match c with
  | H_once _ => True
  | C_once line => fits g w (Z.of_nat (length (once_buf line ++ [10])))
  end.

(** Two lines of 1024 bytes that differ in the last byte only. *)
Definition line_1024_b : list Z := repeat 97 1023 ++ [98].

Definition line_1024_c : list Z := repeat 97 1023 ++ [99].

(** The members no CRC bookkeeping touches. *)
Definition keeps (w w' : Fd_Code_Writer) : Prop :=
  header_file w' = header_file w
  /\ text_in_header w' = text_in_header w
  /\ text_in_code w' = text_in_code w
  /\ varused_test w' = varused_test w
  /\ varused w' = varused w
  /\ write_sourceview w' = write_sourceview w
  /\ indentation w' = indentation w.

(** The bounds [(block_start, block_end)] the scan holds at each tag line,
    starting from the file position [pos] with the bounds [start] and
    [end_]. *)
Fixpoint block_bounds (lines : list (list Z)) (pos start end_ : Z) : list (Z * Z) :=
  match lines with
  | [] => []
  | line :: rest =>
      let pos := pos + Z.of_nat (length line) in
      match strstr (cstr line) tag_marker with
      | None => block_bounds rest pos start pos
      | Some _ => (start, end_) :: block_bounds rest pos pos end_
      end
  end.

(** [unindent_block] is undefined on a block of the file. *)
Definition undefined_block (f : list Z) (lines : list (list Z)) (pos start end_ : Z) : Prop :=
  Exists (fun b => unindent_block f (fst b) (snd b) = None)
         (block_bounds lines pos start end_).

(** How many blocks satisfy a test. *)
Fixpoint countb (P : Block -> bool) (bs : list Block) : Z :=
  match bs with
  | [] => 0
  | b :: bs' => (if P b then 1 else 0) + countb P bs'
  end.

(** A block whose recomputed CRC differs from its tag's, of a kind that
    passes [kind_ok]. *)
Definition differs (kind_ok : Z -> bool) (b : Block) : bool :=
  diverges b && kind_ok (sc_type (b_tag b)).

Definition is_mergeable_kind (k : Z) : bool := (k =? FD_TAG_CODE) || is_callback_kind k.

(** Such a block whose uid no node of the tree has. *)
Definition differs_unknown (tr : list Fl_Type) (b : Block) : bool :=
  differs is_mergeable_kind b
  && negb (bool_decide (is_Some (find_by_uid (sc_uid (b_tag b)) tr))).

(** CRC and line-start flag of a writer. *)
Definition crc_state (w : Fd_Code_Writer) : Z * bool := (block_crc_ w, block_line_start_ w).

(** A text is in the tree: the search loop ends on it. *)
Definition in_tree (buf : list Z) (t : Fd_Text_Tree) : Prop := text_walk buf t = None.

(** An octal escape has one, two or three digits, none of them NUL, and
    denotes the byte. *)
Definition octal_ok (v : Z) : bool :=
  (octal_value (fmt_o v) =? v)
  && (Z.of_nat (length (fmt_o v)) =? (if v <? 8 then 1 else if v <? 64 then 2 else 3))
  && forallb (fun d => (48 <=? d) && (d <=? 55)) (fmt_o v).

(** [changed] is set exactly when an edit has been made, and the tree is
    the start tree with the edits applied in order. *)
Definition go_inv (tr0 : list Fl_Type) (st : Scan) : Prop :=
  changed st = negb (bool_decide (edits st = []))
  /\ tree st = fold_left apply_edit (edits st) tr0.

(** The content of a C string: bytes other than NUL. *)
Definition is_cstring (s : list Z) : Prop := Forall (fun c => 0 < c < 256) s.

(** No carriage return is directly followed by another one. *)
Fixpoint no_cr_pair (s : list Z) : bool :=
  match s with
  | [] => true
  | c :: s' => negb ((c =? 13) && (peek s' =? 13)) && no_cr_pair s'
  end.

(** The bytes that reach the CRC, and the line-start flag afterwards, for a
    string in which no carriage return follows another: at a line start
    all white space goes, newlines included; elsewhere carriage returns
    go. *)
Fixpoint crc_stream (line_start : bool) (s : list Z) : list Z * bool :=
  match s with
  | [] => ([], line_start)
  | c :: s' =>
      if line_start && isspace c then crc_stream true s'
      else if c =? 13 then crc_stream false s'
      else let '(out, line_start) := crc_stream (c =? 10) s' in (c :: out, line_start)
  end.

(** Newlines at a line start (blank lines) taken out of a normalized
    stream. *)
Fixpoint drop_blank (line_start : bool) (t : list Z) : list Z :=
  match t with
  | [] => []
  | c :: t' =>
      if c =? 10 then (if line_start then drop_blank true t' else 10 :: drop_blank true t')
      else c :: drop_blank false t'
  end.

(** What has been seen of the current line. *)
Inductive LineSeen :=
| AtStart
| OnlyWhite
| SeenByte.

(** Every line of the text, the last one included when it is not empty,
    holds a byte that is not white space. *)
Fixpoint lines_ok (seen : LineSeen) (s : list Z) : bool :=
  match s with
  | [] => match seen with OnlyWhite => false | _ => true end
  | c :: s' =>
      if c =? 10 then match seen with SeenByte => lines_ok AtStart s' | _ => false end
      else if isspace c
      then lines_ok (match seen with SeenByte => SeenByte | _ => OnlyWhite end) s'
      else lines_ok SeenByte s'
  end.

(** ** Concrete settings and data for the examples *)

Definition project_tagging : Fluid_Project :=
  {| write_mergeback_data := true; utf8_in_src := false |}.

Definition project_plain : Fluid_Project :=
  {| write_mergeback_data := false; utf8_in_src := false |}.

(** The state of a run that is known to be defined. *)
Definition after {A} (m : Writer A) (w : Fd_Code_Writer) : Fd_Code_Writer :=
  from_option id w (exec m w).

(** A writer that has written [x] and no newline yet. *)
Definition writer_mid_line : Fd_Code_Writer :=
  after (crc_puts project_tagging (bytes "x")) Fd_Code_Writer_new.

Definition stream_double_cr : list Z := bytes "a" ++ [13; 13] ++ bytes "b".

Definition text_blank_line : list Z := bytes "x" ++ [10; 10] ++ bytes "  y".

Definition text_double_cr : list Z := bytes "a" ++ [13; 13] ++ bytes "b".

Definition text_trailing_blank : list Z := bytes "x" ++ [10; 10].

(** A tree with one widget, uid [0xab]. *)
Definition tree_one_widget : list Fl_Type :=
  [ {| uid_ := 0xab; is_true_widget := true; is_a_Code := false;
       callback_ := bytes "old();"; name_ := [] |} ].

(** A callback as the writer emits it, between two tags. *)
Definition emit_callback : Writer () :=
  write_c project_tagging false (bytes "void cb() {" ++ [10]);;
  tag project_tagging FD_TAG_GENERIC 0xab;;
  write_c project_tagging false (bytes "  old();" ++ [10]);;
  tag project_tagging FD_TAG_WIDGET_CALLBACK 0xab;;
  write_c project_tagging false (bytes "}" ++ [10]);;
  tag project_tagging FD_TAG_GENERIC 0xab.

Definition file_emitted : list Z := code_file (after emit_callback Fd_Code_Writer_new).

(** A file whose only line is a tag that [sscanf] cannot read. *)
Definition file_bad_tag : list Z := bytes "//~fl~x" ++ [10].

(** An edited callback block, then a tag that [sscanf] cannot read. *)
Definition file_edit_then_bad_tag : list Z :=
  bytes "  new();" ++ [10] ++ tag_line FD_TAG_WIDGET_CALLBACK 0xab 0x1234 ++ file_bad_tag.

Definition any_file (f : list Z) : list Z -> option (list Z) := fun _ => Some f.

Definition always_merge : Z -> Z -> Z -> Z -> Z := fun _ _ _ _ => 1.

(** The emitted file with one more blank before the callback's line. *)
Definition file_more_indent : list Z :=
  bytes "void cb() {" ++ [10] ++ tag_line FD_TAG_GENERIC 0xab 0x613f6e5a
  ++ bytes "   old();" ++ [10] ++ tag_line FD_TAG_WIDGET_CALLBACK 0xab 0x7d6b0146
  ++ bytes "}" ++ [10] ++ tag_line FD_TAG_GENERIC 0xab 0x3b9dfc5a.

(** The emitted file with the callback's line replaced. *)
Definition file_edited : list Z :=
  bytes "void cb() {" ++ [10] ++ tag_line FD_TAG_GENERIC 0xab 0x613f6e5a
  ++ bytes "  new();" ++ [10] ++ tag_line FD_TAG_WIDGET_CALLBACK 0xab 0x7d6b0146
  ++ bytes "}" ++ [10] ++ tag_line FD_TAG_GENERIC 0xab 0x3b9dfc5a.

(** A writer whose block buffer has 129 bytes, and a text of 129 bytes. *)
Definition writer_small_buffer : Fd_Code_Writer :=
  after (crc_vprintf project_tagging false (bytes "x")) Fd_Code_Writer_new.

Definition text_129 : list Z := repeat 97 128 ++ [10].

(** A file in which the callback block has been emptied: its tag line
    directly follows the tag line before it. *)
Definition file_emptied : list Z :=
  bytes "void cb() {" ++ [10] ++ tag_line FD_TAG_GENERIC 0xab 0x613f6e5a
  ++ tag_line FD_TAG_WIDGET_CALLBACK 0xab 0x7d6b0146
  ++ bytes "}" ++ [10] ++ tag_line FD_TAG_GENERIC 0xab 0x3b9dfc5a.

(** ** Further members of the writer *)

(** [Fd_Pointer_Tree]: [PNull] is the null pointer; a pointer is its
    address. *)
Inductive Fd_Pointer_Tree :=
| PNull
| PNode (ptr : Z) (left right : Fd_Pointer_Tree).

(** [Fd_Code_Writer::c_contains(void *pp)] on the member [ptr_in_code]:
    the result, and the tree afterwards. *)
Fixpoint c_contains (pp : Z) (p : Fd_Pointer_Tree) : bool * Fd_Pointer_Tree :=
  match p with
  | PNull => (false, PNode pp PNull PNull)
  | PNode ptr l r =>
      if ptr =? pp then (true, p)
      else if ptr <? pp then let '(b, l') := c_contains pp l in (b, PNode ptr l' r)
      else let '(b, r') := c_contains pp r in (b, PNode ptr l r')
  end.

(** The pointers a tree holds. *)
Fixpoint ptrs (t : Fd_Pointer_Tree) : list Z :=
  match t with
  | PNull => []
  | PNode ptr l r => ptrs l ++ ptr :: ptrs r
  end.

(** [ptr_in_code] after calls of [c_contains] with the pointers [pps], in
    that order, on the tree [t]. *)
Definition c_contains_all (pps : list Z) (t : Fd_Pointer_Tree) : Fd_Pointer_Tree :=
  fold_left (fun t pp => snd (c_contains pp t)) pps t.

(** Every pointer of the tree is found, and none is held twice. *)
Definition ptrs_inv (t : Fd_Pointer_Tree) : Prop :=
  NoDup (ptrs t) /\ forall x, x ∈ ptrs t -> fst (c_contains x t) = true.

(** ** Indentation *)

(** The static string of [indent]: 32 blanks. *)
Definition spaces : list Z := bytes "                                ".

(** [Fd_Code_Writer::indent(int set)]: the string at [spaces+32-i].  [None]
    when [set * 2] overflows an [int]. *)
Definition indent (set : Z) : option (list Z) :=
  let i := set * 2 in
  if (i <? - 2 ^ 31) || (2 ^ 31 <=? i) then None
  else
    let i := if 32 <? i then 32 else i in
    let i := if i <? 0 then 0 else i in
    Some (drop (Z.to_nat (32 - i)) spaces).

(** [indent()] *)
Definition indent_cur (w : Fd_Code_Writer) : option (list Z) := indent (indentation w).

(** [indent_plus(int offset)] *)
Definition indent_plus (offset : Z) (w : Fd_Code_Writer) : option (list Z) :=
  indent (indentation w + offset).

(** ** The header guard *)

(** [isalpha] and [isalnum] of <ctype.h> in the "C" locale. *)
Definition isalpha (c : Z) : bool :=
  ((65 <=? c) && (c <=? 90)) || ((97 <=? c) && (c <=? 122)).

Definition isalnum (c : Z) : bool := isalpha c || ((48 <=? c) && (c <=? 57)).

(** The block of [write_code(s, t, to_sourceview)] that fills
    [char define_name[102]] from the file name [a] of the header ([a] is
    what [fl_filename_name(t)] returns).  [None] when the name does not fit
    the array. *)
Definition define_name (a : list Z) : option (list Z) :=
  let a := cstr a in
  let b :=
    (if isalpha (char_val (peek a)) then [] else [95])
    ++ map (fun c => if isalnum (char_val c) then c else 95) a in
  if (101 <? Z.of_nat (length b)) then None else Some b.

(** A C identifier: a letter or an underscore, then letters, digits and
    underscores. *)
Definition is_identifier (b : list Z) : bool :=
  match b with
  | [] => false
  | c :: r => (isalpha c || (c =? 95)) && forallb (fun c => isalnum c || (c =? 95)) b
  end.

(** ** [write_cdata] *)

Section Data.

Variable g_project : Fluid_Project.
Variable after_uc : Z.

(** [*w] for [const unsigned char *w] at index [i] of the array [s]; a read
    outside the array is undefined. *)
Definition uchar_at (s : list Z) (i : nat) : Writer Z :=
  match s !! i with
  | Some b => mret (to_uchar b)
  | None => undefined
  end.

(** The loop [for (; w < e;)], [fuel] bounding the turns left; [w] is the
    index of the byte read by [c = *w++]. *)
Fixpoint write_cdata_loop (fuel : nat) (s : list Z) (e : Z) (w : nat) (linelength : Z)
  : Writer () :=
  match fuel with
  | O => mret tt
  | S fuel' =>
      if Z.of_nat w <? e then
        c ← uchar_at s w;
        let linelength :=
          if 99 <? c then linelength + 4
          else if 9 <? c then linelength + 3
          else linelength + 2 in
        linelength ←
          (if 77 <=? linelength then crc_puts g_project [10];; mret 0 else mret linelength);
        crc_printf g_project true (fmt_d c);;
        (if Z.of_nat (S w) <? e then crc_putc g_project after_uc 44 else mret tt);;
        write_cdata_loop fuel' s e (S w) linelength
      else mret tt
  end.

(** [Fd_Code_Writer::write_cdata(const char *s, int length)]; [s] holds the
    bytes of the array that starts at the pointer.  With a length below -1
    the pointer [w+length] lies before the array: undefined. *)
Definition write_cdata (s : list Z) (length : Z) : Writer () :=
  vt ← gets varused_test;
  if negb (vt =? 0) then modify (set_varused 1)
  else
    sv ← gets write_sourceview;
    if sv : bool then
      if 0 <=? length
      then crc_printf g_project true
             (bytes "{ /* ... " ++ fmt_d length ++ bytes " bytes of binary data... */ }")
      else crc_puts g_project (bytes "{ /* ... binary data... */ }")
    else if length =? -1 then
      crc_puts g_project ([10] ++ bytes "#error  data not found" ++ [10]);;
      crc_puts g_project (bytes "{ /* ... undefined size binary data... */ }")
    else if length <? -1 then undefined
    else
      crc_putc g_project after_uc 123;;
      write_cdata_loop (Z.to_nat length) s length 0 1;;
      crc_putc g_project after_uc 125.

End Data.

(** The text the loop of [write_cdata] writes for the bytes [bs], as a
    function of the bytes alone. *)
Fixpoint cdata_text (bs : list Z) (linelength : Z) : list Z :=
  match bs with
  | [] => []
  | c :: r =>
      let ll := linelength + (if 99 <? c then 4 else if 9 <? c then 3 else 2) in
      (if 77 <=? ll then [10] else [])
      ++ fmt_d c
      ++ (match r with [] => [] | _ => [44] end)
      ++ cdata_text r (if 77 <=? ll then 0 else ll)
  end.

Definition is_digit (c : Z) : bool := (48 <=? c) && (c <=? 57).

(** Reading an initialiser back: decimal numbers separated by commas, line
    breaks between the numbers only, the closing brace last.  [cur] is the
    number being read. *)
Fixpoint read_numbers (cur : option Z) (l : list Z) : option (list Z) :=
  match l with
  | [] => None
  | c :: r =>
      if is_digit c then read_numbers (Some (10 * default 0 cur + (c - 48))) r
      else
        match cur with
        | Some v =>
            if c =? 44 then cons v <$> read_numbers None r
            else if c =? 125 then match r with [] => Some [v] | _ => None end
            else None
        | None =>
            if c =? 10 then read_numbers None r
            else if c =? 125 then match r with [] => Some [] | _ => None end
            else None
        end
  end.

Definition read_initializer (l : list Z) : option (list Z) :=
  match l with
  | 123 :: r => read_numbers None r
  | _ => None
  end.

(** No line of [l] grows beyond [limit] bytes, when [col] bytes are on the
    current line already. *)
Fixpoint within (limit col : nat) (l : list Z) : bool :=
  match l with
  | [] => true
  | c :: r =>
      if c =? 10 then within limit 0 r
      else (S col <=? limit)%nat && within limit (S col) r
  end.

(** [%d] of a byte: one to three digits that denote it. *)
Definition decimal_ok (v : Z) : bool :=
  forallb is_digit (fmt_d v)
  && (fold_left (fun a c => 10 * a + (c - 48)) (fmt_d v) 0 =? v)
  && (Z.of_nat (length (fmt_d v)) =? (if 99 <? v then 3 else if 9 <? v then 2 else 1)).

(** ** [unique_id] *)

(** [is_id(char c)] *)
Definition is_id (c : Z) : bool :=
  ((97 <=? c) && (c <=? 122)) || ((65 <=? c) && (c <=? 90))
  || ((48 <=? c) && (c <=? 57)) || (c =? 95).

(** [%x] of an [unsigned int] *)
Definition fmt_x (n : Z) : list Z := unsigned_digits 16 (n mod 2 ^ 32).

(** [Fd_Identifier_Tree]: [INull] is the null pointer; an object is its
    address. *)
Inductive Fd_Identifier_Tree :=
| INull
| INode (text : list Z) (object : Z) (left right : Fd_Identifier_Tree).

(** [while ( *n && !is_id( *n)) n++;] *)
Fixpoint skip_non_id (n : list Z) : list Z :=
  match n with
  | [] => []
  | c :: r => if negb (c =? 0) && negb (is_id (char_val c)) then skip_non_id r else n
  end.

(** [while (is_id( *n) && (q < q_end)) *q++ = *n++;] with room for [room]
    more bytes before [q_end]. *)
Fixpoint copy_id (room : nat) (n : list Z) : list Z :=
  match room, n with
  | S room', c :: r => if is_id (char_val c) then c :: copy_id room' r else []
  | _, _ => []
  end.

(** The first part of [unique_id]: the content of [char buffer[128]] at
    [*q = 0].  [name] and [label] are [None] for null pointers.  [None]:
    the type does not leave room for the underscore and the NUL. *)
Definition id_base (type : list Z) (name label : option (list Z)) : option (list Z) :=
  let t := cstr type in
  if (126 <? length t)%nat then None
  else
    let n := match name with
             | Some n' => if peek n' =? 0 then label else name
             | None => label
             end in
    Some (t ++ [95]
          ++ match n with
             | Some n' =>
                 if peek n' =? 0 then []
                 else copy_id (128 - 8 - 1 - (length t + 1)) (skip_non_id n')
             | None => []
             end).

(** How one descent from [id_root] ends: on the node of the object, on a
    node of another object, or on a null pointer, where the new node is
    linked. *)
Inductive Id_Walk :=
| Id_Owned (text : list Z)
| Id_Taken
| Id_New (id_root : Fd_Identifier_Tree).

(** The descent of [while ( *p )] for one content of [buffer]. *)
Fixpoint id_walk (buffer : list Z) (o : Z) (p : Fd_Identifier_Tree) : Id_Walk :=
  match p with
  | INull => Id_New (INode (cstr buffer) o INull INull)
  | INode text object l r =>
      let i := strcmp buffer text in
      if i =? 0 then (if object =? o then Id_Owned text else Id_Taken)
      else if i <? 0 then
        match id_walk buffer o l with
        | Id_New l' => Id_New (INode text object l' r)
        | found => found
        end
      else
        match id_walk buffer o r with
        | Id_New r' => Id_New (INode text object l r')
        | found => found
        end
  end.

Fixpoint id_size (p : Fd_Identifier_Tree) : nat :=
  match p with
  | INull => 0
  | INode _ _ l r => S (id_size l + id_size r)
  end.

(** The search of [unique_id], one descent for each value of [which];
    [base] is the part of the buffer before [q].  The result is the string
    at the returned pointer and the tree.  [None]: [++which] overflows or
    [sprintf] writes beyond the buffer (or [fuel] was too small). *)
Fixpoint unique_id_loop (fuel : nat) (base buffer : list Z) (o which : Z)
    (id_root : Fd_Identifier_Tree) : option (list Z * Fd_Identifier_Tree) :=
  match fuel with
  | O => None
  | S fuel' =>
      match id_walk buffer o id_root with
      | Id_Owned text => Some (cstr text, id_root)
      | Id_New id_root' => Some (cstr buffer, id_root')
      | Id_Taken =>
          let which := which + 1 in
          if 2 ^ 31 <=? which then None
          else
            let buffer := base ++ fmt_x which in
            if 128 <? Z.of_nat (length buffer) + 1 then None
            else unique_id_loop fuel' base buffer o which id_root
      end
  end.

(** [Fd_Code_Writer::unique_id]; the member [id_root] is passed in and
    out.  Every descent that restarts the search ends on another node of
    the tree, so one turn more than the tree has nodes is enough. *)
Definition unique_id (o : Z) (type : list Z) (name label : option (list Z))
    (id_root : Fd_Identifier_Tree) : option (list Z * Fd_Identifier_Tree) :=
  match id_base type name label with
  | Some base => unique_id_loop (S (id_size id_root)) base base o 0 id_root
  | None => None
  end.

(** A call of [unique_id]. *)
Record Id_Request := {
  rq_object : Z;
  rq_type : list Z;
  rq_name : option (list Z);
  rq_label : option (list Z)
}.

(** A sequence of calls, each on the tree the one before has left. *)
Fixpoint unique_ids (rqs : list Id_Request) (id_root : Fd_Identifier_Tree)
  : option (list (list Z) * Fd_Identifier_Tree) :=
  match rqs with
  | [] => Some ([], id_root)
  | rq :: rest =>
      match unique_id (rq_object rq) (rq_type rq) (rq_name rq) (rq_label rq) id_root with
      | Some (id, id_root1) =>
          match unique_ids rest id_root1 with
          | Some (ids, id_root2) => Some (id :: ids, id_root2)
          | None => None
          end
      | None => None
      end
  end.

(** The object that holds the identifier [buffer] in the tree. *)
Fixpoint id_owner (buffer : list Z) (p : Fd_Identifier_Tree) : option Z :=
  match p with
  | INull => None
  | INode text object l r =>
      let i := strcmp buffer text in
      if i =? 0 then Some object
      else if i <? 0 then id_owner buffer l
      else id_owner buffer r
  end.

Fixpoint id_texts (p : Fd_Identifier_Tree) : list (list Z) :=
  match p with
  | INull => []
  | INode text _ l r => id_texts l ++ text :: id_texts r
  end.

(** The tree [p'] holds what [p] holds, for the same objects. *)
Definition id_grows (p p' : Fd_Identifier_Tree) : Prop :=
  (id_size p <= id_size p')%nat
  /\ forall buffer x, id_owner buffer p = Some x -> id_owner buffer p' = Some x.

(** The value of a string of lower-case hexadecimal digits. *)
Definition hex_value (ds : list Z) : Z :=
  fold_left (fun a c => 16 * a + (if c <? 58 then c - 48 else c - 87)) ds 0.

Definition is_lower_hex (c : Z) : bool :=
  ((48 <=? c) && (c <=? 57)) || ((97 <=? c) && (c <=? 102)).

(** The content of [buffer] after [sprintf(q, "%x", which)], and before
    the first one. *)
Definition id_candidate (base : list Z) (which : Z) : list Z :=
  base ++ (if which =? 0 then [] else fmt_x which).

Definition id_char (c : Z) : Prop := is_id (char_val c) = true.

(** Calls for two objects that ask for the same name. *)
Definition id_calls : list Id_Request :=
  [ {| rq_object := 1000; rq_type := bytes "cb"; rq_name := Some (bytes "quit");
       rq_label := None |};
    {| rq_object := 2000; rq_type := bytes "cb"; rq_name := None;
       rq_label := Some (bytes " quit now") |};
    {| rq_object := 1000; rq_type := bytes "cb"; rq_name := Some (bytes "quit");
       rq_label := None |} ].


(** ** Writing blocks and reading them back *)

(** A block as the code generators write it: its text, handed to
    [crc_puts] in pieces, then the tag. *)
Record Emitted := {
  e_pieces : list (list Z);
  e_type : Z;
  e_uid : Z
}.

Definition e_text (b : Emitted) : list Z := concat (e_pieces b).

Section Emit.

Variable g_project : Fluid_Project.

Fixpoint emit_pieces (ps : list (list Z)) : Writer () :=
  match ps with
  | [] => mret tt
  | p :: ps' => crc_puts g_project p;; emit_pieces ps'
  end.

Definition emit_block (b : Emitted) : Writer () :=
  emit_pieces (e_pieces b);; tag g_project (e_type b) (e_uid b).

Fixpoint emit_blocks (bs : list Emitted) : Writer () :=
  match bs with
  | [] => mret tt
  | b :: bs' => emit_block b;; emit_blocks bs'
  end.

End Emit.

(** The text is empty or ends with a newline. *)
Fixpoint ends_line (t : list Z) : bool :=
  match t with
  | [] => true
  | [c] => c =? 10
  | _ :: r => ends_line r
  end.

Definition no_cr (t : list Z) : Prop := Forall (fun c => c <> 13) t.

(** The CRC the writer holds when it comes to the tag of the block. *)
Definition emitted_crc (b : Emitted) : Z :=
  fst (fold_left crc_line (e_pieces b) (crc32_init, true)).

(** What is asked of a block: its pieces are C strings, its text holds no
    carriage return and no tag marker and ends with a newline (or is
    empty), its kind is one of the four. *)
Definition emitted_ok (b : Emitted) : Prop :=
  Forall is_cstring (e_pieces b)
  /\ no_cr (e_text b)
  /\ ends_line (e_text b) = true
  /\ strstr (e_text b) tag_marker = None
  /\ 0 <= e_type b <= FD_TAG_LAST.

(** [sscanf] reads from the tag line of the block what [fprintf] has
    written there. *)
Definition reads_back (sscanf_tag : list Z -> Scanned) (b : Emitted) : Prop :=
  sscanf_tag (tag_line (e_type b) (e_uid b mod 2 ^ 16) (emitted_crc b))
  = {| sc_n := 3; sc_type := e_type b; sc_uid := e_uid b mod 2 ^ 16;
       sc_crc := emitted_crc b |}.

(** The scan has met nothing to report or to merge. *)
Definition scan_idle (tr : list Fl_Type) (st : Scan) : Prop :=
  tree st = tr /\ edits st = [] /\ changed st = false /\ tag_error st = 0
  /\ num_changed_code st = 0 /\ num_changed_callback st = 0
  /\ num_changed_structure st = 0 /\ num_uid_not_found st = 0.

(** Two blocks of a function body, the text of the second one written in
    three pieces. *)
Definition blocks_cb : list Emitted :=
  [ {| e_pieces := [bytes "void cb() {" ++ [10]]; e_type := FD_TAG_GENERIC; e_uid := 0xab |};
    {| e_pieces := [bytes "  if (x)"; [10] ++ bytes "    quit("; bytes ");" ++ [10]];
       e_type := FD_TAG_WIDGET_CALLBACK; e_uid := 0xab |} ].


(** The code file the blocks make: each text, then its tag line. *)
Definition emitted_file (bs : list Emitted) : list Z :=
  concat ((fun b => e_text b
                    ++ tag_line (e_type b) (e_uid b mod 2 ^ 16) (emitted_crc b)) <$> bs).

(** A byte of a line of text: not NUL, not a newline. *)
Definition line_byte (c : Z) : Prop := 0 < c < 256 /\ c <> 10.


(** ** [write_c_indented] *)

Definition set_indentation (i : Z) (w : Fd_Code_Writer) : Fd_Code_Writer :=
  {| code_file := code_file w; header_file := header_file w;
     text_in_header := text_in_header w; text_in_code := text_in_code w;
     block_crc_ := block_crc_ w; block_buffer_ := block_buffer_ w;
     block_buffer_size_ := block_buffer_size_ w;
     block_line_start_ := block_line_start_ w; indentation := i;
     write_sourceview := write_sourceview w; varused_test := varused_test w;
     varused := varused w |}.

(** [indentation += d] on an [int]: undefined when it overflows. *)
Definition add_indentation (d : Z) : Writer () := fun w =>
  let i := indentation w + d in
  if (i <? - 2 ^ 31) || (2 ^ 31 <=? i) then None else Some (tt, set_indentation i w).

(** [indent()] as an argument of a call. *)
Definition indent_now : Writer (list Z) := fun w =>
  match indent_cur w with
  | Some ind => Some (ind, w)
  | None => None
  end.

(** [strchr(textlines, '\n')]: the bytes before the first newline, and
    the text after it ([None] when there is no newline). *)
Fixpoint split_line (s : list Z) : list Z * option (list Z) :=
  match s with
  | [] => ([], None)
  | c :: r =>
      if c =? 10 then ([], Some r)
      else let '(line, newline) := split_line r in (c :: line, newline)
  end.

Section Indented.

Variable g_project : Fluid_Project.

(** The [for (;;)] loop; every turn but the last takes a newline off
    [textlines], so one turn more than the text has bytes is enough. *)
Fixpoint write_c_indented_loop (fuel : nat) (textlines : list Z) (inTrailwWith : Z)
  : Writer () :=
  match fuel with
  | O => undefined
  | S fuel' =>
      let '(line, newline) := split_line textlines in
      (if char_val (peek textlines) =? 10 then mret tt
       else if char_val (peek textlines) =? 35 then write_c g_project true line
       else ind ← indent_now; write_c g_project true (ind ++ line));;
      match newline with
      | Some rest =>
          write_c g_project false [10];;
          write_c_indented_loop fuel' rest inTrailwWith
      | None =>
          if negb (inTrailwWith =? 0) then write_c g_project true [to_uchar inTrailwWith]
          else mret tt
      end
  end.

(** [Fd_Code_Writer::write_c_indented]; [textlines] is [None] for a null
    pointer, [inTrailwWith] the value of the [char]. *)
Definition write_c_indented (textlines : option (list Z)) (inIndent inTrailwWith : Z)
  : Writer () :=
  match textlines with
  | None => mret tt
  | Some text =>
      add_indentation inIndent;;
      write_c_indented_loop (S (length (cstr text))) (cstr text) inTrailwWith;;
      add_indentation (- inIndent)
  end.

End Indented.

(** The text with [ind] put before every line that is not empty and does
    not start with [#], and after the last newline; [at_start] tells
    whether a line starts here. *)
Fixpoint indent_text (ind : list Z) (at_start : bool) (s : list Z) : list Z :=
  match s with
  | [] => if at_start then ind else []
  | c :: r =>
      if c =? 10 then 10 :: indent_text ind true r
      else (if at_start && negb (c =? 35) then ind else []) ++ c :: indent_text ind false r
  end.

(** The text does not end at the start of a line. *)
Fixpoint open_end (at_start : bool) (s : list Z) : bool :=
  match s with
  | [] => negb at_start
  | c :: r => open_end (c =? 10) r
  end.

(** The writer is not in the variable-use test, and [crc_vprintf] has its
    block buffer: merge-back data is off, or the buffer is allocated. *)
Definition ready (g : Fluid_Project) (w : Fd_Code_Writer) : Prop :=
  varused_test w = 0 /\ buffer_inv w
  /\ (write_mergeback_data g = true -> is_Some (block_buffer_ w)).

(** A callback of two lines, the second one a nested statement. *)
Definition text_callback : list Z :=
  bytes "if (x)" ++ [10] ++ bytes "  quit();".

(** A writer that has put out a first line through [crc_printf], from a
    format without conversions: its block buffer is allocated. *)
Definition writer_started : Fd_Code_Writer :=
  after (crc_printf project_tagging false (bytes "// generated" ++ [10])) Fd_Code_Writer_new.


(** ** [write_public] *)

(** Modelled from the spec: the enclosing class and widget class
    ([current_class], [current_widget_class]) are globals declared outside
    [code.cxx]; of each the member [write_public_state] is kept, [None]
    standing for the null pointer. *)
Record Class_Scope := {
  current_class : option Z;
  current_widget_class : option Z
}.

(** [Fd_Code_Writer::write_public(int state)] *)
Definition write_public (state : Z) (cs : Class_Scope) : Writer Class_Scope :=
  let records (c : option Z) :=
    match c with Some s => s =? state | None => false end in
  let set (c : option Z) :=
    match c with Some _ => Some state | None => None end in
  if negb (bool_decide (is_Some (current_class cs)))
     && negb (bool_decide (is_Some (current_widget_class cs)))
  then mret cs
  else if records (current_class cs) then mret cs
  else if records (current_widget_class cs) then mret cs
  else
    (if state =? 0 then write_h (bytes "private:" ++ [10])
     else if state =? 1 then write_h (bytes "public:" ++ [10])
     else if state =? 2 then write_h (bytes "protected:" ++ [10])
     else mret tt);;
    mret {| current_class := set (current_class cs);
            current_widget_class := set (current_widget_class cs) |}.

(** A class whose members are private so far. *)
Definition scope_private : Class_Scope :=
  {| current_class := Some 0; current_widget_class := None |}.

(** ** Reading a string literal back *)




(** Translation phase 2 of C: every backslash directly followed by a
    newline goes, with the newline. *)
Fixpoint splice (l : list Z) : list Z :=
  match l with
  | c :: ((n :: r') as r) => if (c =? 92) && (n =? 10) then splice r' else c :: splice r
  | _ => l
  end.










(** ** The mode GO on a file of tagged blocks *)

(** What no edit changes of a node. *)
Definition shape (tr : list Fl_Type) : list (Z * bool * bool) :=
  (fun tp => (uid_ tp, is_true_widget tp, is_a_Code tp)) <$> tr.

(** A block of a code file: its text and the fields of its tag line. *)
Record Tagged := {
  t_text : list Z;
  t_type : Z;
  t_uid : Z;
  t_crc : Z
}.

Definition tagged_file (bs : list Tagged) : list Z :=
  concat ((fun b => t_text b ++ tag_line (t_type b) (t_uid b) (t_crc b)) <$> bs).

(** The block is well formed: its text is a C string without tag marker
    that is empty or ends with a newline, its kind is one of the four, and
    [sscanf] reads its tag line as printed. *)
Definition tagged_ok (sscanf_tag : list Z -> Scanned) (b : Tagged) : Prop :=
  is_cstring (t_text b)
  /\ ends_line (t_text b) = true
  /\ strstr (t_text b) tag_marker = None
  /\ 0 <= t_type b <= FD_TAG_LAST
  /\ sscanf_tag (tag_line (t_type b) (t_uid b) (t_crc b))
     = {| sc_n := 3; sc_type := t_type b; sc_uid := t_uid b; sc_crc := t_crc b |}.

(** The CRC of the text is not the one of the tag. *)
Definition block_changed (b : Tagged) : bool :=
  negb (recomputed_crc (file_lines (t_text b)) =? t_crc b).

(** The member the mode GO sets for a block: the callback of the true
    widget, or the name of the code node, that has the uid of the tag, when
    the block has changed. *)
Definition go_target (tr : list Fl_Type) (b : Tagged) : option (list Z -> Edit) :=
  if block_changed b then
    if is_callback_kind (t_type b) then
      match find_by_uid (t_uid b) tr with
      | Some i =>
          if from_option is_true_widget false (tr !! i) then Some (EditCallback i) else None
      | None => None
      end
    else if t_type b =? FD_TAG_CODE then
      match find_by_uid (t_uid b) tr with
      | Some i =>
          if from_option is_a_Code false (tr !! i) then Some (EditName i) else None
      | None => None
      end
    else None
  else None.

Definition go_edit (tr : list Fl_Type) (b : Tagged) : option Edit :=
  match go_target tr b, unindent (t_text b) with
  | Some e, Some text => Some (e text)
  | _, _ => None
  end.

Definition go_edits (tr : list Fl_Type) (bs : list Tagged) : list Edit :=
  omap (go_edit tr) bs.

(** The block can be merged: it has a line, and [unindent] is defined on
    its text. *)
Definition mergeable (tr : list Fl_Type) (b : Tagged) : Prop :=
  is_Some (go_target tr b) -> t_text b <> [] /\ is_Some (unindent (t_text b)).

(** The emitted file of the examples with another callback, cut into its
    blocks. *)
Definition blocks_edited : list Tagged :=
  [ {| t_text := bytes "void cb() {" ++ [10]; t_type := FD_TAG_GENERIC; t_uid := 0xab;
       t_crc := 0x613f6e5a |};
    {| t_text := bytes "  new();" ++ [10]; t_type := FD_TAG_WIDGET_CALLBACK; t_uid := 0xab;
       t_crc := 0x7d6b0146 |};
    {| t_text := bytes "}" ++ [10]; t_type := FD_TAG_GENERIC; t_uid := 0xab;
       t_crc := 0x3b9dfc5a |} ].




(** ** A source file given block by block *)

(** A block of a source file: the code, then a line that starts with the
    tag marker; [s_fields] is what follows the marker on that line. *)
Record Source_Block := {
  s_text : list Z;
  s_fields : list Z
}.

(** The tag line of a block: what [sscanf] is given. *)
Definition s_tag (b : Source_Block) : list Z := tag_marker ++ s_fields b ++ [10].

(** The file: the blocks one after the other, then the code [rest] that
    no tag line follows. *)
Definition source_file (bs : list Source_Block) (rest : list Z) : list Z :=
  concat ((fun b => s_text b ++ s_tag b) <$> bs) ++ rest.

(** The code of a block is text in whole lines, without the tag marker and
    without two carriage returns in a row; the tag line is a line of at
    most 1022 bytes. *)
Definition source_ok (b : Source_Block) : Prop :=
  is_cstring (s_text b) /\ ends_line (s_text b) = true
  /\ no_cr_pair (s_text b) = true /\ strstr (s_text b) tag_marker = None
  /\ Forall line_byte (s_fields b) /\ (length (s_fields b) <= 1015)%nat.

(** The CRC of a text in the specification's words: the CRC-32 of its
    normalized bytes, blank lines left out. *)
Definition normalized_crc (t : list Z) : Z :=
  crc32_bytes crc32_init (drop_blank true (spec_normalize true t)).

(** The block has a well-formed tag of a kind that passes [kind_ok], and
    the CRC of its code is not the one of the tag. *)
Definition s_differs (sscanf_tag : list Z -> Scanned) (kind_ok : Z -> bool)
    (b : Source_Block) : bool :=
  negb (normalized_crc (s_text b) =? sc_crc (sscanf_tag (s_tag b)))
  && kind_ok (sc_type (sscanf_tag (s_tag b))).

(** Such a block of code or of a callback whose uid no node of the tree
    has. *)
Definition s_unknown (sscanf_tag : list Z -> Scanned) (tr : list Fl_Type)
    (b : Source_Block) : bool :=
  s_differs sscanf_tag is_mergeable_kind b
  && negb (bool_decide (is_Some (find_by_uid (sc_uid (sscanf_tag (s_tag b))) tr))).

(** The block as [merge_back] reads it: the lines [fgets] delivers, and
    what [sscanf] makes of the tag line. *)
Definition as_read (sscanf_tag : list Z -> Scanned) (b : Source_Block) : Block :=
  {| b_lines := file_lines (s_text b); b_tag := sscanf_tag (s_tag b) |}.

Definition s_malformed (sscanf_tag : list Z -> Scanned) (b : Source_Block) : bool :=
  malformed (sscanf_tag (s_tag b)).

(** How many blocks satisfy a test. *)
Fixpoint s_count (P : Source_Block -> bool) (bs : list Source_Block) : Z :=
  match bs with
  | [] => 0
  | b :: bs' => (if P b then 1 else 0) + s_count P bs'
  end.

(** The emitted file of the examples with another callback, block by
    block; the same with a generic block edited as well; a file whose
    second tag line is cut short. *)
Definition source_edited : list Source_Block :=
  [ {| s_text := bytes "void cb() {" ++ [10]; s_fields := bytes "0~00ab~613f6e5a~~" |};
    {| s_text := bytes "  new();" ++ [10]; s_fields := bytes "3~00ab~7d6b0146~~" |};
    {| s_text := bytes "}" ++ [10]; s_fields := bytes "0~00ab~3b9dfc5a~~" |} ].

Definition source_two_edits : list Source_Block :=
  [ {| s_text := bytes "void cb2() {" ++ [10]; s_fields := bytes "0~00ab~613f6e5a~~" |};
    {| s_text := bytes "  new();" ++ [10]; s_fields := bytes "3~00ab~7d6b0146~~" |};
    {| s_text := bytes "}" ++ [10]; s_fields := bytes "0~00ab~3b9dfc5a~~" |} ].

Definition source_cut_tag : list Source_Block :=
  [ {| s_text := bytes "void cb() {" ++ [10]; s_fields := bytes "0~00ab~613f6e5a~~" |};
    {| s_text := bytes "  new();" ++ [10]; s_fields := bytes "3~00ab" |};
    {| s_text := bytes "}" ++ [10]; s_fields := bytes "0~00ab~3b9dfc5a~~" |} ].


(** * Properties *)

(** ** The writer monad *)

Lemma bind_Some {A B} (m : Writer A) (f : A -> Writer B) w x w' :
  m w = Some (x, w') -> (m ≫= f) w = f x w'.
Proof. intros E. unfold mbind, Writer_bind. by rewrite E. Qed.

Lemma bind_None {A B} (m : Writer A) (f : A -> Writer B) w :
  m w = None -> (m ≫= f) w = None.
Proof. intros E. unfold mbind, Writer_bind. by rewrite E. Qed.

(** ** [tag] *)

Lemma tag_state g type uid w :
  exists w', tag g type uid w = Some (tt, w')
    /\ block_crc_ w' = crc32_init
    /\ block_line_start_ w' = block_line_start_ w.
Proof.
  unfold tag. destruct (write_mergeback_data g); eexists; split; try reflexivity; auto.
Qed.

(** C3: [tag] resets [block_crc_] to the CRC-32 initial value but leaves
    [block_line_start_] as it was; after [x] has been written without a
    newline the flag is false, and it is still false after [tag(1, 0xab)]. *)
Theorem tag_leaves_line_start :
  (forall g type uid w, exists w', tag g type uid w = Some (tt, w')
      /\ block_crc_ w' = crc32_init
      /\ block_line_start_ w' = block_line_start_ w)
  /\ block_line_start_ writer_mid_line = false
  /\ block_line_start_ (after (tag project_tagging 1 0xab) writer_mid_line) = false
  /\ block_crc_ (after (tag project_tagging 1 0xab) writer_mid_line) = crc32_init.
Proof.
  split; [apply tag_state|]. by vm_compute.
Qed.

(** ** [crc_add] *)

(** C4: the streams [a\r\rb] and [ab] differ in carriage returns only (their
    normalized streams are equal), yet [crc_add] gives them different CRCs
    from the state of a new block: of two adjacent carriage returns the
    second one is added to the CRC. *)
Theorem crc_add_counts_second_cr :
  spec_normalize true stream_double_cr = spec_normalize true (bytes "ab")
  /\ block_crc_ (crc_add (Some stream_double_cr) (-1) Fd_Code_Writer_new)
     = crc32_bytes crc32_init (bytes "a" ++ [13] ++ bytes "b")
  /\ block_crc_ (crc_add (Some (bytes "ab")) (-1) Fd_Code_Writer_new)
     = crc32_bytes crc32_init (bytes "ab")
  /\ block_crc_ (crc_add (Some stream_double_cr) (-1) Fd_Code_Writer_new)
     <> block_crc_ (crc_add (Some (bytes "ab")) (-1) Fd_Code_Writer_new).
Proof. by vm_compute. Qed.

(** ** [unindent] *)

(** C7: on [x\n\n  y] the code drops the newline of the blank line and only
    one of the two blanks before [y], where the rule gives [x\n\ny]; of two
    adjacent carriage returns it keeps the second; and a text that ends in
    a blank line makes it copy the terminating NUL and read on behind the
    buffer. *)
Theorem unindent_blank_line_and_cr :
  unindent text_blank_line = Some (bytes "x" ++ [10] ++ bytes " y")
  /\ spec_unindent 2 text_blank_line = bytes "x" ++ [10; 10] ++ bytes "y"
  /\ unindent text_double_cr = Some (bytes "a" ++ [13] ++ bytes "b")
  /\ spec_unindent 2 text_double_cr = bytes "ab"
  /\ unindent text_trailing_blank = None.
Proof. by vm_compute. Qed.

(** ** [merge_back] without tags or without file *)

(** C9: when the project does not write merge-back data, [merge_back]
    returns 0 and leaves tree and writer alone, whatever the file system
    holds and whatever the task; the same when the file cannot be opened. *)
Theorem merge_back_disabled_or_unreadable g sscanf_tag fl_fopen fl_choice s task tr w :
  write_mergeback_data g = false \/ fl_fopen s = None ->
  merge_back g sscanf_tag fl_fopen fl_choice s task tr w
  = Some {| ret := 0; m_tree := tr; m_writer := w; m_changed := false; m_edits := [] |}.
Proof.
  intros [E | E]; unfold merge_back; rewrite E; simpl; [done|].
  by destruct (write_mergeback_data g).
Qed.

Lemma merge_back_disabled_or_unreadable_witness :
  merge_back project_plain sscanf_tag_libc (fun _ => Some (bytes "//~fl~x")) (fun _ _ _ _ => 1)
    (bytes "a.cxx") FD_MERGEBACK_GO [] Fd_Code_Writer_new
  = Some {| ret := 0; m_tree := []; m_writer := Fd_Code_Writer_new; m_changed := false;
            m_edits := [] |}.
Proof.
  apply merge_back_disabled_or_unreadable. left. reflexivity.
Defined.

(** ** C strings *)

Lemma cstr_nonul l : nonul l -> cstr l = l.
Proof.
  induction 1 as [|c l Hc _ IH]; simpl; [done|].
  destruct (Z.eqb_spec c 0); [done|]. by rewrite IH.
Qed.

Lemma nonul_cstr l : nonul (cstr l).
Proof.
  induction l as [|c l IH]; simpl; [constructor|].
  destruct (Z.eqb_spec c 0); constructor; auto.
Qed.

Lemma nonul_app a b : nonul a -> nonul b -> nonul (a ++ b).
Proof. apply Forall_app_2. Qed.

Lemma nonul_take k l : nonul l -> nonul (take k l).
Proof. apply Forall_take. Qed.

Lemma nonul_check l : forallb (fun c => negb (c =? 0)) l = true -> nonul l.
Proof.
  rewrite forallb_forall. intros H. apply Forall_forall. intros c Hc.
  apply list_elem_of_In, H in Hc. apply negb_true_iff in Hc. lia.
Qed.

Lemma cstr_idemp l : cstr (cstr l) = cstr l.
Proof. apply cstr_nonul, nonul_cstr. Qed.

(** ** The CRC bookkeeping leaves the files alone *)

Lemma keeps_refl w : keeps w w.
Proof. by repeat split. Qed.

Lemma keeps_trans w1 w2 w3 : keeps w1 w2 -> keeps w2 w3 -> keeps w1 w3.
Proof. unfold keeps. intuition congruence. Qed.

Lemma crc_add_frame data n w :
  code_file (crc_add data n w) = code_file w
  /\ block_buffer_ (crc_add data n w) = block_buffer_ w
  /\ block_buffer_size_ (crc_add data n w) = block_buffer_size_ w
  /\ keeps w (crc_add data n w).
Proof.
  unfold crc_add, keeps. destruct data as [s|]; [|done].
  destruct (crc_add_loop _ _ _ _ _). done.
Qed.

Lemma crc_putc_run g a c w :
  exists w', crc_putc g a c w = Some (tt, w')
    /\ code_file w' = code_file w ++ [to_uchar c]
    /\ block_buffer_ w' = block_buffer_ w
    /\ block_buffer_size_ w' = block_buffer_size_ w
    /\ keeps w w'.
Proof.
  unfold crc_putc. eexists; split; [reflexivity|].
  destruct (write_mergeback_data g); simpl; [|by repeat split].
  destruct (crc_add_frame (Some [to_uchar c; a]) 1 w) as (-> & -> & -> & K). done.
Qed.

Lemma crc_puts_run g text w :
  exists w', crc_puts g text w = Some (tt, w')
    /\ code_file w' = code_file w ++ cstr text
    /\ block_buffer_ w' = block_buffer_ w
    /\ block_buffer_size_ w' = block_buffer_size_ w
    /\ keeps w w'.
Proof.
  unfold crc_puts. eexists; split; [reflexivity|].
  destruct (write_mergeback_data g); simpl; [|by repeat split].
  destruct (crc_add_frame (Some text) (-1) w) as (-> & -> & -> & K). done.
Qed.

Lemma crc_vprintf_result w buf size out n :
  129 <= size ->
  let w' := fputs_code out (crc_add (Some buf) n (set_block_buffer (Some buf) size w)) in
  code_file w' = code_file w ++ out
  /\ block_buffer_size_ w' = size
  /\ buffer_inv w'
  /\ is_Some (block_buffer_ w')
  /\ keeps w w'.
Proof.
  intros Hsize w'. subst w'.
  destruct (crc_add_frame (Some buf) n (set_block_buffer (Some buf) size w))
    as (Ec & Eb & Es & K).
  unfold buffer_inv, keeps in *. simpl in *. rewrite Ec, Eb, Es.
  repeat split; try tauto; try (by eexists).
  right. split; [by eexists | done].
Qed.

Lemma crc_vprintf_run g va txt w :
  buffer_inv w -> nonul txt ->
  write_mergeback_data g = false \/ is_Some (block_buffer_ w) \/ txt <> [] ->
  no_second_read g va w txt ->
  exists w', crc_vprintf g va txt w = Some (tt, w')
    /\ code_file w' = code_file w ++ crc_text g (block_buffer_size_ w) txt
    /\ block_buffer_size_ w' = crc_size g (block_buffer_size_ w) txt
    /\ buffer_inv w'
    /\ (write_mergeback_data g = true -> is_Some (block_buffer_ w'))
    /\ keeps w w'.
Proof.
  intros Hinv Hnn Hdef Hva. unfold crc_vprintf, crc_text, crc_size.
  destruct (write_mergeback_data g) eqn:Eg; simpl.
  2:{ eexists; split; [reflexivity|]. repeat split; try done. }
  set (n := Z.of_nat (length txt)).
  assert (Hgrow : (block_buffer_size_ w <? n) && va = false).
  { destruct va; [|by rewrite andb_false_r]. rewrite andb_true_r.
    specialize (Hva Eg eq_refl). fold n in Hva. apply Z.ltb_ge. lia. }
  destruct Hinv as [[Hb Hs] | [[b Hb] Hs]]; rewrite Hb.
  - (* no buffer yet *)
    rewrite Hs in Hgrow |- *. simpl. rewrite Hgrow. destruct (Z.ltb_spec 0 n) as [Hn|Hn].
    + rewrite take_ge by lia. rewrite cstr_nonul by done.
      destruct (Z.eqb_spec n 0); [lia|].
      eexists; split; [reflexivity|].
      destruct (crc_vprintf_result w txt (n + 128) txt n) as (? & ? & ? & ? & ?); [lia|].
      done.
    + assert (txt = []) as -> by (destruct txt; [done | simpl in n; lia]).
      destruct Hdef as [? | [[? ?] | ?]]; congruence.
  - (* a buffer of at least 129 bytes *)
    destruct (Z.ltb_spec 0 (block_buffer_size_ w)) as [_|?]; [|lia]. rewrite Hgrow.
    destruct (Z.ltb_spec (block_buffer_size_ w) n) as [Hn|Hn].
    + rewrite take_ge by lia. rewrite cstr_nonul by done.
      destruct (Z.eqb_spec n (block_buffer_size_ w)); [lia|].
      eexists; split; [reflexivity|].
      destruct (crc_vprintf_result w txt (n + 128) txt n) as (? & ? & ? & ? & ?); [lia|].
      done.
    + rewrite cstr_nonul by (by apply nonul_take).
      eexists; split; [reflexivity|].
      match goal with |- context [fputs_code ?o (crc_add (Some ?b) _ _)] =>
        destruct (crc_vprintf_result w b (block_buffer_size_ w) o n)
          as (E1 & ? & ? & ? & ?); [lia|] end.
      rewrite E1. split; [|done]. f_equal.
      destruct (Z.eqb_spec n (block_buffer_size_ w)) as [En|En].
      * subst n. simpl. f_equal. lia.
      * subst n. simpl. apply take_ge. lia.
Qed.

Lemma write_c_run g va txt w :
  varused_test w = 0 -> buffer_inv w -> nonul txt ->
  write_mergeback_data g = false \/ is_Some (block_buffer_ w) \/ txt <> [] ->
  no_second_read g va w txt ->
  exists w', write_c g va txt w = Some (tt, w')
    /\ code_file w' = code_file w ++ crc_text g (block_buffer_size_ w) txt
    /\ block_buffer_size_ w' = crc_size g (block_buffer_size_ w) txt
    /\ buffer_inv w'
    /\ (write_mergeback_data g = true -> is_Some (block_buffer_ w'))
    /\ keeps w w'.
Proof.
  intros Hv Hinv Hnn Hdef Hva. unfold write_c.
  erewrite bind_Some by reflexivity. rewrite Hv. simpl.
  by apply crc_vprintf_run.
Qed.

Lemma write_c_suppressed g va txt w :
  varused_test w <> 0 -> write_c g va txt w = Some (tt, set_varused 1 w).
Proof.
  intros Hv. unfold write_c. erewrite bind_Some by reflexivity.
  destruct (Z.eqb_spec (varused_test w) 0); [done|]. reflexivity.
Qed.

Lemma write_h_run txt w :
  write_h txt w
  = Some (tt, if varused_test w =? 0 then fputs_header txt w else w).
Proof.
  unfold write_h. erewrite bind_Some by reflexivity.
  by destruct (varused_test w =? 0).
Qed.


(** ** [write_cc] and [write_hc] *)

Lemma write_h_on txt w :
  varused_test w = 0 -> write_h txt w = Some (tt, fputs_header txt w).
Proof. intros Hv. by rewrite write_h_run, Hv. Qed.

Lemma write_h_off txt w :
  varused_test w <> 0 -> write_h txt w = Some (tt, w).
Proof.
  intros Hv. rewrite write_h_run. by destruct (Z.eqb_spec (varused_test w) 0).
Qed.

Lemma read_at_defined c i w :
  0 <= i < Z.of_nat (length c) ->
  read_at c i w = Some (char_val (nth (Z.to_nat i) c 0), w).
Proof.
  intros Hi. unfold read_at. destruct (Z.ltb_spec i 0); [lia|].
  rewrite nth_lookup.
  destruct (lookup_lt_is_Some_2 c (Z.to_nat i)) as [b ->]; [lia|]. reflexivity.
Qed.

Lemma read_at_undefined c i w :
  ~ (0 <= i < Z.of_nat (length c)) -> read_at c i w = None.
Proof.
  intros Hi. unfold read_at. destruct (Z.ltb_spec i 0); [done|].
  rewrite lookup_ge_None_2; [done | lia].
Qed.

Lemma crc_text_fits g w txt :
  fits g w (Z.of_nat (length txt)) ->
  crc_text g (block_buffer_size_ w) txt = txt
  /\ crc_size g (block_buffer_size_ w) txt = block_buffer_size_ w.
Proof.
  intros Hf. unfold crc_text, crc_size, fits in *.
  destruct (write_mergeback_data g); [|done]. specialize (Hf eq_refl). cbn [andb].
  destruct (Z.eqb_spec (Z.of_nat (length txt)) (block_buffer_size_ w)); [lia|].
  destruct (Z.ltb_spec (block_buffer_size_ w) (Z.of_nat (length txt))); [lia|].
  by rewrite andb_false_r.
Qed.

Lemma fits_no_second_read g va w txt :
  fits g w (Z.of_nat (length txt)) -> no_second_read g va w txt.
Proof. intros Hf Hg _. specialize (Hf Hg). lia. Qed.

Lemma fits_defined g w (txt : list Z) :
  buffer_inv w -> fits g w (Z.of_nat (length txt)) ->
  write_mergeback_data g = false \/ is_Some (block_buffer_ w) \/ txt <> [].
Proof.
  intros Hinv Hf. destruct (write_mergeback_data g) eqn:Eg; [|by left].
  right; left. specialize (Hf Eg). destruct Hinv as [[_ Hs]|[Hb _]]; [lia | done].
Qed.

(** A text that fits the buffer is printed whole, and the buffer stays as
    large as it is. *)
Lemma write_c_fits g va txt w :
  varused_test w = 0 -> buffer_inv w -> nonul txt ->
  fits g w (Z.of_nat (length txt)) ->
  exists w', write_c g va txt w = Some (tt, w')
    /\ code_file w' = code_file w ++ txt
    /\ block_buffer_size_ w' = block_buffer_size_ w
    /\ buffer_inv w' /\ varused_test w' = 0
    /\ keeps w w'.
Proof.
  intros Hv Hinv Hnn Hf.
  destruct (write_c_run g va txt w Hv Hinv Hnn (fits_defined g w txt Hinv Hf)
              (fits_no_second_read g va w txt Hf))
    as (w' & E & C & Sz & I & _ & K).
  destruct (crc_text_fits g w txt Hf) as [Et Es]. rewrite Et in C. rewrite Es in Sz.
  assert (Hv' : varused_test w' = 0) by (destruct K as (_ & _ & _ & -> & _); done).
  by exists w'.
Qed.

Lemma buffered_fits g w n : buffered g w -> n <= 128 -> fits g w n.
Proof.
  intros [[[Hn _]|[_ Hs]] Hb] Hle Hg; [|lia].
  destruct (Hb Hg) as [? ?]. congruence.
Qed.

Lemma buffered_frame g w w' :
  buffered g w -> block_buffer_ w' = block_buffer_ w ->
  block_buffer_size_ w' = block_buffer_size_ w -> buffered g w'.
Proof. unfold buffered, buffer_inv. intros H -> ->. exact H. Qed.

(** With the buffer allocated, a text of at most 128 bytes is printed
    whole, with or without conversions. *)
Lemma crc_vprintf_buffered g va txt w :
  buffered g w -> nonul txt -> (length txt <= 128)%nat ->
  exists w', crc_vprintf g va txt w = Some (tt, w')
    /\ code_file w' = code_file w ++ txt
    /\ buffered g w'
    /\ block_buffer_size_ w' = block_buffer_size_ w
    /\ keeps w w'.
Proof.
  intros Hb Hnn Hl.
  assert (Hf : fits g w (Z.of_nat (length txt))) by (apply buffered_fits; [done | lia]).
  destruct Hb as [Hinv Hb].
  destruct (crc_vprintf_run g va txt w Hinv Hnn (fits_defined g w txt Hinv Hf)
              (fits_no_second_read g va w txt Hf))
    as (w' & E & C & Sz & I & B & K).
  destruct (crc_text_fits g w txt Hf) as [Et Es]. rewrite Et in C. rewrite Es in Sz.
  by exists w'.
Qed.

(** C10: [write_cc] and [write_hc] read [c[n-1]] whatever [n] is, so they
    are defined only for [1 <= n <= length c]; and then they write the
    semicolon exactly when that byte is neither a closing brace nor a
    semicolon: the bytes that reach the files are given first, the calls
    of [write_c] and [write_h] they come from last.  The bytes of the code
    file are given for texts that fit the block buffer.  While
    [varused_test] is set, [write_c] and [write_h] write nothing at all,
    the semicolon included. *)
Theorem write_cc_write_hc_semicolon :
  (forall g indent n c com w,
      ~ (1 <= n <= Z.of_nat (length c)) ->
      write_cc g indent n c com w = None /\ write_hc indent n c com w = None)
  /\ (forall g indent n c com w,
      1 <= n <= Z.of_nat (length c) ->
      varused_test w = 0 -> buffer_inv w ->
      let last := char_val (nth (Z.to_nat (n - 1)) c 0) in
      let semi := if negb (last =? 125) && negb (last =? 59) then [59] else [] in
      let text := cstr indent ++ take (Z.to_nat n) (cstr c) in
      let comment := if peek com =? 0 then [] else 32 :: cstr com in
      (exists w', write_hc indent n c com w = Some (tt, w')
         /\ header_file w' = header_file w ++ text ++ semi ++ comment ++ [10])
      /\ (fits g w (Z.of_nat (length text)) -> fits g w (Z.of_nat (length comment)) ->
          exists w', write_cc g indent n c com w = Some (tt, w')
            /\ code_file w' = code_file w ++ text ++ semi ++ comment ++ [10]))
  /\ (forall g indent n c com w,
      1 <= n <= Z.of_nat (length c) ->
      varused_test w <> 0 ->
      write_cc g indent n c com w = Some (tt, set_varused 1 w)
      /\ write_hc indent n c com w = Some (tt, w))
  /\ (forall g indent n c com w,
      1 <= n <= Z.of_nat (length c) ->
      let last := char_val (nth (Z.to_nat (n - 1)) c 0) in
      let wants_semicolon := negb (last =? 125) && negb (last =? 59) in
      write_cc g indent n c com w
      = (write_c g true (cstr indent ++ take (Z.to_nat n) (cstr c));;
         (if wants_semicolon then write_c g false [59] else mret tt);;
         (if negb (peek com =? 0) then write_c g true (32 :: cstr com) else mret tt);;
         write_c g false [10]) w
      /\ write_hc indent n c com w
        = (write_h (cstr indent ++ take (Z.to_nat n) (cstr c));;
           (if wants_semicolon then write_h [59] else mret tt);;
           (if negb (peek com =? 0) then write_h (32 :: cstr com) else mret tt);;
           write_h [10]) w).
Proof.
  split; [|split; [|split]].
  4:{ intros g indent n c com w Hn last wants_semicolon.
      assert (Hfmt : fmt_prec_s n c = take (Z.to_nat n) (cstr c)).
      { unfold fmt_prec_s. destruct (Z.ltb_spec n 0); [lia | done]. }
      unfold write_cc, write_hc. rewrite Hfmt. unfold mbind, Writer_bind. split.
      - destruct (write_c g true _ w) as [[[] w1]|]; [|done].
        by rewrite read_at_defined by lia.
      - destruct (write_h _ w) as [[[] w1]|]; [|done].
        by rewrite read_at_defined by lia. }
  3:{ intros g indent n c com w Hn Hv. split.
      - unfold write_cc. erewrite bind_Some by (by apply write_c_suppressed).
        erewrite bind_Some by (apply read_at_defined; lia).
        destruct (negb _ && negb _), (negb (peek com =? 0));
          repeat (first [ erewrite bind_Some by (by apply write_c_suppressed)
                       | erewrite bind_Some by reflexivity ]);
          by rewrite write_c_suppressed.
      - unfold write_hc. erewrite bind_Some by (by apply write_h_off).
        erewrite bind_Some by (apply read_at_defined; lia).
        destruct (negb _ && negb _), (negb (peek com =? 0));
          repeat (first [ erewrite bind_Some by (by apply write_h_off)
                       | erewrite bind_Some by reflexivity ]);
          by rewrite write_h_off. }
  - intros g indent n c com w Hn. split.
    + unfold write_cc.
      destruct (write_c g true (cstr indent ++ fmt_prec_s n c) w) as [[[] w1]|] eqn:E1.
      * erewrite bind_Some by exact E1.
        apply bind_None, read_at_undefined. lia.
      * by apply bind_None.
    + unfold write_hc. erewrite bind_Some by apply write_h_run.
      apply bind_None, read_at_undefined. lia.
  - intros g indent n c com w Hn Hv Hinv last semi text comment.
    assert (Hfmt : fmt_prec_s n c = take (Z.to_nat n) (cstr c)).
    { unfold fmt_prec_s. destruct (Z.ltb_spec n 0); [lia | done]. }
    split.
    + unfold write_hc. rewrite Hfmt. fold text.
      erewrite bind_Some by (by apply write_h_on).
      erewrite bind_Some by (apply read_at_defined; lia). fold last.
      subst semi comment.
      destruct (negb (last =? 125) && negb (last =? 59));
        destruct (peek com =? 0); simpl;
        repeat (first [ erewrite bind_Some by (by apply write_h_on)
                     | erewrite bind_Some by reflexivity ]);
        rewrite write_h_on by done;
        (eexists; split; [reflexivity|]); simpl;
        rewrite <- ?app_assoc; reflexivity.
    + intros Hft Hfc. unfold write_cc. rewrite Hfmt. fold text.
      assert (Hnt : nonul text).
      { apply nonul_app; [apply nonul_cstr | apply nonul_take, nonul_cstr]. }
      destruct (write_c_fits g true text w Hv Hinv Hnt Hft)
        as (w1 & E1 & C1 & S1 & I1 & Hv1 & K1).
      erewrite bind_Some by exact E1.
      erewrite bind_Some by (apply read_at_defined; lia). fold last.
      assert (Hone : forall w0, block_buffer_size_ w0 = block_buffer_size_ w ->
                buffer_inv w0 -> fits g w0 (Z.of_nat (length [59]))).
      { intros w0 Es [[_ Hz]|[_ Hs]] Hg; simpl; [|lia].
        specialize (Hft Hg). lia. }
      (* the semicolon *)
      assert (exists w2, (if negb (last =? 125) && negb (last =? 59)
                          then write_c g false [59] else mret tt) w1 = Some (tt, w2)
                /\ code_file w2 = code_file w1 ++ semi
                /\ block_buffer_size_ w2 = block_buffer_size_ w
                /\ buffer_inv w2 /\ varused_test w2 = 0)
        as (w2 & E2 & C2 & S2 & I2 & Hv2).
      { subst semi. destruct (negb (last =? 125) && negb (last =? 59)).
        - destruct (write_c_fits g false [59] w1 Hv1 I1) as (w2 & E2 & C2 & S2 & I2 & Hv2 & _);
            [by repeat constructor | by apply Hone |].
          exists w2. repeat split; try done. congruence.
        - exists w1. rewrite app_nil_r. by repeat split. }
      erewrite bind_Some by exact E2.
      (* the comment *)
      assert (exists w3, (if negb (peek com =? 0)
                          then write_c g true (32 :: cstr com) else mret tt) w2 = Some (tt, w3)
                /\ code_file w3 = code_file w2 ++ comment
                /\ block_buffer_size_ w3 = block_buffer_size_ w
                /\ buffer_inv w3 /\ varused_test w3 = 0)
        as (w3 & E3 & C3 & S3 & I3 & Hv3).
      { subst comment. destruct (peek com =? 0); simpl.
        - exists w2. rewrite app_nil_r. by repeat split.
        - destruct (write_c_fits g true (32 :: cstr com) w2 Hv2 I2)
            as (w3 & E3 & C3 & S3 & I3 & Hv3 & _).
          + constructor; [done | apply nonul_cstr].
          + intros Hg. rewrite S2. by apply Hfc.
          + exists w3. repeat split; try done. congruence. }
      erewrite bind_Some by exact E3.
      (* the newline *)
      destruct (write_c_fits g false [10] w3 Hv3 I3) as (w4 & E4 & C4 & _);
        [by repeat constructor | by apply (Hone w3) |].
      exists w4. split; [exact E4|].
      rewrite C4, C3, C2, C1. by rewrite <- !app_assoc.
Qed.

(** ** Once-only lines *)

Lemma strcmp_refl a : strcmp a a = 0.
Proof.
  induction a as [|x a IH]; simpl; [done|].
  destruct (Z.eqb_spec x 0); [lia|]. by rewrite Z.eqb_refl.
Qed.

Lemma strcmp_eq a : forall b, strcmp a b = 0 -> cstr a = cstr b.
Proof.
  induction a as [|x a IH]; intros [|y b]; simpl; intros E.
  - done.
  - destruct (Z.eqb_spec y 0); [done | lia].
  - destruct (Z.eqb_spec x 0); [done | lia].
  - destruct (Z.eqb_spec x 0) as [->|Hx].
    + destruct (Z.eqb_spec y 0); [done | lia].
    + destruct (Z.eqb_spec x y) as [->|Hxy]; [|lia].
      destruct (Z.eqb_spec y 0); [done|]. f_equal. by apply IH.
Qed.

Lemma in_tree_texts buf t : in_tree buf t -> Exists (fun x => strcmp buf x = 0) (texts t).
Proof.
  unfold in_tree. induction t as [|text l IHl r IHr]; simpl; [done|].
  destruct (Z.eqb_spec (strcmp buf text) 0) as [E|_].
  - intros _. apply Exists_app. right. by constructor.
  - destruct (strcmp buf text <? 0).
    + destruct (text_walk buf l); [done|]. intros _.
      apply Exists_app. left. by apply IHl.
    + destruct (text_walk buf r); [done|]. intros _.
      apply Exists_app. right. constructor 2. by apply IHr.
Qed.

Lemma not_in_tree buf t :
  Forall (fun x => strcmp buf x <> 0) (texts t) -> exists t', text_walk buf t = Some t'.
Proof.
  intros HF. destruct (text_walk buf t) eqn:E; [by eexists|].
  apply in_tree_texts in E. apply Exists_exists in E as (x & Hx & E0).
  rewrite Forall_forall in HF. by destruct (HF x Hx).
Qed.

Lemma text_walk_then_found buf t t' : text_walk buf t = Some t' -> in_tree buf t'.
Proof.
  unfold in_tree. revert t'. induction t as [|text l IHl r IHr]; simpl; intros t' E.
  - injection E as <-. simpl. by rewrite strcmp_refl.
  - destruct (strcmp buf text =? 0) eqn:E0; [done|].
    destruct (strcmp buf text <? 0) eqn:E1.
    + destruct (text_walk buf l) as [l'|]; [|done]. injection E as <-.
      simpl. rewrite E0, E1, (IHl l') by done. done.
    + destruct (text_walk buf r) as [r'|]; [|done]. injection E as <-.
      simpl. rewrite E0, E1, (IHr r') by done. done.
Qed.

Lemma text_walk_keeps b buf t t' :
  in_tree b t -> text_walk buf t = Some t' -> in_tree b t'.
Proof.
  unfold in_tree. revert t'. induction t as [|text l IHl r IHr]; simpl; intros t' Hb E.
  - done.
  - destruct (strcmp buf text =? 0); [done|].
    destruct (strcmp buf text <? 0).
    + destruct (text_walk buf l) as [l'|]; [|done]. injection E as <-. simpl.
      destruct (strcmp b text =? 0); [done|]. destruct (strcmp b text <? 0).
      * destruct (text_walk b l) eqn:El; [done|]. by rewrite (IHl l').
      * by destruct (text_walk b r).
    + destruct (text_walk buf r) as [r'|]; [|done]. injection E as <-. simpl.
      destruct (strcmp b text =? 0); [done|]. destruct (strcmp b text <? 0).
      * by destruct (text_walk b l).
      * destruct (text_walk b r) eqn:Er; [done|]. by rewrite (IHr r').
Qed.

Lemma write_h_once_new line w t' :
  text_walk (once_buf line) (text_in_header w) = Some t' ->
  write_h_once line w
  = Some (1, set_text_in_header t' (fputs_header (once_buf line ++ [10]) w)).
Proof.
  intros E. unfold write_h_once. erewrite bind_Some by reflexivity. by rewrite E.
Qed.

Lemma write_h_once_old line w :
  in_tree (once_buf line) (text_in_header w) -> write_h_once line w = Some (0, w).
Proof.
  intros E. unfold write_h_once. erewrite bind_Some by reflexivity. by rewrite E.
Qed.

Lemma write_c_once_in_header g line w :
  in_tree (once_buf line) (text_in_header w) -> write_c_once g line w = Some (0, w).
Proof.
  intros E. unfold write_c_once. erewrite bind_Some by reflexivity. by rewrite E.
Qed.

Lemma write_c_once_old g line w :
  in_tree (once_buf line) (text_in_code w) -> write_c_once g line w = Some (0, w).
Proof.
  intros E. unfold write_c_once. erewrite bind_Some by reflexivity.
  destruct (text_walk _ (text_in_header w)); [|done].
  erewrite bind_Some by reflexivity. by rewrite E.
Qed.

Lemma once_buf_line line : once_line line -> once_buf line = line.
Proof.
  intros [Hn Hl]. unfold once_buf. rewrite take_ge by lia. by apply cstr_nonul.
Qed.

Lemma write_c_once_new g line w th t' :
  buffer_inv w ->
  fits g w (Z.of_nat (length (once_buf line ++ [10]))) ->
  text_walk (once_buf line) (text_in_header w) = Some th ->
  text_walk (once_buf line) (text_in_code w) = Some t' ->
  exists w1, write_c_once g line w = Some (1, w1)
    /\ code_file w1 = code_file w ++ once_buf line ++ [10]
    /\ header_file w1 = header_file w
    /\ text_in_header w1 = text_in_header w
    /\ text_in_code w1 = t'
    /\ buffer_inv w1
    /\ block_buffer_size_ w1 = block_buffer_size_ w.
Proof.
  intros Hinv Hfit Eh Ec. unfold write_c_once.
  erewrite bind_Some by reflexivity. rewrite Eh.
  erewrite bind_Some by reflexivity. rewrite Ec.
  destruct (crc_vprintf_run g true (once_buf line ++ [10]) w Hinv)
    as (w1 & E1 & C1 & S1 & I1 & B1 & K1).
  { apply nonul_app; [apply nonul_cstr | by repeat constructor]. }
  { right; right. by destruct (once_buf line). }
  { by apply fits_no_second_read. }
  destruct (crc_text_fits g w _ Hfit) as [Et Es]. rewrite Et in C1. rewrite Es in S1.
  unfold crc_printf. erewrite bind_Some by exact E1.
  erewrite bind_Some by reflexivity.
  eexists; split; [reflexivity|]. destruct K1 as (? & ? & _).
  repeat split; try done.
Qed.

Lemma once_call_keeps g c w :
  buffer_inv w -> once_fit g w c ->
  exists r w', once_call g c w = Some (r, w') /\ buffer_inv w'
    /\ block_buffer_size_ w' = block_buffer_size_ w
    /\ (forall b, in_tree b (text_in_header w) -> in_tree b (text_in_header w'))
    /\ (forall b, in_tree b (text_in_code w) -> in_tree b (text_in_code w')).
Proof.
  intros Hinv Hfit. destruct c as [line|line]; simpl.
  - destruct (text_walk (once_buf line) (text_in_header w)) as [t'|] eqn:E.
    + rewrite (write_h_once_new _ _ _ E). do 2 eexists; split; [reflexivity|].
      repeat split; try done. simpl. intros b Hb. by eapply text_walk_keeps.
    + rewrite write_h_once_old by done. by do 2 eexists.
  - destruct (text_walk (once_buf line) (text_in_header w)) as [th|] eqn:Eh.
    2:{ rewrite write_c_once_in_header by done. by do 2 eexists. }
    destruct (text_walk (once_buf line) (text_in_code w)) as [t'|] eqn:Ec.
    2:{ rewrite write_c_once_old by done. by do 2 eexists. }
    destruct (write_c_once_new g line w th t' Hinv Hfit Eh Ec)
      as (w1 & -> & _ & _ & Hh & Hc & I1 & S1).
    do 2 eexists; split; [reflexivity|]. rewrite Hh, Hc.
    repeat split; try done. intros b Hb. by eapply text_walk_keeps.
Qed.

Lemma once_fit_size g w w' c :
  block_buffer_size_ w' = block_buffer_size_ w -> once_fit g w c -> once_fit g w' c.
Proof. intros E. destruct c; [done|]. unfold once_fit, fits. by rewrite E. Qed.

Lemma once_calls_keep g cs : forall w,
  buffer_inv w -> Forall (once_fit g w) cs ->
  exists w', once_calls g cs w = Some (tt, w') /\ buffer_inv w'
    /\ (forall b, in_tree b (text_in_header w) -> in_tree b (text_in_header w'))
    /\ (forall b, in_tree b (text_in_code w) -> in_tree b (text_in_code w')).
Proof.
  induction cs as [|c cs IH]; intros w Hinv Hfit; simpl.
  - by eexists.
  - apply Forall_cons in Hfit as [Hc Hcs].
    destruct (once_call_keeps g c w Hinv Hc) as (r & w1 & E1 & I1 & S1 & Hh1 & Hc1).
    erewrite bind_Some by exact E1.
    destruct (IH w1 I1) as (w2 & E2 & I2 & Hh2 & Hc2).
    { eapply Forall_impl; [exact Hcs|]. intros c'. by apply once_fit_size. }
    exists w2. repeat split; auto.
Qed.

(** C8: for a line of at most 1023 bytes, a once-writer called with a line
    its set does not hold yet (and, for the source, the header set
    neither) writes the line and returns 1; called again with the same
    line, at once or after any further calls of the once-writers, it
    writes nothing and returns 0.  After [write_h_once] has been called
    with a line, whatever it returned, [write_c_once] with that line never
    writes it.  The lines [write_c_once] prints fit the block buffer. *)
Theorem once_writers_idempotent g :
  (forall line w calls,
      once_line line -> buffer_inv w -> Forall (once_fit g w) calls ->
      Forall (fun t => strcmp line t <> 0) (texts (text_in_header w)) ->
      exists w1 w2, write_h_once line w = Some (1, w1)
        /\ header_file w1 = header_file w ++ line ++ [10]
        /\ code_file w1 = code_file w
        /\ once_calls g calls w1 = Some (tt, w2)
        /\ write_h_once line w2 = Some (0, w2))
  /\ (forall line w calls,
      once_line line -> buffer_inv w -> Forall (once_fit g w) (C_once line :: calls) ->
      Forall (fun t => strcmp line t <> 0) (texts (text_in_header w)) ->
      Forall (fun t => strcmp line t <> 0) (texts (text_in_code w)) ->
      exists w1 w2, write_c_once g line w = Some (1, w1)
        /\ code_file w1 = code_file w ++ line ++ [10]
        /\ header_file w1 = header_file w
        /\ once_calls g calls w1 = Some (tt, w2)
        /\ write_c_once g line w2 = Some (0, w2))
  /\ (forall line w calls,
      once_line line -> buffer_inv w -> Forall (once_fit g w) calls ->
      exists r w1 w2, write_h_once line w = Some (r, w1)
        /\ once_calls g calls w1 = Some (tt, w2)
        /\ write_c_once g line w2 = Some (0, w2)).
Proof.
  split; [|split].
  - intros line w calls Hline Hinv Hfit Hnew.
    pose proof (once_buf_line line Hline) as Eb.
    destruct (not_in_tree _ _ Hnew) as [t' E].
    pose proof (write_h_once_new line w t') as E1. rewrite Eb in E1.
    rewrite (E1 E).
    set (w1 := set_text_in_header t' (fputs_header (line ++ [10]) w)).
    destruct (once_calls_keep g calls w1) as (w2 & E2 & _ & Hh & _); [done | done |].
    exists w1, w2. repeat split; try done.
    apply write_h_once_old, Hh. rewrite Eb.
    by eapply text_walk_then_found.
  - intros line w calls Hline Hinv Hfit Hh Hc.
    pose proof (once_buf_line line Hline) as Eb.
    apply Forall_cons in Hfit as [Hfit1 Hfit].
    destruct (not_in_tree _ _ Hh) as [th Eh]. destruct (not_in_tree _ _ Hc) as [t' Ec].
    destruct (write_c_once_new g line w th t' Hinv Hfit1) as (w1 & E1 & C1 & H1 & _ & T1 & I1 & S1);
      [by rewrite Eb | by rewrite Eb |].
    destruct (once_calls_keep g calls w1 I1) as (w2 & E2 & _ & _ & Hc2).
    { eapply Forall_impl; [exact Hfit|]. intros c'. by apply once_fit_size. }
    rewrite Eb in C1.
    exists w1, w2. repeat split; try done.
    apply write_c_once_old, Hc2. rewrite T1, Eb. by eapply text_walk_then_found.
  - intros line w calls Hline Hinv Hfit.
    assert (exists r w1, write_h_once line w = Some (r, w1) /\ buffer_inv w1
                         /\ block_buffer_size_ w1 = block_buffer_size_ w
                         /\ in_tree (once_buf line) (text_in_header w1))
      as (r & w1 & E1 & I1 & S1 & Hin).
    { destruct (text_walk (once_buf line) (text_in_header w)) as [t'|] eqn:E.
      - rewrite (write_h_once_new _ _ _ E). do 2 eexists; split; [reflexivity|].
        split; [done|]. split; [done|]. simpl. by eapply text_walk_then_found.
      - rewrite write_h_once_old by done. by do 2 eexists. }
    destruct (once_calls_keep g calls w1 I1) as (w2 & E2 & _ & Hh & _).
    { eapply Forall_impl; [exact Hfit|]. intros c'. by apply once_fit_size. }
    exists r, w1, w2. repeat split; try done.
    by apply write_c_once_in_header, Hh.
Qed.

(** ** [write_cstring] *)

Lemma wrap_at_run g limit ll w :
  exists w', wrap_at g limit ll w = Some ((if limit <=? ll then 0 else ll), w')
    /\ code_file w' = code_file w ++ (if limit <=? ll then [92; 10] else [])
    /\ block_buffer_ w' = block_buffer_ w
    /\ block_buffer_size_ w' = block_buffer_size_ w
    /\ keeps w w'.
Proof.
  unfold wrap_at. destruct (limit <=? ll).
  - destruct (crc_puts_run g [92; 10] w) as (w' & E & C & B & S & K).
    exists w'. erewrite bind_Some by exact E. done.
  - exists w. rewrite app_nil_r. repeat split; done.
Qed.

Lemma quoted_run g a c ll w :
  exists w', quoted g a c ll w = Some ((if 77 <=? ll then 0 else ll) + 2, w')
    /\ code_file w'
       = code_file w ++ (if 77 <=? ll then [92; 10] else []) ++ [92; to_uchar c].
Proof.
  unfold quoted.
  destruct (wrap_at_run g 77 ll w) as (w1 & E1 & C1 & _).
  destruct (crc_putc_run g a 92 w1) as (w2 & E2 & C2 & _).
  destruct (crc_putc_run g a c w2) as (w3 & E3 & C3 & _).
  exists w3. erewrite bind_Some by exact E1. erewrite bind_Some by exact E2.
  erewrite bind_Some by exact E3. split; [reflexivity|].
  rewrite C3, C2, C1. by rewrite <- !app_assoc.
Qed.

(** C5: whenever the loop of [write_cstring] stands on a question mark that
    follows a question mark in the input, it writes a backslash and the
    question mark (after the line continuation when the line is full) and
    goes on with the next byte; and [a??b] comes out as ["a?\?b"] with the
    quotes. *)
Theorem write_cstring_question_marks :
  (forall g a fuel s e p ll w,
      Z.of_nat p < e -> (1 <= p)%nat ->
      nth p s 0 = 63 -> nth (p - 1) s 0 = 63 ->
      exists w',
        write_cstring_loop g a (S fuel) s e p ll w
        = write_cstring_loop g a fuel s e (S p) ((if 77 <=? ll then 0 else ll) + 2) w'
        /\ code_file w'
           = code_file w ++ (if 77 <=? ll then [92; 10] else []) ++ [92; 63])
  /\ (forall g a,
        code_file <$> exec (write_cstring_s g a (bytes "a??b")) Fd_Code_Writer_new
        = Some ([34] ++ bytes "a?\?b" ++ [34])).
Proof.
  split.
  - intros g a fuel s e p ll w Hp Hp1 Hc Hprev.
    destruct (quoted_run g a 63 ll w) as (w' & E & C).
    exists w'. split; [|exact C].
    cbn [write_cstring_loop]. destruct (Z.ltb_spec (Z.of_nat p) e); [|lia].
    assert (write_cstring_step g a s e p ll w = quoted g a 63 ll w) as Hstep.
    { unfold write_cstring_step, char_at. rewrite Hc, Hprev.
      destruct (Z.leb_spec 1 (Z.of_nat p)); [|lia]. reflexivity. }
    erewrite bind_Some by (rewrite Hstep; exact E). reflexivity.
  - intros [[] []] a; by vm_compute.
Qed.

Lemma write_cstring_question_marks_witness :
  exists w',
    write_cstring_loop project_tagging 0 1 (bytes "a??b") 4 2 3 Fd_Code_Writer_new
    = write_cstring_loop project_tagging 0 0 (bytes "a??b") 4 3 5 w'
    /\ code_file w' = [92; 63].
Proof.
  apply (proj1 write_cstring_question_marks project_tagging 0 0%nat (bytes "a??b") 4 2%nat 3
           Fd_Code_Writer_new); [lia | lia | reflexivity | reflexivity].
Defined.

Lemma octal_ok_all v : 0 <= v < 256 -> octal_ok v = true.
Proof.
  intros Hv.
  assert (H : forallb octal_ok (seqZ 0 256) = true) by (by vm_compute).
  rewrite forallb_forall in H. apply H.
  apply list_elem_of_In, elem_of_seqZ. lia.
Qed.

Lemma fmt_o_facts v :
  0 <= v < 256 ->
  octal_value (fmt_o v) = v
  /\ length (fmt_o v) = (if (v <? 8)%Z then 1 else if (v <? 64)%Z then 2 else 3)%nat
  /\ nonul (fmt_o v).
Proof.
  intros Hv. pose proof (octal_ok_all v Hv) as H. unfold octal_ok in H.
  apply andb_prop in H as [H H3]. apply andb_prop in H as [H1 H2].
  split; [lia|]. split.
  - destruct (v <? 8); [lia|]. destruct (v <? 64); lia.
  - rewrite forallb_forall in H3. apply Forall_forall. intros d Hd.
    apply list_elem_of_In, H3 in Hd. lia.
Qed.

Lemma land_255_range c : 0 <= Z.land c 255 < 256.
Proof.
  change 255 with (Z.ones 8). rewrite Z.land_ones by lia.
  apply Z.mod_pos_bound. lia.
Qed.

Lemma crc_printf_octal g v w :
  buffered g w -> 0 <= v < 256 ->
  exists w', crc_printf g true (92 :: fmt_o v) w = Some (tt, w')
    /\ code_file w' = code_file w ++ [92] ++ fmt_o v
    /\ buffered g w'.
Proof.
  intros Hinv Hv. destruct (fmt_o_facts v Hv) as (_ & Hl & Hn).
  destruct (crc_vprintf_buffered g true (92 :: fmt_o v) w Hinv) as (w' & E & C & I & _).
  { by constructor. }
  { simpl. rewrite Hl. destruct (v <? 8); [lia|]. destruct (v <? 64); lia. }
  exists w'. split; [exact E|]. split; [exact C | exact I].
Qed.

Lemma octal_part g v limit incr ll w :
  buffered g w -> 0 <= v < 256 ->
  exists w1,
    (wrap_at g limit ll ≫= fun l => crc_printf g true (92 :: fmt_o v);; mret (l + incr)) w
    = Some ((if limit <=? ll then 0 else ll) + incr, w1)
    /\ code_file w1
       = code_file w ++ (if limit <=? ll then [92; 10] else []) ++ [92] ++ fmt_o v
    /\ buffered g w1.
Proof.
  intros Hinv Hv.
  destruct (wrap_at_run g limit ll w) as (w0 & E0 & C0 & B0 & S0 & _).
  destruct (crc_printf_octal g v w0) as (w1 & E1 & C1 & I1);
    [by eapply buffered_frame | done |].
  exists w1. erewrite bind_Some by exact E0. erewrite bind_Some by exact E1.
  split; [reflexivity|]. split; [|exact I1].
  rewrite C1, C0. by rewrite <- !app_assoc.
Qed.

Lemma split_part g a (split : bool) ll1 w1 :
  buffered g w1 ->
  exists w2,
    (if split
     then crc_putc g a 34;;
          l ← (let linelength := ll1 + 1 in
               if 79 <=? linelength then crc_puts g [10];; mret 0 else mret linelength);
          crc_putc g a 34;; mret (l + 1)
     else mret ll1) w1
    = Some ((if split then (if 79 <=? ll1 + 1 then 0 else ll1 + 1) + 1 else ll1), w2)
    /\ code_file w2
       = code_file w1 ++ (if split then [34] ++ (if 79 <=? ll1 + 1 then [10] else []) ++ [34]
                          else [])
    /\ buffered g w2.
Proof.
  intros I1. destruct split.
  - destruct (crc_putc_run g a 34 w1) as (wa & Ea & Ca & Ba & Sa & _).
    erewrite bind_Some by exact Ea. cbv zeta.
    destruct (79 <=? ll1 + 1).
    + destruct (crc_puts_run g [10] wa) as (wb & Eb & Cb & Bb & Sb & _).
      destruct (crc_putc_run g a 34 wb) as (wc & Ec & Cc & Bc & Sc & _).
      exists wc. erewrite bind_Some by (erewrite bind_Some by exact Eb; reflexivity).
      erewrite bind_Some by exact Ec. split; [reflexivity|]. split.
      * rewrite Cc, Cb, Ca. by rewrite <- !app_assoc.
      * eapply buffered_frame; [exact I1 | congruence | congruence].
    + destruct (crc_putc_run g a 34 wa) as (wc & Ec & Cc & Bc & Sc & _).
      exists wc. erewrite bind_Some by reflexivity.
      erewrite bind_Some by exact Ec. split; [reflexivity|]. split.
      * rewrite Cc, Ca. by rewrite <- !app_assoc.
      * eapply buffered_frame; [exact I1 | congruence | congruence].
  - exists w1. rewrite app_nil_r. done.
Qed.

(** C6 (as the code has it): a byte that is neither escaped by a letter nor
    printable (nor, with UTF-8 in the source, above 127) is written as a
    backslash and the octal digits of its value, as many as the value
    needs; when the next byte of the input is a hexadecimal digit the
    literal is closed and opened again, the two quotes side by side; the
    bytes [0x01 '9'] come out as the literal for [\1] followed at once by
    the literal for [9].  This is what a writer does whose [crc_printf]
    has its block buffer: without merge-back data, or after a first text
    without conversions. *)
Theorem write_cstring_octal_escape :
  (forall g a fuel s e p ll w,
      Z.of_nat p < e -> buffered g w ->
      let c := char_at s p in
      let v := Z.land c 255 in
      c < 32 \/ 127 <= c ->
      ~ In c [8; 9; 10; 12; 13] ->
      utf8_in_src g = false \/ Z.land c 128 = 0 ->
      let digits := if v <? 8 then 1 else if v <? 64 then 2 else 3 in
      let wrap := 77 - digits <=? ll in
      let ll1 := (if wrap then 0 else ll) + (1 + digits) in
      let split := (Z.of_nat (S p) <? e) && is_hex_digit (char_at s (S p)) in
      let ll2 := if split then (if 79 <=? ll1 + 1 then 0 else ll1 + 1) + 1 else ll1 in
      exists w',
        write_cstring_loop g a (S fuel) s e p ll w
        = write_cstring_loop g a fuel s e (S p) ll2 w'
        /\ code_file w'
           = code_file w ++ (if wrap then [92; 10] else []) ++ [92] ++ fmt_o v
               ++ (if split then [34] ++ (if 79 <=? ll1 + 1 then [10] else []) ++ [34]
                   else [])
        /\ octal_value (fmt_o v) = v
        /\ Z.of_nat (length (fmt_o v)) = digits
        /\ buffered g w')
  /\ (forall utf8 a,
        code_file <$> exec (write_cstring_s
                              {| write_mergeback_data := false; utf8_in_src := utf8 |}
                              a [1; 57]) Fd_Code_Writer_new
        = Some ([34] ++ bytes "\1" ++ [34; 34] ++ bytes "9" ++ [34]))
  /\ (forall utf8 a,
        code_file <$> exec (write_cstring_s
                              {| write_mergeback_data := true; utf8_in_src := utf8 |}
                              a [1; 57]) writer_started
        = Some (code_file writer_started
                  ++ [34] ++ bytes "\1" ++ [34; 34] ++ bytes "9" ++ [34])).
Proof.
  split; [|split].
  2:{ intros [] a; by vm_compute. }
  2:{ intros [] a; by vm_compute. }
  intros g a fuel s e p ll w Hp Hinv c v Hrange Hesc Hutf digits wrap ll1 split ll2.
  pose proof (land_255_range c) as Hv. fold v in Hv.
  destruct (fmt_o_facts v Hv) as (Hval & Hlen & _).
  assert (Hstep : write_cstring_step g a s e p ll w = unquoted g a s e (S p) c ll w).
  { unfold write_cstring_step. fold c. simpl in Hesc.
    destruct (Z.eqb_spec c 8); [exfalso; apply Hesc; lia|].
    destruct (Z.eqb_spec c 9); [exfalso; apply Hesc; lia|].
    destruct (Z.eqb_spec c 10); [exfalso; apply Hesc; lia|].
    destruct (Z.eqb_spec c 12); [exfalso; apply Hesc; lia|].
    destruct (Z.eqb_spec c 13); [exfalso; apply Hesc; lia|].
    destruct (Z.eqb_spec c 34); [lia|]. destruct (Z.eqb_spec c 39); [lia|].
    destruct (Z.eqb_spec c 92); [lia|]. destruct (Z.eqb_spec c 63); [lia|].
    reflexivity. }
  assert (Hun : exists w2, unquoted g a s e (S p) c ll w = Some (ll2, w2)
            /\ code_file w2
               = code_file w ++ (if wrap then [92; 10] else []) ++ [92] ++ fmt_o v
                  ++ (if split then [34] ++ (if 79 <=? ll1 + 1 then [10] else []) ++ [34]
                      else [])
            /\ buffered g w2).
  { unfold unquoted.
    replace ((32 <=? c) && (c <? 127)) with false
      by (symmetry; apply andb_false_iff; lia).
    replace (utf8_in_src g && negb (Z.land c 128 =? 0)) with false.
    2:{ symmetry. apply andb_false_iff. destruct Hutf as [->| ->]; auto. }
    fold v. fold split. subst ll2 ll1 wrap digits.
    destruct (v <? 8); [|destruct (v <? 64)].
    - destruct (octal_part g v 76 2 ll w Hinv Hv) as (w1 & E1 & C1 & I1).
      destruct (split_part g a split ((if 76 <=? ll then 0 else ll) + 2) w1 I1)
        as (w2 & E2 & C2 & I2).
      exists w2. erewrite bind_Some by exact E1. split; [exact E2|]. split; [|exact I2].
      rewrite C2, C1. by rewrite <- !app_assoc.
    - destruct (octal_part g v 75 3 ll w Hinv Hv) as (w1 & E1 & C1 & I1).
      destruct (split_part g a split ((if 75 <=? ll then 0 else ll) + 3) w1 I1)
        as (w2 & E2 & C2 & I2).
      exists w2. erewrite bind_Some by exact E1. split; [exact E2|]. split; [|exact I2].
      rewrite C2, C1. by rewrite <- !app_assoc.
    - destruct (octal_part g v 74 4 ll w Hinv Hv) as (w1 & E1 & C1 & I1).
      destruct (split_part g a split ((if 74 <=? ll then 0 else ll) + 4) w1 I1)
        as (w2 & E2 & C2 & I2).
      exists w2. erewrite bind_Some by exact E1. split; [exact E2|]. split; [|exact I2].
      rewrite C2, C1. by rewrite <- !app_assoc. }
  destruct Hun as (w2 & E2 & C2 & I2).
  exists w2. split; [|split; [exact C2 | split; [exact Hval | split; [|exact I2]]]].
  - cbn [write_cstring_loop]. destruct (Z.ltb_spec (Z.of_nat p) e); [|lia].
    erewrite bind_Some by (rewrite Hstep; exact E2). reflexivity.
  - subst digits. rewrite Hlen. destruct (v <? 8); [done|]. by destruct (v <? 64).
Qed.

(** ** [merge_back]: the scan in the checking modes *)

Lemma crc_state_crc_add line w :
  crc_state (crc_add (Some line) (-1) w) = crc_line (crc_state w) line.
Proof.
  unfold crc_add, crc_line, crc_state. simpl.
  by destruct (crc_add_loop _ _ _ _ _).
Qed.

Lemma countb_nonneg P bs : 0 <= countb P bs.
Proof. induction bs as [|b bs IH]; simpl; [lia|]. destruct (P b); lia. Qed.

Lemma countb_existsb P bs : negb (countb P bs =? 0) = existsb P bs.
Proof.
  induction bs as [|b bs IH]; simpl; [done|].
  pose proof (countb_nonneg P bs). destruct (P b); simpl.
  - destruct (Z.eqb_spec (1 + countb P bs) 0); [lia | done].
  - exact IH.
Qed.

Section Scan.

Variable g : Fluid_Project.
Variable sscanf_tag : list Z -> Scanned.
Variable f : list Z.

(** In the checking modes the scan is always defined and never touches the
    tree; it stops at the first malformed tag, and otherwise its four
    counters count the divergent blocks by kind. *)
Lemma scan_counts task : is_GO task = false ->
  forall lines cur st,
    crc_state (writer st) = fold_left crc_line cur (crc32_init, true) ->
    exists st', scan sscanf_tag task f lines st = Some st'
      /\ tree st' = tree st /\ edits st' = edits st /\ changed st' = changed st
      /\ let bs := blocks_from sscanf_tag lines cur in
         if existsb (fun b => malformed (b_tag b)) bs then tag_error st' = 1
         else tag_error st' = tag_error st
              /\ num_changed_structure st'
                 = num_changed_structure st + countb (differs (Z.eqb FD_TAG_GENERIC)) bs
              /\ num_changed_code st'
                 = num_changed_code st + countb (differs (Z.eqb FD_TAG_CODE)) bs
              /\ num_changed_callback st'
                 = num_changed_callback st + countb (differs is_callback_kind) bs
              /\ num_uid_not_found st'
                 = num_uid_not_found st + countb (differs_unknown (tree st)) bs.
Proof.
  intros Htask. induction lines as [|line rest IH]; intros cur st Hcrc.
  - exists st. simpl. repeat split; lia.
  - cbn [scan blocks_from]. destruct (strstr (cstr line) tag_marker) as [tag|] eqn:Etag.
    + (* a tag line *)
      set (sc := sscanf_tag tag). cbn [existsb countb b_tag].
      fold (malformed sc). destruct (malformed sc) eqn:Emal.
      { eexists; split; [reflexivity|]. simpl. done. }
      assert (Hkind : 0 <= sc_type sc <= 3).
      { unfold malformed, FD_TAG_LAST in Emal.
        apply orb_false_iff in Emal as [Emal ?]. apply orb_false_iff in Emal as [? ?]. lia. }
      set (st1 := next_line line st).
      set (b := {| b_lines := cur; b_tag := sc |}).
      assert (Hdiv : negb (block_crc_ (writer st1) =? sc_crc sc) = diverges b).
      { unfold diverges, recomputed_crc, b. simpl. rewrite <- Hcrc. reflexivity. }
      rewrite Hdiv.
      assert (exists st2,
        (if diverges b then block_differs task f (sc_type sc) (sc_uid sc) st1 else Some st1)
        = Some st2
        /\ tree st2 = tree st /\ edits st2 = edits st /\ changed st2 = changed st
        /\ tag_error st2 = tag_error st
        /\ num_changed_structure st2
           = num_changed_structure st + (if differs (Z.eqb FD_TAG_GENERIC) b then 1 else 0)
        /\ num_changed_code st2
           = num_changed_code st + (if differs (Z.eqb FD_TAG_CODE) b then 1 else 0)
        /\ num_changed_callback st2
           = num_changed_callback st + (if differs is_callback_kind b then 1 else 0)
        /\ num_uid_not_found st2
           = num_uid_not_found st + (if differs_unknown (tree st) b then 1 else 0))
        as (st2 & E2 & T2 & D2 & C2 & G2 & N1 & N2 & N3 & N4).
      { unfold differs_unknown, differs, is_mergeable_kind, is_callback_kind.
        destruct (diverges b); simpl.
        2:{ exists st1. repeat split; simpl; lia. }
        unfold block_differs. rewrite Htask.
        unfold FD_TAG_GENERIC, FD_TAG_CODE, FD_TAG_MENU_CALLBACK, FD_TAG_WIDGET_CALLBACK.
        change (b_tag b) with sc.
        assert (sc_type sc = 0 \/ sc_type sc = 1 \/ sc_type sc = 2 \/ sc_type sc = 3)
          as [-> | [-> | [-> | ->]]] by lia; simpl;
          (eexists; split; [reflexivity|]);
          destruct (bool_decide (is_Some (find_by_uid (sc_uid sc) (tree st))));
          simpl; repeat split; lia. }
      rewrite E2. cbn [mbind option_bind].
      destruct (IH [] (next_block st2)) as (st' & E' & T' & D' & C' & R').
      { reflexivity. }
      exists st'. split; [exact E'|]. simpl in T', D', C', R'.
      rewrite T', D', C', T2, D2, C2. repeat split.
      cbv zeta in R' |- *. rewrite T2 in R'.
      destruct (existsb _ (blocks_from sscanf_tag rest [])); [exact R'|].
      destruct R' as (R0 & R1 & R2 & R3 & R4).
      rewrite R0, R1, R2, R3, R4. repeat split; lia.
    + (* a line of code *)
      destruct (IH (cur ++ [line]) (code_line line (next_line line st)))
        as (st' & E' & R').
      { simpl. rewrite crc_state_crc_add, fold_left_app. simpl. by rewrite Hcrc. }
      exists st'. split; [exact E'|]. exact R'.
Qed.

End Scan.

Lemma testbit_bits (b0 b1 b2 b3 : bool) :
  let r := bit_if b3 8 (bit_if b2 4 (bit_if b1 2 (bit_if b0 1 0))) in
  0 <= r < 16
  /\ Z.testbit r 0 = b0 /\ Z.testbit r 1 = b1 /\ Z.testbit r 2 = b2 /\ Z.testbit r 3 = b3.
Proof. destruct b0, b1, b2, b3; by vm_compute. Qed.

(** The check mode in terms of the blocks the reader cuts the file into:
    the tree stays as it is; the result is -1 when some tag line is
    malformed, and otherwise a mask below 16 whose bits 0 to 3 tell whether
    a generic block, a code block, a callback block diverges and whether a
    divergent code or callback block has a uid that no node has. *)
Lemma merge_back_check_blocks g sscanf_tag fl_fopen fl_choice s tr w f :
  write_mergeback_data g = true -> fl_fopen s = Some f ->
  let blocks := file_blocks sscanf_tag f in
  exists r,
    merge_back g sscanf_tag fl_fopen fl_choice s FD_MERGEBACK_CHECK tr w = Some r
    /\ m_tree r = tr /\ m_edits r = [] /\ m_changed r = false
    /\ if existsb (fun b => malformed (b_tag b)) blocks then ret r = -1
       else 0 <= ret r < 16
            /\ Z.testbit (ret r) 0 = existsb (differs (Z.eqb FD_TAG_GENERIC)) blocks
            /\ Z.testbit (ret r) 1 = existsb (differs (Z.eqb FD_TAG_CODE)) blocks
            /\ Z.testbit (ret r) 2 = existsb (differs is_callback_kind) blocks
            /\ Z.testbit (ret r) 3 = existsb (differs_unknown tr) blocks.
Proof.
  intros Hg Hf blocks. unfold merge_back. rewrite Hg, Hf. simpl.
  destruct (scan_counts sscanf_tag f FD_MERGEBACK_CHECK eq_refl (file_lines f) []
              (scan_start tr w)) as (st & E & T & D & C & R); [reflexivity|].
  rewrite E. cbn [mbind option_bind]. simpl in T, D, C, R.
  fold (file_blocks sscanf_tag f) in R. fold blocks in R.
  destruct (existsb (fun b => malformed (b_tag b)) blocks).
  - rewrite R. simpl. eexists; split; [reflexivity|]. simpl. done.
  - destruct R as (R0 & R1 & R2 & R3 & R4). rewrite R0. simpl.
    eexists; split; [reflexivity|]. simpl. repeat split; try done.
    all: rewrite R1, R2, R3, R4, !Z.add_0_l, !countb_existsb.
    all: apply testbit_bits.
Qed.

(** ** [merge_back]: the scan in the mode GO *)

Lemma go_inv_do_edit tr0 e st : go_inv tr0 st -> go_inv tr0 (do_edit e st).
Proof.
  intros [_ Ht]. split; simpl.
  - rewrite bool_decide_eq_false_2; [done|]. by destruct (edits st).
  - by rewrite fold_left_app, <- Ht.
Qed.

Lemma block_differs_go tr0 f type uid st :
  go_inv tr0 st ->
  match block_differs FD_MERGEBACK_GO f type uid st with
  | Some st' =>
      go_inv tr0 st' /\ tag_error st' = tag_error st /\ pos st' = pos st
      /\ block_end st' = block_end st
  | None => unindent_block f (block_start st) (block_end st) = None
  end.
Proof.
  intros Hinv. unfold block_differs. simpl.
  destruct ((type =? FD_TAG_MENU_CALLBACK) || (type =? FD_TAG_WIDGET_CALLBACK)).
  - destruct (find_by_uid uid (tree st)) as [i|]; [|done].
    destruct (from_option is_true_widget false (tree st !! i)); [|done].
    destruct (unindent_block f (block_start st) (block_end st)); simpl; [|done].
    split; [by apply go_inv_do_edit | done].
  - destruct (type =? FD_TAG_CODE); [|done].
    destruct (find_by_uid uid (tree st)) as [i|]; [|done].
    destruct (from_option is_a_Code false (tree st !! i)); [|done].
    destruct (unindent_block f (block_start st) (block_end st)); simpl; [|done].
    split; [by apply go_inv_do_edit | done].
Qed.

Lemma scan_go sscanf_tag tr0 f lines : forall st,
  go_inv tr0 st ->
  match scan sscanf_tag FD_MERGEBACK_GO f lines st with
  | Some st' => go_inv tr0 st'
  | None => undefined_block f lines (pos st) (block_start st) (block_end st)
  end.
Proof.
  unfold undefined_block.
  induction lines as [|line rest IH]; intros st Hinv; [exact Hinv|].
  cbn [scan block_bounds]. destruct (strstr (cstr line) tag_marker) as [tag|].
  - destruct (negb (sc_n (sscanf_tag tag) =? 3) || _ || _); [exact Hinv|].
    destruct (negb (_ =? _)).
    + pose proof (block_differs_go tr0 f (sc_type (sscanf_tag tag))
                    (sc_uid (sscanf_tag tag)) (next_line line st) Hinv) as Hb.
      destruct (block_differs _ _ _ _ _) as [st1|]; simpl.
      * destruct Hb as (Hb & _ & Hpos & Hend).
        specialize (IH (next_block st1) Hb). simpl in IH. rewrite Hpos, Hend in IH.
        destruct (scan _ _ _ _ _); [exact IH|]. by constructor 2.
      * by constructor 1.
    + simpl. specialize (IH (next_block (next_line line st)) Hinv).
      destruct (scan _ _ _ _ _); [exact IH|]. by constructor 2.
  - apply (IH (code_line line (next_line line st)) Hinv).
Qed.

(** C2 (as the code has it): in the mode GO [merge_back] returns 1 when it
    has made an edit and 0 when it has made none, never -1: a malformed tag
    line only ends the scan.  The tree it leaves is the given tree with the
    edits applied.  The call is defined unless [unindent_block] is
    undefined on a block of the file. *)
Theorem merge_back_go_result g sscanf_tag fl_fopen fl_choice s tr w f :
  write_mergeback_data g = true -> fl_fopen s = Some f ->
  match merge_back g sscanf_tag fl_fopen fl_choice s FD_MERGEBACK_GO tr w with
  | Some r =>
      (ret r = 1 /\ m_edits r <> [] \/ ret r = 0 /\ m_edits r = [])
      /\ m_tree r = fold_left apply_edit (m_edits r) tr
      /\ m_changed r = negb (bool_decide (m_edits r = []))
  | None => undefined_block f (file_lines f) 0 0 0
  end.
Proof.
  intros Hg Hf. unfold merge_back. rewrite Hg, Hf. simpl.
  pose proof (scan_go sscanf_tag tr f (file_lines f) (scan_start tr w)) as H.
  destruct (scan _ _ _ _ _) as [st|]; simpl.
  - destruct H as [Hc Ht]; [by split|]. simpl. rewrite Hc. split; [|done].
    destruct (edits st); simpl; [right | left]; done.
  - apply H. by split.
Qed.

(** C2 as stated fails: a file whose tag line is malformed makes the mode
    GO return 0, and 1 when an edit was made before that line; never -1. *)
Lemma merge_back_go_malformed_tag :
  existsb (fun b => malformed (b_tag b)) (file_blocks sscanf_tag_libc file_bad_tag) = true
  /\ ret <$> merge_back project_tagging sscanf_tag_libc (any_file file_bad_tag) always_merge
               (bytes "a.cxx") FD_MERGEBACK_GO tree_one_widget Fd_Code_Writer_new
     = Some 0
  /\ existsb (fun b => malformed (b_tag b))
       (file_blocks sscanf_tag_libc file_edit_then_bad_tag) = true
  /\ (fun r => (ret r, callback_ <$> m_tree r))
       <$> merge_back project_tagging sscanf_tag_libc (any_file file_edit_then_bad_tag)
             always_merge (bytes "a.cxx") FD_MERGEBACK_GO tree_one_widget Fd_Code_Writer_new
     = Some (1, [bytes "new();" ++ [10]]).
Proof. by vm_compute. Qed.

Lemma merge_back_go_result_witness :
  match merge_back project_tagging sscanf_tag_libc (any_file file_edit_then_bad_tag)
          always_merge (bytes "a.cxx") FD_MERGEBACK_GO tree_one_widget Fd_Code_Writer_new with
  | Some r =>
      (ret r = 1 /\ m_edits r <> [] \/ ret r = 0 /\ m_edits r = [])
      /\ m_tree r = fold_left apply_edit (m_edits r) tree_one_widget
      /\ m_changed r = negb (bool_decide (m_edits r = []))
  | None => undefined_block file_edit_then_bad_tag (file_lines file_edit_then_bad_tag) 0 0 0
  end.
Proof.
  apply (merge_back_go_result project_tagging sscanf_tag_libc
           (any_file file_edit_then_bad_tag) always_merge (bytes "a.cxx")
           tree_one_widget Fd_Code_Writer_new file_edit_then_bad_tag);
    reflexivity.
Defined.

(** C6 as stated fails: no blank is written between the two literals. *)
Lemma write_cstring_no_blank_between_literals :
  code_file <$> exec (write_cstring_s project_plain 0 [1; 57]) Fd_Code_Writer_new
  = Some ([34] ++ bytes "\1" ++ [34; 34] ++ bytes "9" ++ [34])
  /\ code_file <$> exec (write_cstring_s project_plain 0 [1; 57]) Fd_Code_Writer_new
     <> Some ([34] ++ bytes "\1" ++ [34; 32; 34] ++ bytes "9" ++ [34]).
Proof. by vm_compute. Qed.

Lemma buffered_started : buffered project_tagging writer_started.
Proof.
  split.
  - right. split; [by eexists | by vm_compute].
  - intros _. by eexists.
Defined.

Lemma write_cstring_octal_escape_witness :
  exists w',
    write_cstring_loop project_tagging 0 1 [1; 57] 2 0 1 writer_started
    = write_cstring_loop project_tagging 0 0 [1; 57] 2 1 5 w'
    /\ code_file w' = code_file writer_started ++ bytes "\1" ++ [34; 34].
Proof.
  destruct (proj1 write_cstring_octal_escape project_tagging 0 0%nat [1; 57] 2 0%nat 1
              writer_started) as (w' & E & C & _).
  - lia.
  - exact buffered_started.
  - left. vm_compute. reflexivity.
  - vm_compute. intros H. repeat (destruct H as [H|H]; [discriminate H|]). exact H.
  - left. reflexivity.
  - exists w'. split; [exact E | exact C].
Defined.

Lemma write_cc_write_hc_semicolon_witness :
  exists w',
    write_cc project_tagging (bytes "  ") 3 (bytes "a=b;c") (bytes "// x") writer_started
    = Some (tt, w')
    /\ code_file w' = code_file writer_started ++ bytes "  a=b; // x" ++ [10].
Proof.
  destruct (proj1 (proj2 write_cc_write_hc_semicolon) project_tagging (bytes "  ") 3
              (bytes "a=b;c")
              (bytes "// x") writer_started) as (_ & H).
  - vm_compute. split; discriminate.
  - reflexivity.
  - exact (proj1 buffered_started).
  - destruct H as (w' & E & C).
    + intros _. by vm_compute.
    + intros _. by vm_compute.
    + exists w'. split; [exact E | exact C].
Defined.

Lemma once_writers_idempotent_witness :
  exists w1 w2,
    write_c_once project_tagging (bytes "int x;") writer_started = Some (1, w1)
    /\ code_file w1 = code_file writer_started ++ bytes "int x;" ++ [10]
    /\ once_calls project_tagging [H_once (bytes "#include <FL/Fl.H>")] w1 = Some (tt, w2)
    /\ write_c_once project_tagging (bytes "int x;") w2 = Some (0, w2).
Proof.
  destruct (proj1 (proj2 (once_writers_idempotent project_tagging)) (bytes "int x;")
              writer_started [H_once (bytes "#include <FL/Fl.H>")])
    as (w1 & w2 & E1 & C1 & _ & E2 & E3).
  - split; [by apply nonul_check | simpl; lia].
  - exact (proj1 buffered_started).
  - constructor; [intros _; by vm_compute|]. constructor; [exact I | constructor].
  - constructor.
  - constructor.
  - exists w1, w2. repeat split; assumption.
Defined.

(** C8 as stated fails on lines of more than 1023 bytes: the first call
    writes only the first 1023 bytes, and another line with the same first
    1023 bytes counts as written already. *)
Lemma once_writers_long_line :
  line_1024_b <> line_1024_c
  /\ exists w1, write_h_once line_1024_b Fd_Code_Writer_new = Some (1, w1)
       /\ header_file w1 = repeat 97 1023 ++ [10]
       /\ header_file w1 <> line_1024_b ++ [10]
       /\ write_h_once line_1024_c w1 = Some (0, w1).
Proof.
  split.
  - unfold line_1024_b, line_1024_c. intros H. apply app_inv_head in H. discriminate H.
  - eexists. split; [by vm_compute|]. split; [by vm_compute|]. split.
    + cbn [header_file]. intros H.
      apply (f_equal (fun l : list Z => nth 1023 l 0)) in H. vm_compute in H. discriminate H.
    + by vm_compute.
Qed.

(** ** The loops run to their end

    The loops are modelled with a count of the turns left; the count each
    caller passes is enough, so a larger one gives the same result. *)

Lemma skip_space_le s : forall n, snd (skip_space s n) <= n.
Proof.
  induction s as [|c s IH]; intros n; simpl; [lia|].
  destruct (_ && _); simpl; [|lia]. specialize (IH (n - 1)). lia.
Qed.

Lemma crc_add_loop_fuel fuel : forall extra crc ls s n,
  (Z.to_nat n <= fuel)%nat ->
  crc_add_loop (fuel + extra) crc ls s n = crc_add_loop fuel crc ls s n.
Proof.
  induction fuel as [|fuel IH]; intros extra crc ls s n Hn.
  - destruct extra; simpl; [done|]. destruct (Z.ltb_spec 0 n); [lia | done].
  - cbn [Nat.add crc_add_loop]. destruct (Z.ltb_spec 0 n) as [Hpos|]; [|done].
    destruct ls.
    + pose proof (skip_space_le s n) as Hle.
      destruct (skip_space s n) as [s1 n1]. simpl in Hle.
      destruct ((0 <? n1) && (peek s1 =? 13)); apply IH; lia.
    + destruct ((0 <? n) && (peek s =? 13)); apply IH; lia.
Qed.

Lemma write_cstring_loop_fuel g a fuel : forall extra s e p ll w,
  (Z.to_nat (e - Z.of_nat p) <= fuel)%nat ->
  write_cstring_loop g a (fuel + extra) s e p ll w = write_cstring_loop g a fuel s e p ll w.
Proof.
  induction fuel as [|fuel IH]; intros extra s e p ll w Hn.
  - destruct extra; simpl; [done|]. destruct (Z.ltb_spec (Z.of_nat p) e); [lia | done].
  - cbn [Nat.add write_cstring_loop]. destruct (Z.ltb_spec (Z.of_nat p) e); [|done].
    unfold mbind, Writer_bind.
    destruct (write_cstring_step g a s e p ll w) as [[ll' w']|]; [|done].
    apply IH. lia.
Qed.

Lemma skip_one_space_length s : (length (skip_one_space s) <= length s)%nat.
Proof. unfold skip_one_space. destruct (_ && _); [|lia]. destruct s; simpl; lia. Qed.

Lemma unindent_loop_fuel fuel : forall extra ls s d,
  (length s <= fuel)%nat ->
  unindent_loop (fuel + extra) ls s d = unindent_loop fuel ls s d.
Proof.
  induction fuel as [|fuel IH]; intros extra ls s d Hn.
  - destruct s; simpl in *; [by destruct extra | lia].
  - destruct s as [|c s]; [done|]. cbn [Nat.add unindent_loop].
    set (s1 := if ls then skip_one_space (skip_one_space (c :: s)) else c :: s).
    assert (length s1 <= length (c :: s))%nat as H1.
    { subst s1. destruct ls; [|lia].
      pose proof (skip_one_space_length (c :: s)).
      pose proof (skip_one_space_length (skip_one_space (c :: s))). lia. }
    set (s2 := if peek s1 =? 13 then tl s1 else s1).
    assert (length s2 <= length s1)%nat as H2.
    { subst s2. destruct (peek s1 =? 13); [|lia]. destruct s1; simpl; lia. }
    destruct s2 as [|c2 s2']; [done|]. apply IH. simpl in *. lia.
Qed.

Lemma fgets_app k : forall f line rest,
  fgets k f = (line, rest) -> line ++ rest = f /\ (f <> [] -> k <> O -> line <> []).
Proof.
  induction k as [|k IH]; intros f line rest E; simpl in E.
  - injection E as <- <-. by split.
  - destruct f as [|c f]; [injection E as <- <-; by split|].
    destruct (c =? 10); [injection E as <- <-; by split|].
    destruct (fgets k f) as [l r] eqn:E'. injection E as <- <-.
    destruct (IH f l r E') as [<- _]. by split.
Qed.

(** The lines [fgets] delivers are the file, cut in pieces. *)
Lemma file_lines_concat f : concat (file_lines f) = f.
Proof.
  unfold file_lines. generalize (Nat.le_refl (length f)).
  generalize (length f) at 2 3. intros fuel. revert f.
  induction fuel as [|fuel IH]; intros f Hf.
  - destruct f; [done | simpl in Hf; lia].
  - destruct f as [|c f]; [done|]. cbn [read_lines].
    destruct (fgets 1022 (c :: f)) as [line rest] eqn:E.
    destruct (fgets_app _ _ _ _ E) as [Happ Hne].
    cbn [concat]. rewrite IH; [exact Happ|].
    assert (line <> []) by (by apply Hne).
    assert (length (line ++ rest) = length (c :: f)) as Hlen by (by rewrite Happ).
    rewrite length_app in Hlen. destruct line; [done|]. simpl in *. lia.
Qed.

(** ** [crc_add] on strings without adjacent carriage returns *)

Lemma isspace_char c :
  0 < c < 256 -> (0 <? char_val c) && isspace (char_val c) = isspace c.
Proof.
  intros Hc. unfold char_val, isspace. destruct (Z.ltb_spec c 128).
  - destruct (Z.ltb_spec 0 c); [done | lia].
  - destruct (Z.ltb_spec 0 (c - 256)); [lia|]. simpl. symmetry.
    apply orb_false_iff. split; [lia|]. apply andb_false_iff. lia.
Qed.

Lemma skip_space_stream s :
  is_cstring s ->
  exists s1, skip_space s (Z.of_nat (length s)) = (s1, Z.of_nat (length s1))
    /\ crc_stream true s = crc_stream true s1
    /\ (length s1 <= length s)%nat
    /\ is_cstring s1
    /\ (no_cr_pair s = true -> no_cr_pair s1 = true)
    /\ match s1 with [] => True | c :: _ => isspace c = false end.
Proof.
  induction 1 as [|c s Hc Hs IH].
  - exists []. repeat split; try done. constructor.
  - cbn [skip_space length]. rewrite <- andb_assoc, isspace_char by done.
    destruct (Z.ltb_spec 0 (Z.of_nat (S (length s)))); [|lia].
    destruct (isspace c) eqn:Ec; cbn [andb].
    + destruct IH as (s1 & E & Hst & Hl & Hcs & Hn & Hh).
      exists s1. replace (Z.of_nat (S (length s)) - 1) with (Z.of_nat (length s)) by lia.
      split; [exact E|]. split; [simpl; by rewrite Ec|].
      split; [lia|]. split; [done|]. split; [|done].
      simpl. intros H'. apply andb_prop in H' as [_ H']. auto.
    + exists (c :: s). repeat split; try done. by constructor.
Qed.

Lemma crc_add_loop_stream fuel : forall s crc ls,
  is_cstring s -> no_cr_pair s = true -> (length s <= fuel)%nat ->
  crc_add_loop fuel crc ls s (Z.of_nat (length s))
  = (fold_left crc32 (fst (crc_stream ls s)) crc, snd (crc_stream ls s)).
Proof.
  induction fuel as [|fuel IH]; intros s crc ls Hs Hn Hl.
  - destruct s; [done | simpl in Hl; lia].
  - cbn [crc_add_loop]. destruct s as [|c s]; [done|].
    rewrite (proj2 (Z.ltb_lt 0 (Z.of_nat (length (c :: s))))) by (simpl; lia).
    destruct ls.
    + (* at a line start *)
      destruct (skip_space_stream (c :: s) Hs) as (s1 & E & Hst & Hl1 & Hcs & Hn1 & Hh).
      rewrite E, Hst. destruct s1 as [|c1 s1].
      * simpl. destruct fuel; [done|]. reflexivity.
      * inversion Hcs as [|? ? Hc1 Hs1]; subst.
        assert (c1 <> 13 /\ c1 <> 10) as [H13 H10].
        { unfold isspace in Hh. apply orb_false_iff in Hh as [_ Hh].
          apply andb_false_iff in Hh. lia. }
        specialize (Hn1 Hn). cbn [no_cr_pair] in Hn1. apply andb_prop in Hn1 as [_ Hn1].
        assert (Hpos : (0 <? Z.of_nat (S (length s1))) = true) by (apply Z.ltb_lt; lia).
        cbn [peek hd tl length crc_stream]. rewrite Hh.
        rewrite ?Hpos, ?(proj2 (Z.eqb_neq c1 0)), ?(proj2 (Z.eqb_neq c1 13)),
          ?(proj2 (Z.eqb_neq c1 10)) by lia.
        cbn [andb peek hd tl].
        rewrite ?Hpos, ?(proj2 (Z.eqb_neq c1 13)), ?(proj2 (Z.eqb_neq c1 10)) by lia.
        cbn [andb peek hd tl].
        rewrite ?Hpos, ?(proj2 (Z.eqb_neq c1 10)) by lia.
        cbn [andb peek hd tl].
        replace (Z.of_nat (S (length s1)) - 1) with (Z.of_nat (length s1)) by lia.
        rewrite IH by (done || (simpl in *; lia)).
        by destruct (crc_stream false s1).
    + (* inside a line *)
      inversion Hs as [|? ? Hc Hs']; subst.
      cbn [no_cr_pair] in Hn. apply andb_prop in Hn as [Hpair Hn].
      cbn [peek hd tl length crc_stream andb].
      rewrite (proj2 (Z.ltb_lt 0 (Z.of_nat (S (length s))))) by lia. cbn [andb].
      destruct (Z.eqb_spec c 13) as [->|Hc13].
      * (* a carriage return: the byte after it is added as it is *)
        replace (Z.of_nat (S (length s)) - 1) with (Z.of_nat (length s)) by lia.
        destruct s as [|x s].
        -- simpl. destruct fuel; [done|]. reflexivity.
        -- inversion Hs' as [|? ? Hx Hs'']; subst.
           cbn [peek hd] in Hpair. destruct (Z.eqb_spec x 13) as [|Hx13]; [done|].
           cbn [no_cr_pair] in Hn. apply andb_prop in Hn as [_ Hn].
           assert (Hpos : (0 <? Z.of_nat (S (length s))) = true) by (apply Z.ltb_lt; lia).
           cbn [peek hd tl length crc_stream andb].
           rewrite ?Hpos, ?(proj2 (Z.eqb_neq x 13)) by lia.
           cbn [andb peek hd tl].
           rewrite ?Hpos by lia. cbn [andb peek hd tl].
           replace (Z.of_nat (S (length s)) - 1) with (Z.of_nat (length s)) by lia.
           rewrite IH by (done || (simpl in *; lia)).
           destruct (x =? 10); by destruct (crc_stream _ s).
      * cbn [peek hd tl andb].
        rewrite ?(proj2 (Z.ltb_lt 0 (Z.of_nat (S (length s))))) by lia. cbn [andb].
        replace (Z.of_nat (S (length s)) - 1) with (Z.of_nat (length s)) by lia.
        rewrite IH by (done || (simpl in *; lia)).
        destruct (c =? 10); by destruct (crc_stream _ s).
Qed.

Lemma crc_stream_normalize s : forall ls,
  fst (crc_stream ls s) = drop_blank ls (spec_normalize ls s).
Proof.
  induction s as [|c s IH]; intros ls; [done|]. cbn [crc_stream spec_normalize].
  destruct (Z.eqb_spec c 13) as [->|H13].
  - destruct ls; simpl; apply IH.
  - destruct (Z.eqb_spec c 10) as [->|H10].
    + destruct ls; simpl; [apply IH|].
      specialize (IH true). destruct (crc_stream true s). simpl in *. by f_equal.
    + destruct (ls && isspace c) eqn:E.
      * apply andb_prop in E as [-> _]. apply IH.
      * cbn [drop_blank]. destruct (Z.eqb_spec c 10); [done|].
        specialize (IH false). destruct (crc_stream false s). simpl in *. by f_equal.
Qed.

Lemma is_cstring_nonul s : is_cstring s -> nonul s.
Proof. intros H. eapply Forall_impl; [exact H|]. intros c Hc. simpl in *. lia. Qed.

(** The normalization law on its domain: for two C strings in which no carriage
    return directly follows another, and which differ only in carriage
    returns and in white space at the start of lines, [crc_add] gives the
    same CRC from the same state. *)
Theorem crc_add_normalized w s1 s2 :
  is_cstring s1 -> is_cstring s2 ->
  no_cr_pair s1 = true -> no_cr_pair s2 = true ->
  spec_normalize (block_line_start_ w) s1 = spec_normalize (block_line_start_ w) s2 ->
  block_crc_ (crc_add (Some s1) (-1) w) = block_crc_ (crc_add (Some s2) (-1) w).
Proof.
  intros H1 H2 N1 N2 E.
  assert (Hrun : forall s, is_cstring s -> no_cr_pair s = true ->
            block_crc_ (crc_add (Some s) (-1) w)
            = fold_left crc32 (drop_blank (block_line_start_ w)
                                 (spec_normalize (block_line_start_ w) s)) (block_crc_ w)).
  { intros s Hs Hn. unfold crc_add. simpl. unfold strlen.
    rewrite cstr_nonul by (by apply is_cstring_nonul).
    rewrite Nat2Z.id, crc_add_loop_stream by done. simpl.
    by rewrite crc_stream_normalize. }
  by rewrite !Hrun, E.
Qed.

Lemma crc_add_normalized_witness :
  block_crc_ (crc_add (Some (bytes "  a" ++ [13; 10] ++ bytes "b")) (-1) Fd_Code_Writer_new)
  = block_crc_ (crc_add (Some (bytes "a" ++ [10; 9] ++ bytes "b")) (-1) Fd_Code_Writer_new).
Proof.
  apply crc_add_normalized; try reflexivity;
    repeat (constructor; [split; reflexivity|]); constructor.
Defined.

(** ** [unindent] on texts without carriage returns and blank lines *)

Lemma skip_one_space_white c s :
  0 < c < 256 -> isspace c = true -> skip_one_space (c :: s) = s.
Proof.
  intros Hc Hw. unfold skip_one_space. cbn [peek hd]. by rewrite isspace_char, Hw.
Qed.

Lemma skip_one_space_other c s :
  0 < c < 256 -> isspace c = false -> skip_one_space (c :: s) = c :: s.
Proof.
  intros Hc Hw. unfold skip_one_space. cbn [peek hd]. by rewrite isspace_char, Hw.
Qed.

Ltac peek_cons :=
  repeat match goal with
         | |- context [peek (?c :: ?r)] => change (peek (c :: r)) with c
         end.

Lemma unindent_loop_clean fuel : forall s d,
  is_cstring s -> Forall (fun c => c <> 13) s -> (length s <= fuel)%nat ->
  (lines_ok AtStart s = true ->
   unindent_loop fuel true s d = Some (d ++ spec_unindent 2 s))
  /\ (forall seen, seen <> AtStart -> lines_ok seen s = true ->
      unindent_loop fuel false s d = Some (d ++ spec_unindent 0 s)).
Proof.
  induction fuel as [|fuel IH]; intros s d Hs Hcr Hl.
  { destruct s; [|simpl in Hl; lia]. simpl. rewrite app_nil_r. by split. }
  destruct s as [|c1 r]; [simpl; rewrite app_nil_r; by split|].
  inversion Hs as [|? ? Hc1 Hs1]; subst. inversion Hcr as [|? ? Hn1 Hcr1]; subst.
  assert (Hcopy : forall c r' d',
            0 < c < 256 -> c <> 13 -> is_cstring r' -> Forall (fun c => c <> 13) r' ->
            (length r' <= fuel)%nat ->
            (if c =? 10 then lines_ok AtStart r' = true
             else exists seen, seen <> AtStart /\ lines_ok seen r' = true) ->
            unindent_loop fuel (c =? 10) r' (d' ++ [c])
            = Some (d' ++ spec_unindent 0 (c :: r'))).
  { intros c r' d' Hc H13 Hr Hcr' Hl' Hok. cbn [spec_unindent].
    rewrite (proj2 (Z.eqb_neq c 13)) by done.
    destruct (IH r' (d' ++ [c]) Hr Hcr' Hl') as [IH1 IH2].
    destruct (Z.eqb_spec c 10) as [->|_].
    - rewrite IH1 by done. by rewrite <- app_assoc.
    - destruct Hok as (seen & Hseen & Hok). rewrite (IH2 seen) by done.
      by rewrite <- app_assoc. }
  split.
  - (* at a line start *)
    intros Hok. cbn [lines_ok] in Hok. cbn [unindent_loop].
    destruct (Z.eqb_spec c1 10) as [|H10]; [done|].
    destruct (isspace c1) eqn:Hw1.
    + rewrite (skip_one_space_white c1 r) by done.
      destruct r as [|c2 r2]; [done|].
      inversion Hs1 as [|? ? Hc2 Hs2]; subst. inversion Hcr1 as [|? ? Hn2 Hcr2]; subst.
      cbn [lines_ok] in Hok. destruct (Z.eqb_spec c2 10) as [|H20]; [done|].
      destruct (isspace c2) eqn:Hw2.
      * rewrite (skip_one_space_white c2 r2) by done.
        destruct r2 as [|c3 r3]; [done|].
        inversion Hs2 as [|? ? Hc3 Hs3]; subst. inversion Hcr2 as [|? ? Hn3 Hcr3]; subst.
        peek_cons. rewrite (proj2 (Z.eqb_neq c3 13)) by done. peek_cons.
        replace (if c3 =? 10 then true else false) with (c3 =? 10) by (by destruct (c3 =? 10)).
        rewrite Hcopy; try done; [|simpl in *; lia|].
        -- cbn [spec_unindent].
           rewrite (proj2 (Z.eqb_neq c1 13)), (proj2 (Z.eqb_neq c1 10)), Hw1,
             (proj2 (Z.eqb_neq c2 13)), (proj2 (Z.eqb_neq c2 10)), Hw2 by done.
           reflexivity.
        -- cbn [lines_ok] in Hok. destruct (c3 =? 10); [done|].
           destruct (isspace c3); eexists; (split; [|exact Hok]); done.
      * rewrite (skip_one_space_other c2 r2) by done.
        peek_cons. rewrite (proj2 (Z.eqb_neq c2 13)) by done. peek_cons.
        replace (if c2 =? 10 then true else false) with (c2 =? 10) by (by destruct (c2 =? 10)).
        rewrite Hcopy; try done; [|simpl in *; lia|].
        -- cbn [spec_unindent].
           rewrite (proj2 (Z.eqb_neq c1 13)), (proj2 (Z.eqb_neq c1 10)), Hw1,
             (proj2 (Z.eqb_neq c2 13)), (proj2 (Z.eqb_neq c2 10)), Hw2 by done.
           reflexivity.
        -- rewrite (proj2 (Z.eqb_neq c2 10)) by done. by exists SeenByte.
    + rewrite !(skip_one_space_other c1 r) by done.
      peek_cons. rewrite (proj2 (Z.eqb_neq c1 13)) by done. peek_cons.
      replace (if c1 =? 10 then true else false) with (c1 =? 10) by (by destruct (c1 =? 10)).
      rewrite Hcopy; try done; [|simpl in *; lia|].
      * cbn [spec_unindent].
        rewrite (proj2 (Z.eqb_neq c1 13)), (proj2 (Z.eqb_neq c1 10)), Hw1 by done.
        reflexivity.
      * rewrite (proj2 (Z.eqb_neq c1 10)) by done. by exists SeenByte.
  - (* inside a line *)
    intros seen Hseen Hok. cbn [unindent_loop]. peek_cons.
    rewrite (proj2 (Z.eqb_neq c1 13)) by done. peek_cons.
    replace (if c1 =? 10 then true else false) with (c1 =? 10) by (by destruct (c1 =? 10)).
    apply Hcopy; try done; [simpl in *; lia|].
    cbn [lines_ok] in Hok. destruct (c1 =? 10).
    + by destruct seen.
    + destruct (isspace c1); [|by exists SeenByte].
      exists (match seen with SeenByte => SeenByte | _ => OnlyWhite end).
      split; [by destruct seen | exact Hok].
Qed.

(** The un-indent rule on its domain: on a text without carriage returns in
    which every line holds a byte that is not white space, [unindent] is
    the un-indent rule. *)
Theorem unindent_clean_text s :
  is_cstring s -> Forall (fun c => c <> 13) s -> lines_ok AtStart s = true ->
  unindent s = Some (spec_unindent 2 s).
Proof.
  intros Hs Hcr Hok. unfold unindent.
  rewrite cstr_nonul by (by apply is_cstring_nonul).
  by apply (unindent_loop_clean (length s) s []).
Qed.

Lemma unindent_clean_text_witness :
  unindent (bytes "  a;" ++ [10] ++ bytes "    b;" ++ [10])
  = Some (bytes "a;" ++ [10] ++ bytes "  b;" ++ [10]).
Proof.
  apply (unindent_clean_text (bytes "  a;" ++ [10] ++ bytes "    b;" ++ [10]));
    [| |reflexivity];
    repeat (constructor; [first [split; reflexivity | discriminate]|]); constructor.
Defined.

(** ** The scenarios of the specification, run on the model *)

(** The check values of CRC-32. *)
Example crc32_check_values :
  crc32_bytes crc32_init (bytes "123456789") = 0xCBF43926
  /\ crc32_bytes crc32_init (bytes "a") = 0xE8B7BE43
  /\ crc32_bytes crc32_init [] = 0.
Proof. by vm_compute. Qed.

Example write_cstring_newline g a :
  code_file <$> exec (write_cstring_s g a (bytes "hi" ++ [10])) Fd_Code_Writer_new
  = Some ([34] ++ bytes "hi\n" ++ [34]).
Proof. destruct g as [[] []]; by vm_compute. Qed.

Example tag_line_deadbeef :
  code_file (after (tag project_tagging 1 0xab) (set_block 0xDEADBEEF true Fd_Code_Writer_new))
  = bytes "//~fl~1~00ab~deadbeef~~" ++ [10].
Proof. by vm_compute. Qed.

Example sscanf_reads_tag_line :
  sscanf_tag_libc (bytes "//~fl~1~00ab~deadbeef~~" ++ [10])
  = {| sc_n := 3; sc_type := 1; sc_uid := 0xab; sc_crc := 0xDEADBEEF |}.
Proof. by vm_compute. Qed.

Example merge_back_check_emitted :
  file_emitted
  = bytes "void cb() {" ++ [10] ++ tag_line FD_TAG_GENERIC 0xab 0x613f6e5a
    ++ bytes "  old();" ++ [10] ++ tag_line FD_TAG_WIDGET_CALLBACK 0xab 0x7d6b0146
    ++ bytes "}" ++ [10] ++ tag_line FD_TAG_GENERIC 0xab 0x3b9dfc5a
  /\ ret <$> merge_back project_tagging sscanf_tag_libc (any_file file_emitted) always_merge
               (bytes "a.cxx") FD_MERGEBACK_CHECK tree_one_widget Fd_Code_Writer_new
     = Some 0.
Proof. by vm_compute. Qed.

Example merge_back_check_more_indent :
  ret <$> merge_back project_tagging sscanf_tag_libc (any_file file_more_indent) always_merge
            (bytes "a.cxx") FD_MERGEBACK_CHECK tree_one_widget Fd_Code_Writer_new
  = Some 0.
Proof. by vm_compute. Qed.

Example merge_back_go_edited :
  (fun r => (ret r, callback_ <$> m_tree r))
    <$> merge_back project_tagging sscanf_tag_libc (any_file file_edited) always_merge
          (bytes "a.cxx") FD_MERGEBACK_GO tree_one_widget Fd_Code_Writer_new
  = Some (1, [bytes "new();" ++ [10]])
  /\ ret <$> merge_back project_tagging sscanf_tag_libc (any_file file_edited) always_merge
               (bytes "a.cxx") FD_MERGEBACK_CHECK tree_one_widget Fd_Code_Writer_new
     = Some 4.
Proof. by vm_compute. Qed.

(** A text of exactly [block_buffer_size_] bytes reaches the file without
    its last byte: [vsnprintf] stores one byte less than the size it is
    given, and the buffer only grows for longer texts. *)
Example crc_vprintf_drops_last_byte :
  block_buffer_size_ writer_small_buffer = 129
  /\ length text_129 = 129%nat
  /\ code_file (after (crc_vprintf project_tagging true text_129) writer_small_buffer)
     = bytes "x" ++ repeat 97 128.
Proof. by vm_compute. Qed.

(** A format with a conversion whose text does not fit the buffer: the
    second [vsnprintf] reads the arguments the first one has consumed.  So
    the first [crc_printf] of an octal escape on a new writer is undefined,
    where the same text without a conversion is printed. *)
Example crc_vprintf_second_read :
  crc_printf project_tagging true (bytes "\1") Fd_Code_Writer_new = None
  /\ code_file <$> exec (crc_printf project_tagging false (bytes "\1")) Fd_Code_Writer_new
     = Some (bytes "\1")
  /\ exec (write_cstring_s project_tagging 0 [1; 57]) Fd_Code_Writer_new = None.
Proof. by vm_compute. Qed.

(** A block from which every line was deleted ends before it starts:
    [block_end] still holds the end of the block before, and
    [unindent_block] asks [malloc] and [fread] for a negative size. *)
Example merge_back_go_emptied_block :
  block_bounds (file_lines file_emptied) 0 0 0 = [(0, 12); (36, 12); (60, 62)]
  /\ merge_back project_tagging sscanf_tag_libc (any_file file_emptied) always_merge
       (bytes "a.cxx") FD_MERGEBACK_GO tree_one_widget Fd_Code_Writer_new
     = None.
Proof. by vm_compute. Qed.

(** * Further properties of the code *)

(** ** [merge_back]: the safe and the interactive mode *)

(** The scan keeps every member of the writer but the CRC and the
    line-start flag. *)
Lemma block_differs_writer task f type uid st st' :
  block_differs task f type uid st = Some st' -> writer st' = writer st.
Proof.
  unfold block_differs. destruct (is_GO task).
  - destruct (_ || _).
    + destruct (find_by_uid uid (tree st)); [|by intros [= <-]].
      destruct (from_option _ _ _); [|by intros [= <-]].
      destruct (unindent_block _ _ _); simpl; [by intros [= <-] | done].
    + destruct (type =? FD_TAG_CODE); [|by intros [= <-]].
      destruct (find_by_uid uid (tree st)); [|by intros [= <-]].
      destruct (from_option _ _ _); [|by intros [= <-]].
      destruct (unindent_block _ _ _); simpl; [by intros [= <-] | done].
  - intros [= <-].
    destruct (type =? FD_TAG_GENERIC), (type =? FD_TAG_CODE), (_ || _), (_ && _); done.
Qed.

Lemma scan_writer sscanf_tag task f lines : forall st st',
  scan sscanf_tag task f lines st = Some st' ->
  forall crc ls, set_block crc ls (writer st') = set_block crc ls (writer st).
Proof.
  induction lines as [|line rest IH]; intros st st' E crc ls; [by injection E as <-|].
  cbn [scan] in E. destruct (strstr (cstr line) tag_marker).
  - destruct (negb _ || _ || _); [by injection E as <-|].
    destruct (negb (_ =? _)).
    + destruct (block_differs _ _ _ _ _) as [st1|] eqn:E1; [|done]. simpl in E.
      rewrite (IH _ _ E). simpl. by rewrite (block_differs_writer _ _ _ _ _ _ E1).
    + simpl in E. by rewrite (IH _ _ E).
  - rewrite (IH _ _ E). simpl. unfold crc_add. simpl.
    by destruct (crc_add_loop _ _ _ _ _).
Qed.

Lemma go_turn_as_go g sscanf_tag fl_fopen fl_choice s task tr w f st :
  write_mergeback_data g = true -> fl_fopen s = Some f ->
  scan sscanf_tag task f (file_lines f) (scan_start tr w) = Some st ->
  tree st = tr ->
  go_turn sscanf_tag f st
  = merge_back g sscanf_tag fl_fopen fl_choice s FD_MERGEBACK_GO tr w.
Proof.
  intros Hg Hf E Ht. unfold merge_back, go_turn. rewrite Hg, Hf. simpl.
  assert (scan_start (tree st) (writer st) = scan_start tr w) as ->; [|done].
  unfold scan_start. rewrite Ht. f_equal.
  rewrite (scan_writer _ _ _ _ _ _ E). reflexivity.
Qed.

(** The safe mode in terms of the blocks the reader cuts the file into. *)
Lemma merge_back_go_safe_blocks g sscanf_tag fl_fopen fl_choice s tr w f :
  write_mergeback_data g = true -> fl_fopen s = Some f ->
  let blocks := file_blocks sscanf_tag f in
  let run := merge_back g sscanf_tag fl_fopen fl_choice s in
  if existsb (fun b => malformed (b_tag b)) blocks
     || existsb (differs (Z.eqb FD_TAG_GENERIC)) blocks
  then exists r, run FD_MERGEBACK_GO_SAFE tr w = Some r
         /\ ret r = -1 /\ m_tree r = tr /\ m_edits r = [] /\ m_changed r = false
  else if existsb (differs (Z.eqb FD_TAG_CODE)) blocks
          || existsb (differs is_callback_kind) blocks
  then run FD_MERGEBACK_GO_SAFE tr w = run FD_MERGEBACK_GO tr w
  else exists r, run FD_MERGEBACK_GO_SAFE tr w = Some r
         /\ ret r = 0 /\ m_tree r = tr /\ m_edits r = [] /\ m_changed r = false.
Proof.
  intros Hg Hf blocks run.
  destruct (scan_counts sscanf_tag f FD_MERGEBACK_GO_SAFE eq_refl (file_lines f) []
              (scan_start tr w)) as (st & E & T & D & C & R); [reflexivity|].
  simpl in T, D, C, R. fold (file_blocks sscanf_tag f) in R. fold blocks in R.
  pose proof (go_turn_as_go g sscanf_tag fl_fopen fl_choice s _ tr w f st Hg Hf E T) as Hgo.
  subst run. unfold merge_back at 1 2 4. rewrite Hg, Hf. simpl. rewrite E.
  cbn [mbind option_bind].
  destruct (existsb (fun b => malformed (b_tag b)) blocks); simpl.
  - rewrite R. simpl. eexists; split; [reflexivity|]. by simpl.
  - destruct R as (R0 & R1 & R2 & R3 & _). rewrite R0. simpl.
    rewrite R1, R2, R3, !Z.add_0_l.
    rewrite <- !(countb_existsb (differs _)).
    destruct (countb (differs (Z.eqb FD_TAG_GENERIC)) blocks =? 0); simpl.
    + destruct (countb (differs (Z.eqb FD_TAG_CODE)) blocks =? 0); simpl; [|exact Hgo].
      destruct (countb (differs is_callback_kind) blocks =? 0); simpl; [|exact Hgo].
      eexists; split; [reflexivity|]. by simpl.
    + eexists; split; [reflexivity|]. by simpl.
Qed.

(** The interactive mode in terms of the blocks the reader cuts the file
    into. *)
Lemma merge_back_interactive_blocks g sscanf_tag fl_fopen fl_choice s tr w f :
  write_mergeback_data g = true -> fl_fopen s = Some f ->
  let blocks := file_blocks sscanf_tag f in
  let run := merge_back g sscanf_tag fl_fopen fl_choice s in
  let unchanged_with (v : Z) :=
    exists r, run FD_MERGEBACK_INTERACTIVE tr w = Some r
      /\ ret r = v /\ m_tree r = tr /\ m_edits r = [] /\ m_changed r = false in
  if existsb (fun b => malformed (b_tag b)) blocks then unchanged_with (-1)
  else if existsb (differs (Z.eqb FD_TAG_CODE)) blocks
          || existsb (differs is_callback_kind) blocks
  then if fl_choice (countb (differs (Z.eqb FD_TAG_CODE)) blocks)
            (countb (differs is_callback_kind) blocks)
            (countb (differs_unknown tr) blocks)
            (countb (differs (Z.eqb FD_TAG_GENERIC)) blocks) =? 0
       then unchanged_with 1
       else run FD_MERGEBACK_INTERACTIVE tr w = run FD_MERGEBACK_GO tr w
  else if existsb (differs (Z.eqb FD_TAG_GENERIC)) blocks then unchanged_with (-1)
  else unchanged_with 0.
Proof.
  intros Hg Hf blocks run unchanged_with.
  destruct (scan_counts sscanf_tag f FD_MERGEBACK_INTERACTIVE eq_refl (file_lines f) []
              (scan_start tr w)) as (st & E & T & D & C & R); [reflexivity|].
  simpl in T, D, C, R. fold (file_blocks sscanf_tag f) in R. fold blocks in R.
  pose proof (go_turn_as_go g sscanf_tag fl_fopen fl_choice s _ tr w f st Hg Hf E T) as Hgo.
  subst unchanged_with run. cbv beta. unfold merge_back at 1 2 3 5 6. rewrite Hg, Hf. simpl.
  rewrite E. cbn [mbind option_bind].
  destruct (existsb (fun b => malformed (b_tag b)) blocks); simpl.
  - rewrite R. simpl. eexists; split; [reflexivity|]. by simpl.
  - destruct R as (R0 & R1 & R2 & R3 & R4). rewrite R0. simpl.
    rewrite R1, R2, R3, R4, !Z.add_0_l.
    rewrite <- !(countb_existsb (differs _)).
    destruct (countb (differs (Z.eqb FD_TAG_CODE)) blocks =? 0) eqn:Ec;
      destruct (countb (differs is_callback_kind) blocks =? 0) eqn:Eb;
      destruct (countb (differs (Z.eqb FD_TAG_GENERIC)) blocks =? 0) eqn:Es; simpl;
      try (eexists; split; [reflexivity|]; by simpl);
      (destruct (fl_choice _ _ _ _ =? 0);
       [eexists; split; [reflexivity|]; by simpl | exact Hgo]).
Qed.

(** ** [c_contains] *)

Lemma c_contains_found pp t :
  fst (c_contains pp t) = true -> pp ∈ ptrs t /\ snd (c_contains pp t) = t.
Proof.
  induction t as [|ptr l IHl r IHr]; simpl; [done|].
  destruct (Z.eqb_spec ptr pp) as [->|_]; simpl.
  - intros _. split; [|done]. apply elem_of_app. right. by left.
  - destruct (ptr <? pp).
    + destruct (c_contains pp l) as [b l']. simpl in *. intros ->.
      destruct IHl as [Hin ->]; [done|]. split; [|done]. apply elem_of_app. by left.
    + destruct (c_contains pp r) as [b r']. simpl in *. intros ->.
      destruct IHr as [Hin ->]; [done|]. split; [|done].
      apply elem_of_app. right. by right.
Qed.

Lemma c_contains_missed pp t :
  fst (c_contains pp t) = false ->
  ptrs (snd (c_contains pp t)) ≡ₚ pp :: ptrs t
  /\ fst (c_contains pp (snd (c_contains pp t))) = true
  /\ (forall y, fst (c_contains y t) = true ->
                fst (c_contains y (snd (c_contains pp t))) = true).
Proof.
  induction t as [|ptr l IHl r IHr]; simpl.
  - intros _. rewrite Z.eqb_refl. by repeat split.
  - destruct (Z.eqb_spec ptr pp) as [->|Hne]; [done|].
    destruct (ptr <? pp) eqn:Hlt.
    + destruct (c_contains pp l) as [b l'] eqn:El. simpl in *. intros ->.
      destruct IHl as (Hp & Hf & Hk); [done|]. split; [|split].
      * rewrite Hp. reflexivity.
      * destruct (Z.eqb_spec ptr pp); [done|]. rewrite Hlt.
        destruct (c_contains pp l'). simpl in *. done.
      * intros y. destruct (ptr =? y); [done|]. destruct (ptr <? y).
        -- intros Hy. specialize (Hk y). destruct (c_contains y l), (c_contains y l').
           simpl in *. auto.
        -- by destruct (c_contains y r).
    + destruct (c_contains pp r) as [b r'] eqn:Er. simpl in *. intros ->.
      destruct IHr as (Hp & Hf & Hk); [done|]. split; [|split].
      * rewrite Hp, <- !Permutation_middle. apply perm_swap.
      * destruct (Z.eqb_spec ptr pp); [done|]. rewrite Hlt.
        destruct (c_contains pp r'). simpl in *. done.
      * intros y. destruct (ptr =? y); [done|]. destruct (ptr <? y).
        -- by destruct (c_contains y l).
        -- intros Hy. specialize (Hk y). destruct (c_contains y r), (c_contains y r').
           simpl in *. auto.
Qed.

Lemma c_contains_inv pp t :
  ptrs_inv t ->
  ptrs_inv (snd (c_contains pp t))
  /\ (forall x, x ∈ ptrs (snd (c_contains pp t)) <-> x = pp \/ x ∈ ptrs t).
Proof.
  intros [Hnd Hall]. destruct (fst (c_contains pp t)) eqn:E.
  - destruct (c_contains_found pp t E) as [Hin ->]. split; [by split|].
    intros x. split; [by right | intros [->|]; done].
  - destruct (c_contains_missed pp t E) as (Hp & Hf & Hk).
    assert (Hiff : forall x, x ∈ ptrs (snd (c_contains pp t)) <-> x = pp \/ x ∈ ptrs t).
    { intros x. rewrite Hp. apply elem_of_cons. }
    split; [|exact Hiff]. split.
    + rewrite Hp. constructor; [|done]. intros Hin. apply Hall in Hin. congruence.
    + intros x Hx. apply Hiff in Hx as [->|Hx]; [done|]. by apply Hk, Hall.
Qed.

Lemma c_contains_all_inv pps : forall t,
  ptrs_inv t ->
  ptrs_inv (c_contains_all pps t)
  /\ (forall x, x ∈ ptrs (c_contains_all pps t) <-> x ∈ pps \/ x ∈ ptrs t).
Proof.
  unfold c_contains_all.
  induction pps as [|pp pps IH]; intros t Hinv; simpl.
  - split; [done|]. intros x. split; [by right | intros [H|]; [inversion H | done]].
  - destruct (c_contains_inv pp t Hinv) as [Hinv1 Hiff1].
    destruct (IH _ Hinv1) as [Hinv2 Hiff2]. split; [done|].
    intros x. rewrite Hiff2, Hiff1, elem_of_cons. tauto.
Qed.

Lemma ptrs_inv_null : ptrs_inv PNull.
Proof. split; [constructor | intros x H; inversion H]. Qed.

(** After any calls of [c_contains] on a new writer, [c_contains(pp)]
    returns true exactly when [pp] was passed to one of them; and when it
    returns true it leaves the tree as it is. *)
Theorem c_contains_iff_passed pps pp :
  let t := c_contains_all pps PNull in
  (fst (c_contains pp t) = true <-> pp ∈ pps)
  /\ (pp ∈ pps -> snd (c_contains pp t) = t).
Proof.
  intros t. destruct (c_contains_all_inv pps PNull ptrs_inv_null) as [[Hnd Hall] Hiff].
  fold t in Hnd, Hall, Hiff.
  assert (Hin : pp ∈ pps -> fst (c_contains pp t) = true).
  { intros H. apply Hall, Hiff. by left. }
  split; [split; [|exact Hin]|].
  - intros E. destruct (c_contains_found pp t E) as [H _].
    apply Hiff in H as [H|H]; [done | inversion H].
  - intros H. by apply c_contains_found, Hin.
Qed.

(** The tree holds every pointer that was passed, once. *)
Theorem c_contains_holds_once pps :
  let t := c_contains_all pps PNull in
  NoDup (ptrs t) /\ forall x, x ∈ ptrs t <-> x ∈ pps.
Proof.
  intros t. destruct (c_contains_all_inv pps PNull ptrs_inv_null) as [[Hnd _] Hiff].
  split; [exact Hnd|]. intros x. split.
  - intros H. apply Hiff in H as [H|H]; [done | inversion H].
  - intros H. apply Hiff. by left.
Qed.

(** ** [indent] *)

Lemma drop_spaces k : (k <= 32)%nat -> drop (32 - k) spaces = repeat 32 k.
Proof.
  intros Hk. do 33 (destruct k as [|k]; [reflexivity|]). lia.
Qed.

Lemma indent_run set :
  - 2 ^ 30 <= set < 2 ^ 30 ->
  indent set = Some (repeat 32 (Z.to_nat (Z.min 32 (Z.max 0 (2 * set))))).
Proof.
  intros Hs. unfold indent.
  destruct (Z.ltb_spec (set * 2) (- 2 ^ 31)); [lia|].
  destruct (Z.leb_spec (2 ^ 31) (set * 2)); [lia|]. simpl. f_equal.
  set (i := if (if 32 <? set * 2 then 32 else set * 2) <? 0 then 0
            else if 32 <? set * 2 then 32 else set * 2).
  assert (Hi : i = Z.min 32 (Z.max 0 (2 * set))).
  { subst i. destruct (Z.ltb_spec 32 (set * 2)).
    - destruct (Z.ltb_spec 32 0); lia.
    - destruct (Z.ltb_spec (set * 2) 0); lia. }
  rewrite <- Hi. replace (Z.to_nat (32 - i)) with (32 - Z.to_nat i)%nat by lia.
  apply drop_spaces. lia.
Qed.

(** [indent] gives two blanks for each level, none below level 0 and 32
    from level 16 on. *)
Theorem indent_clamped set :
  - 2 ^ 30 <= set < 2 ^ 30 ->
  indent set = Some (repeat 32 (Z.to_nat (Z.min 32 (Z.max 0 (2 * set))))).
Proof. apply indent_run. Qed.

Lemma indent_clamped_witness : indent 3 = Some (bytes "      ").
Proof. apply (indent_clamped 3). lia. Defined.

(** ** The header guard *)

Lemma isalnum_range x : isalnum x = true -> 0 <= x < 128.
Proof.
  unfold isalnum, isalpha.
  rewrite !orb_true_iff, !andb_true_iff, !Z.leb_le. lia.
Qed.

Lemma isalnum_char_val c : 0 < c < 256 -> isalnum (char_val c) = true -> char_val c = c.
Proof.
  intros Hc E. apply isalnum_range in E. unfold char_val in *.
  destruct (Z.ltb_spec c 128); lia.
Qed.

Lemma define_name_chars a :
  is_cstring a ->
  forallb (fun c => isalnum c || (c =? 95))
    (map (fun c => if isalnum (char_val c) then c else 95) a) = true.
Proof.
  induction 1 as [|c a Hc _ IH]; [done|]. simpl. rewrite IH, andb_true_r.
  destruct (isalnum (char_val c)) eqn:E; [|done].
  by rewrite <- (isalnum_char_val c Hc E), E.
Qed.

(** Whatever the header file is called, the guard written for it is a C
    identifier of the length of the name, or one byte longer, as long as the
    name has at most 100 bytes. *)
Theorem define_name_identifier a :
  is_cstring a -> (length a <= 100)%nat ->
  exists b, define_name a = Some b /\ is_identifier b = true
    /\ (length a <= length b <= S (length a))%nat.
Proof.
  intros Ha Hl. unfold define_name.
  rewrite (cstr_nonul a (is_cstring_nonul a Ha)).
  set (m := map (fun c => if isalnum (char_val c) then c else 95) a).
  assert (Hm : length m = length a) by apply length_map.
  pose proof (define_name_chars a Ha) as Hc. fold m in Hc.
  destruct (isalpha (char_val (peek a))) eqn:Ea.
  - simpl. destruct (Z.ltb_spec 101 (Z.of_nat (length m))); [lia|].
    exists m. split; [done|]. split; [|lia].
    destruct Ha as [|c r Hcr Hr]; [done|]. cbn [peek hd] in Ea.
    assert (En : isalnum (char_val c) = true) by (unfold isalnum; by rewrite Ea).
    assert (Hcc : char_val c = c) by by apply isalnum_char_val.
    assert (Em : m = c :: map (fun c => if isalnum (char_val c) then c else 95) r).
    { subst m. cbn [map]. by rewrite En. }
    rewrite Em in *. rewrite Hcc in Ea.
    unfold is_identifier. by rewrite Ea, Hc.
  - cbn [app length]. destruct (Z.ltb_spec 101 (Z.of_nat (S (length m)))); [lia|].
    exists (95 :: m). split; [done|]. split; [|cbn [length]; lia]. simpl. exact Hc.
Qed.

Lemma define_name_identifier_witness :
  exists b, define_name (bytes "My View.h") = Some b /\ is_identifier b = true
    /\ (length (bytes "My View.h") <= length b <= S (length (bytes "My View.h")))%nat.
Proof.
  apply define_name_identifier.
  - repeat constructor.
  - vm_compute. lia.
Defined.

Example define_name_my_view :
  define_name (bytes "My View.h") = Some (bytes "My_View_h")
  /\ define_name (bytes "3d.h") = Some (bytes "_3d_h").
Proof. by vm_compute. Qed.

(** ** [unindent] never makes up bytes *)

Lemma sublist_skip_one_space s : sublist (skip_one_space s) s.
Proof.
  unfold skip_one_space. destruct (_ && _); [|done].
  destruct s; [done|]. by constructor.
Qed.

Lemma unindent_loop_sublist fuel : forall ls s d out,
  unindent_loop fuel ls s d = Some out ->
  exists kept, out = d ++ kept /\ sublist kept s.
Proof.
  induction fuel as [|fuel IH]; intros ls s d out E.
  - destruct s; [|done]. injection E as <-. exists []. by rewrite app_nil_r.
  - destruct s as [|c s]; [injection E as <-; exists []; by rewrite app_nil_r|].
    cbn [unindent_loop] in E.
    set (s1 := if ls then skip_one_space (skip_one_space (c :: s)) else c :: s) in E.
    assert (H1 : sublist s1 (c :: s)).
    { subst s1. destruct ls; [|done].
      etrans; apply sublist_skip_one_space. }
    set (s2 := if peek s1 =? 13 then tl s1 else s1) in E.
    assert (H2 : sublist s2 s1).
    { subst s2. destruct (peek s1 =? 13); [|done]. destruct s1; [done|]. by constructor. }
    destruct s2 as [|c2 s2']; [done|].
    destruct (IH _ _ _ _ E) as (kept & -> & Hk).
    exists (c2 :: kept). split; [by rewrite <- app_assoc|].
    etrans; [|exact H1]. etrans; [|exact H2]. by constructor.
Qed.

(** Where [unindent] is defined, the text it leaves is the given text with
    some bytes taken out: no byte is added, changed or moved. *)
Theorem unindent_sublist s d :
  unindent s = Some d -> sublist d (cstr s).
Proof.
  unfold unindent. intros E.
  destruct (unindent_loop_sublist _ _ _ _ _ E) as (kept & -> & Hk). exact Hk.
Qed.

Lemma unindent_sublist_witness :
  sublist (bytes "x" ++ [10] ++ bytes " y") (cstr text_blank_line).
Proof. apply (unindent_sublist text_blank_line). reflexivity. Defined.

(** ** [write_cdata] *)

Lemma decimal_ok_all v : 0 <= v < 256 -> decimal_ok v = true.
Proof.
  intros Hv.
  assert (H : forallb decimal_ok (seqZ 0 256) = true) by (by vm_compute).
  rewrite forallb_forall in H. apply H.
  apply list_elem_of_In, elem_of_seqZ. lia.
Qed.

Lemma fmt_d_facts v :
  0 <= v < 256 ->
  forallb is_digit (fmt_d v) = true
  /\ fold_left (fun a c => 10 * a + (c - 48)) (fmt_d v) 0 = v
  /\ Z.of_nat (length (fmt_d v)) = (if 99 <? v then 3 else if 9 <? v then 2 else 1).
Proof.
  intros Hv. pose proof (decimal_ok_all v Hv) as H. unfold decimal_ok in H.
  apply andb_prop in H as [H H3]. apply andb_prop in H as [H1 H2].
  split; [done|]. split; lia.
Qed.

Lemma to_uchar_range b : 0 <= to_uchar b < 256.
Proof. unfold to_uchar. apply Z.mod_pos_bound. lia. Qed.

Lemma digits_nonul ds : forallb is_digit ds = true -> nonul ds.
Proof.
  rewrite forallb_forall. intros H. apply Forall_forall. intros d Hd.
  apply list_elem_of_In, H in Hd. unfold is_digit in Hd. lia.
Qed.

Lemma read_numbers_digits ds : forall cur r,
  forallb is_digit ds = true -> ds <> [] ->
  read_numbers cur (ds ++ r)
  = read_numbers (Some (fold_left (fun a c => 10 * a + (c - 48)) ds (default 0 cur))) r.
Proof.
  induction ds as [|d ds IH]; intros cur r Hd Hne; [done|].
  simpl in Hd. apply andb_prop in Hd as [Hd Hds]. cbn [app read_numbers]. rewrite Hd.
  destruct ds as [|d' ds']; [done|]. by rewrite IH.
Qed.

Lemma cdata_text_read bs : forall ll,
  Forall (fun c => 0 <= c < 256) bs -> bs <> [] ->
  read_numbers None (cdata_text bs ll ++ [125]) = Some bs.
Proof.
  induction bs as [|c r IH]; intros ll Hb Hne; [done|].
  inversion Hb as [|? ? Hc Hr]; subst.
  destruct (fmt_d_facts c Hc) as (Hd & Hv & Hl).
  cbn [cdata_text]. cbv zeta.
  set (ll' := ll + _). rewrite <- !app_assoc.
  assert (E : forall t, read_numbers None ((if 77 <=? ll' then [10] else []) ++ t)
                        = read_numbers None t) by (intros t; by destruct (77 <=? ll')).
  rewrite E, read_numbers_digits; [|done|]; cycle 1.
  { intros E0. rewrite E0 in Hl. simpl in Hl.
    destruct (99 <? c); [lia|]. destruct (9 <? c); lia. }
  simpl default. rewrite Hv.
  destruct r as [|c' r']; [done|].
  cbn [app read_numbers]. change (is_digit 44) with false. cbv iota.
  change (44 =? 44) with true. cbv iota.
  by rewrite IH.
Qed.

Lemma within_app limit ds : forall col r,
  Forall (fun c => c <> 10) ds ->
  (col + length ds <= limit)%nat ->
  within limit (col + length ds) r = true ->
  within limit col (ds ++ r) = true.
Proof.
  induction ds as [|d ds IH]; intros col r Hd Hl Hr.
  - by rewrite Nat.add_0_r in Hr.
  - inversion Hd as [|? ? Hd1 Hds]; subst. cbn [app within length] in *.
    rewrite (proj2 (Z.eqb_neq d 10) Hd1).
    apply andb_true_intro. split; [apply Nat.leb_le; lia|].
    apply IH; [done | lia |]. by replace (S col + length ds)%nat with (col + S (length ds))%nat by lia.
Qed.

Lemma digits_no_newline ds : forallb is_digit ds = true -> Forall (fun c => c <> 10) ds.
Proof.
  rewrite forallb_forall. intros H. apply Forall_forall. intros d Hd.
  apply list_elem_of_In, H in Hd. unfold is_digit in Hd. lia.
Qed.

Lemma cdata_text_within bs : forall ll col,
  Forall (fun c => 0 <= c < 256) bs -> bs <> [] ->
  ll <= 76 -> (Z.of_nat col <= ll + 4) ->
  within 80 col (cdata_text bs ll ++ [125]) = true.
Proof.
  induction bs as [|c r IH]; intros ll col Hb Hne Hll Hcol; [done|].
  inversion Hb as [|? ? Hc Hr]; subst.
  destruct (fmt_d_facts c Hc) as (Hd & _ & Hl).
  cbn [cdata_text]. cbv zeta.
  set (k := if 99 <? c then 4 else if 9 <? c then 3 else 2).
  assert (Hk : Z.of_nat (length (fmt_d c)) = k - 1).
  { subst k. rewrite Hl. destruct (99 <? c); [lia|]. destruct (9 <? c); lia. }
  assert (Hk4 : 2 <= k <= 4).
  { subst k. destruct (99 <? c); [lia|]. destruct (9 <? c); lia. }
  rewrite <- !app_assoc.
  assert (G : forall col' ll', ll' <= 76 -> Z.of_nat col' + k <= ll' + 4 + k ->
              ll' + k <= 76 \/ (col' = 0%nat /\ ll' = - k) ->
              within 80 col'
                (fmt_d c ++ (match r with [] => [] | _ => [44] end)
                 ++ cdata_text r (ll' + k) ++ [125]) = true).
  { intros col' ll' Hll' Hcol' Hcase.
    apply within_app; [by apply digits_no_newline | lia |].
    destruct r as [|c' r'].
    - cbn [app cdata_text within]. change (125 =? 10) with false. cbv iota.
      rewrite andb_true_r. apply Nat.leb_le. lia.
    - cbn [app within]. change (44 =? 10) with false. cbv iota.
      apply andb_true_intro. split; [apply Nat.leb_le; lia|].
      apply IH; [done | done | lia | lia]. }
  destruct (Z.leb_spec 77 (ll + k)) as [Hw|Hw].
  - cbn [app within]. change (10 =? 10) with true. cbv iota.
    replace 0 with (- k + k) at 1 by lia. apply G; lia.
  - cbn [app]. apply G; lia.
Qed.

Lemma crc_printf_digits g v w :
  buffered g w -> 0 <= v < 256 ->
  exists w', crc_printf g true (fmt_d v) w = Some (tt, w')
    /\ code_file w' = code_file w ++ fmt_d v
    /\ buffered g w'
    /\ keeps w w'.
Proof.
  intros Hinv Hv. destruct (fmt_d_facts v Hv) as (Hd & _ & Hl).
  destruct (crc_vprintf_buffered g true (fmt_d v) w Hinv) as (w' & E & C & I & _ & K).
  { by apply digits_nonul. }
  { destruct (99 <? v); [lia|]. destruct (9 <? v); lia. }
  by exists w'.
Qed.

Lemma write_cdata_loop_run g a s e fuel : forall p ll w,
  buffered g w -> 0 <= e <= Z.of_nat (length s) ->
  e <= Z.of_nat (fuel + p) ->
  exists w', write_cdata_loop g a fuel s e p ll w = Some (tt, w')
    /\ code_file w'
       = code_file w ++ cdata_text (to_uchar <$> drop p (take (Z.to_nat e) s)) ll
    /\ buffered g w'
    /\ keeps w w'.
Proof.
  induction fuel as [|fuel IH]; intros p ll w Hinv He Hf.
  - exists w. rewrite drop_ge by (rewrite length_take; lia).
    cbn. rewrite app_nil_r. split; [done|]. split; [done|]. split; [done | apply keeps_refl].
  - cbn [write_cdata_loop]. destruct (Z.ltb_spec (Z.of_nat p) e) as [Hp|Hp].
    2:{ exists w. rewrite drop_ge by (rewrite length_take; lia).
        cbn. rewrite app_nil_r. split; [done|]. split; [done|].
        split; [done | apply keeps_refl]. }
    destruct (lookup_lt_is_Some_2 s p) as [b Hb]; [lia|].
    assert (Hd : drop p (take (Z.to_nat e) s) = b :: drop (S p) (take (Z.to_nat e) s)).
    { apply drop_S. rewrite lookup_take_lt by lia. exact Hb. }
    rewrite Hd. cbn [fmap list_fmap cdata_text]. cbv zeta.
    unfold uchar_at at 1. rewrite Hb.
    erewrite bind_Some by reflexivity.
    set (c := to_uchar b). pose proof (to_uchar_range b) as Hc. fold c in Hc.
    set (k := if 99 <? c then 4 else if 9 <? c then 3 else 2).
    replace (if 99 <? c then ll + 4 else if 9 <? c then ll + 3 else ll + 2)
      with (ll + k) by (subst k; destruct (99 <? c); [done|]; by destruct (9 <? c)).
    assert (exists w1,
      (if 77 <=? ll + k then crc_puts g [10];; mret 0 else mret (ll + k)) w
      = Some ((if 77 <=? ll + k then 0 else ll + k), w1)
      /\ code_file w1 = code_file w ++ (if 77 <=? ll + k then [10] else [])
      /\ buffered g w1 /\ keeps w w1) as (w1 & E1 & C1 & I1 & K1).
    { destruct (77 <=? ll + k).
      - destruct (crc_puts_run g [10] w) as (w1 & E & C & B & Sz & K).
        exists w1. erewrite bind_Some by exact E. split; [done|]. split; [done|].
        split; [by eapply buffered_frame | done].
      - exists w. rewrite app_nil_r. split; [done|]. split; [done|].
        split; [done | apply keeps_refl]. }
    erewrite bind_Some by exact E1.
    destruct (crc_printf_digits g c w1 I1 Hc) as (w2 & E2 & C2 & I2 & K2).
    erewrite bind_Some by exact E2.
    assert (exists w3,
      (if Z.of_nat (S p) <? e then crc_putc g a 44 else mret tt) w2 = Some (tt, w3)
      /\ code_file w3
         = code_file w2
           ++ (match to_uchar <$> drop (S p) (take (Z.to_nat e) s) with
               | [] => [] | _ => [44] end)
      /\ buffered g w3 /\ keeps w2 w3) as (w3 & E3 & C3 & I3 & K3).
    { assert (Hlen : length (to_uchar <$> drop (S p) (take (Z.to_nat e) s))
                     = (Z.to_nat e - S p)%nat).
      { rewrite length_fmap, length_drop, length_take. lia. }
      destruct (Z.ltb_spec (Z.of_nat (S p)) e) as [Hq|Hq].
      - destruct (crc_putc_run g a 44 w2) as (w3 & E & C & B & Sz & K).
        exists w3. split; [done|]. split; [|split; [by eapply buffered_frame | done]].
        rewrite C. destruct (to_uchar <$> drop (S p) (take (Z.to_nat e) s)); [|done].
        simpl in Hlen. lia.
      - exists w2. split; [done|]. split; [|split; [done | apply keeps_refl]].
        destruct (to_uchar <$> drop (S p) (take (Z.to_nat e) s)); [by rewrite app_nil_r|].
        simpl in Hlen. lia. }
    erewrite bind_Some by exact E3.
    destruct (IH (S p) (if 77 <=? ll + k then 0 else ll + k) w3 I3 He) as (w4 & E4 & C4 & I4 & K4);
      [lia|].
    exists w4. split; [exact E4|]. split; [|split; [done|]].
    + rewrite C4, C3, C2, C1. by rewrite <- !app_assoc.
    + eapply keeps_trans; [|exact K4]. eapply keeps_trans; [|exact K3].
      eapply keeps_trans; [exact K1 | exact K2].
Qed.

Lemma write_cdata_run g a s length w :
  varused_test w = 0 -> write_sourceview w = false -> buffered g w ->
  0 <= length <= Z.of_nat (List.length s) ->
  exists w', write_cdata g a s length w = Some (tt, w')
    /\ code_file w'
       = code_file w ++ [123] ++ cdata_text (to_uchar <$> take (Z.to_nat length) s) 1 ++ [125]
    /\ buffered g w'
    /\ keeps w w'.
Proof.
  intros Hv Hsv Hinv Hl. unfold write_cdata.
  erewrite bind_Some by reflexivity. rewrite Hv. cbn [Z.eqb negb].
  erewrite bind_Some by reflexivity. rewrite Hsv.
  destruct (Z.eqb_spec length (-1)); [lia|].
  destruct (Z.ltb_spec length (-1)); [lia|].
  destruct (crc_putc_run g a 123 w) as (w1 & E1 & C1 & B1 & S1 & K1).
  erewrite bind_Some by exact E1.
  destruct (write_cdata_loop_run g a s length (Z.to_nat length) 0 1 w1)
    as (w2 & E2 & C2 & I2 & K2); [by eapply buffered_frame | done | lia |].
  erewrite bind_Some by exact E2.
  destruct (crc_putc_run g a 125 w2) as (w3 & E3 & C3 & B3 & S3 & K3).
  exists w3. split; [exact E3|]. split; [|split; [by eapply buffered_frame|]].
  - rewrite C3, C2, C1. rewrite drop_0. by rewrite <- !app_assoc.
  - eapply keeps_trans; [exact K1|]. eapply keeps_trans; [exact K2 | exact K3].
Qed.

(** [write_cdata] writes an initialiser that reads back as the bytes it was
    given: an opening brace, the first [length] bytes of the array as
    unsigned decimal numbers separated by commas, a closing brace; the
    header file and the other members of the writer stay as they are.
    This holds for a writer whose [crc_printf] has its block buffer; on a
    new writer with merge-back data the first number makes the buffer
    grow, and the call is undefined. *)
Theorem write_cdata_reads_back g a s length w :
  varused_test w = 0 -> write_sourceview w = false -> buffered g w ->
  0 <= length <= Z.of_nat (List.length s) ->
  exists w' out,
    write_cdata g a s length w = Some (tt, w')
    /\ code_file w' = code_file w ++ out
    /\ read_initializer out = Some (to_uchar <$> take (Z.to_nat length) s)
    /\ keeps w w'.
Proof.
  intros Hv Hsv Hinv Hl.
  destruct (write_cdata_run g a s length w Hv Hsv Hinv Hl) as (w' & E & C & _ & K).
  exists w', ([123] ++ cdata_text (to_uchar <$> take (Z.to_nat length) s) 1 ++ [125]).
  split; [exact E|]. split; [exact C|]. split; [|exact K].
  cbn [app read_initializer].
  destruct (to_uchar <$> take (Z.to_nat length) s) as [|c r] eqn:Eb; [done|].
  apply cdata_text_read; [|done]. rewrite <- Eb.
  apply Forall_fmap, Forall_forall. intros b _. apply to_uchar_range.
Qed.

Lemma write_cdata_reads_back_witness :
  exists w' out,
    write_cdata project_tagging 0 [1; 2; 200] 3 writer_started = Some (tt, w')
    /\ code_file w' = code_file writer_started ++ out
    /\ read_initializer out = Some (to_uchar <$> take (Z.to_nat 3) [1; 2; 200])
    /\ keeps writer_started w'.
Proof.
  apply write_cdata_reads_back;
    [reflexivity | reflexivity | exact buffered_started | simpl; lia].
Defined.

(** No line of the initialiser that [write_cdata] writes is longer than 80
    bytes, for a writer whose [crc_printf] has its block buffer. *)
Theorem write_cdata_line_length g a s length w :
  varused_test w = 0 -> write_sourceview w = false -> buffered g w ->
  0 <= length <= Z.of_nat (List.length s) ->
  exists w' out,
    write_cdata g a s length w = Some (tt, w')
    /\ code_file w' = code_file w ++ out
    /\ within 80 0 out = true.
Proof.
  intros Hv Hsv Hinv Hl.
  destruct (write_cdata_run g a s length w Hv Hsv Hinv Hl) as (w' & E & C & _ & K).
  exists w', ([123] ++ cdata_text (to_uchar <$> take (Z.to_nat length) s) 1 ++ [125]).
  split; [exact E|]. split; [exact C|].
  cbn [app within]. change (123 =? 10) with false. cbv iota.
  destruct (to_uchar <$> take (Z.to_nat length) s) as [|c r] eqn:Eb; [done|].
  apply cdata_text_within; [|done|lia|lia]. rewrite <- Eb.
  apply Forall_fmap, Forall_forall. intros b _. apply to_uchar_range.
Qed.

Lemma write_cdata_line_length_witness :
  exists w' out,
    write_cdata project_tagging 0 (repeat 200 40) 40 writer_started = Some (tt, w')
    /\ code_file w' = code_file writer_started ++ out
    /\ within 80 0 out = true.
Proof.
  apply write_cdata_line_length;
    [reflexivity | reflexivity | exact buffered_started | simpl; lia].
Defined.

Example write_cdata_three_bytes :
  code_file <$> exec (write_cdata project_plain 0 [1; 2; 200] 3) Fd_Code_Writer_new
  = Some (bytes "{1,2,200}")
  /\ code_file <$> exec (write_cdata project_tagging 0 [1; 2; 200] 3) writer_started
     = Some (code_file writer_started ++ bytes "{1,2,200}")
  /\ exec (write_cdata project_tagging 0 [1; 2; 200] 3) Fd_Code_Writer_new = None.
Proof. by vm_compute. Qed.

(** ** [unique_id] *)

Lemma strcmp_cstr_r a : forall b, strcmp a (cstr b) = strcmp a b.
Proof.
  induction a as [|x a IH]; intros [|y b]; simpl; try done.
  - by destruct (Z.eqb_spec y 0) as [->|].
  - destruct (Z.eqb_spec y 0) as [->|Hy]; cbn [peek hd tail].
    + by destruct (x =? 0).
    + destruct (x =? 0); [done|]. destruct (x =? y); [apply IH | done].
Qed.

Lemma strcmp_cstr_l a : forall b, strcmp (cstr a) b = strcmp a b.
Proof.
  induction a as [|x a IH]; intros b; simpl; [done|].
  destruct (Z.eqb_spec x 0) as [->|Hx]; [done|]. simpl.
  rewrite (proj2 (Z.eqb_neq x 0) Hx). by rewrite IH.
Qed.

Lemma id_owner_cstr b p : id_owner (cstr b) p = id_owner b p.
Proof.
  induction p as [|text object l IHl r IHr]; simpl; [done|].
  by rewrite strcmp_cstr_l, IHl, IHr.
Qed.

Lemma id_walk_owned b o p text :
  id_walk b o p = Id_Owned text -> id_owner b p = Some o /\ cstr text = cstr b.
Proof.
  induction p as [|t object l IHl r IHr]; simpl; [done|].
  destruct (Z.eqb_spec (strcmp b t) 0) as [E|_].
  - destruct (Z.eqb_spec object o) as [->|_]; [|done].
    intros [= <-]. split; [done|]. symmetry. by apply strcmp_eq.
  - destruct (strcmp b t <? 0).
    + destruct (id_walk b o l) eqn:El; try done; try (intros [= <-]; by apply IHl).
    + destruct (id_walk b o r) eqn:Er; try done; try (intros [= <-]; by apply IHr).
Qed.

Lemma id_walk_taken b o p :
  id_walk b o p = Id_Taken -> exists x, id_owner b p = Some x /\ x <> o.
Proof.
  induction p as [|t object l IHl r IHr]; simpl; [done|].
  destruct (Z.eqb_spec (strcmp b t) 0) as [E|_].
  - destruct (Z.eqb_spec object o) as [->|Ho]; [done|]. intros _. by exists object.
  - destruct (strcmp b t <? 0).
    + destruct (id_walk b o l) eqn:El; try done; try (intros _; by apply IHl).
    + destruct (id_walk b o r) eqn:Er; try done; try (intros _; by apply IHr).
Qed.

Lemma id_walk_new b o p : forall p',
  id_walk b o p = Id_New p' ->
  id_owner b p = None /\ id_owner b p' = Some o /\ id_size p' = S (id_size p)
  /\ forall c x, id_owner c p = Some x -> id_owner c p' = Some x.
Proof.
  induction p as [|t object l IHl r IHr]; simpl; intros p'.
  - intros [= <-]. simpl. by rewrite strcmp_cstr_r, strcmp_refl.
  - destruct (strcmp b t =? 0) eqn:E0.
    { by destruct (object =? o). }
    destruct (strcmp b t <? 0) eqn:E1.
    + destruct (id_walk b o l) as [| |l']; try done. intros [= <-].
      destruct (IHl l' eq_refl) as (H1 & H2 & H3 & H4).
      simpl. rewrite E0, E1. split; [done|]. split; [done|]. split; [lia|].
      intros c x. destruct (strcmp c t =? 0); [done|].
      destruct (strcmp c t <? 0); [apply H4 | done].
    + destruct (id_walk b o r) as [| |r']; try done. intros [= <-].
      destruct (IHr r' eq_refl) as (H1 & H2 & H3 & H4).
      simpl. rewrite E0, E1. split; [done|]. split; [done|]. split; [lia|].
      intros c x. destruct (strcmp c t =? 0); [done|].
      destruct (strcmp c t <? 0); [done | apply H4].
Qed.

Lemma id_owner_owned b o p :
  id_owner b p = Some o -> exists text, id_walk b o p = Id_Owned text /\ cstr text = cstr b.
Proof.
  intros H. destruct (id_walk b o p) as [text| |p'] eqn:E.
  - exists text. split; [done|]. by apply id_walk_owned in E as [_ ?].
  - apply id_walk_taken in E as (x & Hx & Hne). congruence.
  - apply id_walk_new in E as (Hn & _). congruence.
Qed.

Lemma id_owner_taken b o p x :
  id_owner b p = Some x -> x <> o -> id_walk b o p = Id_Taken.
Proof.
  intros H Hne. destruct (id_walk b o p) as [text| |p'] eqn:E.
  - apply id_walk_owned in E as [? _]. congruence.
  - done.
  - apply id_walk_new in E as (Hn & _). congruence.
Qed.

Lemma id_grows_refl p : id_grows p p.
Proof. by split. Qed.

Lemma id_grows_trans p1 p2 p3 : id_grows p1 p2 -> id_grows p2 p3 -> id_grows p1 p3.
Proof. intros [S1 H1] [S2 H2]. split; [lia | auto]. Qed.

Lemma unique_id_loop_result base o root fuel : forall buffer which id root',
  unique_id_loop fuel base buffer o which root = Some (id, root') ->
  (id = cstr buffer \/ exists w, id = cstr (base ++ fmt_x w))
  /\ id_owner id root' = Some o
  /\ id_grows root root'.
Proof.
  induction fuel as [|fuel IH]; intros buffer which id root'; [done|].
  cbn [unique_id_loop]. destruct (id_walk buffer o root) as [text| |p'] eqn:E.
  - intros [= <- <-]. apply id_walk_owned in E as [Ho Et].
    rewrite Et, id_owner_cstr. split; [by left|]. split; [done | apply id_grows_refl].
  - cbv zeta. destruct (2 ^ 31 <=? which + 1); [done|].
    destruct (128 <? _); [done|]. intros H.
    destruct (IH _ _ _ _ H) as (Hid & Ho & Hg). split; [|done].
    right. destruct Hid as [->|Hid]; [by eexists | done].
  - intros [= <- <-]. apply id_walk_new in E as (_ & Ho & Hs & Hk).
    rewrite id_owner_cstr. split; [by left|]. split; [done|]. split; [lia | done].
Qed.

Lemma unique_id_loop_stable base o root fuel1 : forall buffer which id root1 fuel2 root2,
  unique_id_loop fuel1 base buffer o which root = Some (id, root1) ->
  id_grows root1 root2 -> (fuel1 <= fuel2)%nat ->
  unique_id_loop fuel2 base buffer o which root2 = Some (id, root2).
Proof.
  induction fuel1 as [|fuel1 IH]; intros buffer which id root1 fuel2 root2 E Hg Hf; [done|].
  destruct fuel2 as [|fuel2]; [lia|].
  pose proof (unique_id_loop_result _ _ _ _ _ _ _ _ E) as (_ & _ & [_ Hg0]).
  cbn [unique_id_loop] in *. destruct (id_walk buffer o root) as [text| |p'] eqn:Ew.
  - injection E as <- <-. apply id_walk_owned in Ew as [Ho Et].
    destruct (id_owner_owned buffer o root2) as (text2 & -> & Et2); [by apply Hg|].
    by rewrite Et, Et2.
  - apply id_walk_taken in Ew as (x & Hx & Hne).
    rewrite (id_owner_taken buffer o root2 x); [|by apply Hg, Hg0|done].
    cbv zeta in *. destruct (2 ^ 31 <=? which + 1); [done|].
    destruct (128 <? _); [done|]. eapply IH; [exact E | done | lia].
  - injection E as <- <-. apply id_walk_new in Ew as (_ & Ho & _).
    destruct (id_owner_owned buffer o root2) as (text2 & -> & Et2); [by apply Hg|].
    by rewrite Et2.
Qed.

Lemma unique_id_result o type name label root id root' :
  unique_id o type name label root = Some (id, root') ->
  id_owner id root' = Some o /\ id_grows root root'.
Proof.
  unfold unique_id. destruct (id_base type name label) as [base|]; [|done].
  intros E. by apply unique_id_loop_result in E as (_ & ? & ?).
Qed.

Lemma unique_id_again o type name label root id root1 root2 :
  unique_id o type name label root = Some (id, root1) ->
  id_grows root1 root2 ->
  unique_id o type name label root2 = Some (id, root2).
Proof.
  unfold unique_id. destruct (id_base type name label) as [base|]; [|done].
  intros E Hg. eapply unique_id_loop_stable; [exact E | done |].
  apply unique_id_loop_result in E as (_ & _ & [? _]). destruct Hg. lia.
Qed.

Lemma unique_ids_result rqs : forall root ids root',
  unique_ids rqs root = Some (ids, root') ->
  id_grows root root'
  /\ forall i rq id, rqs !! i = Some rq -> ids !! i = Some id ->
       id_owner id root' = Some (rq_object rq)
       /\ unique_id (rq_object rq) (rq_type rq) (rq_name rq) (rq_label rq) root'
          = Some (id, root').
Proof.
  induction rqs as [|rq rest IH]; intros root ids root'; simpl.
  - intros [= <- <-]. split; [apply id_grows_refl | done].
  - destruct (unique_id _ _ _ _ root) as [[id1 root1]|] eqn:E1; [|done].
    destruct (unique_ids rest root1) as [[ids2 root2]|] eqn:E2; [|done].
    intros [= <- <-]. destruct (IH _ _ _ E2) as (Hg2 & Hi).
    pose proof (unique_id_result _ _ _ _ _ _ _ E1) as (Ho1 & Hg1).
    split; [by eapply id_grows_trans|].
    intros [|i] rq' id; simpl.
    + intros [= <-] [= <-]. split; [by apply Hg2 | by eapply unique_id_again].
    + apply Hi.
Qed.

(** Two calls of [unique_id] for different objects never give the same
    identifier, whatever was asked before, between and after them. *)
Theorem unique_ids_distinct rqs root ids root' i j rq_i rq_j id_i id_j :
  unique_ids rqs root = Some (ids, root') ->
  rqs !! i = Some rq_i -> rqs !! j = Some rq_j ->
  ids !! i = Some id_i -> ids !! j = Some id_j ->
  rq_object rq_i <> rq_object rq_j ->
  id_i <> id_j.
Proof.
  intros E Hi Hj Ii Ij Hne Heq. subst id_j.
  destruct (unique_ids_result _ _ _ _ E) as (_ & H).
  destruct (H i rq_i id_i Hi Ii) as [H1 _]. destruct (H j rq_j id_i Hj Ij) as [H2 _].
  congruence.
Qed.

(** A call of [unique_id] that repeats an earlier one gives the identifier
    the earlier one gave. *)
Theorem unique_ids_stable rqs root ids root' i j rq id_i id_j :
  unique_ids rqs root = Some (ids, root') ->
  rqs !! i = Some rq -> rqs !! j = Some rq ->
  ids !! i = Some id_i -> ids !! j = Some id_j ->
  id_i = id_j.
Proof.
  intros E Hi Hj Ii Ij.
  destruct (unique_ids_result _ _ _ _ E) as (_ & H).
  destruct (H i rq id_i Hi Ii) as [_ H1]. destruct (H j rq id_j Hj Ij) as [_ H2].
  congruence.
Qed.


Lemma unique_ids_distinct_witness : bytes "cb_quit" <> bytes "cb_quit1".
Proof.
  eapply (unique_ids_distinct id_calls INull _ _ 0 1);
    [vm_compute; reflexivity | reflexivity | reflexivity | reflexivity | reflexivity |].
  vm_compute. discriminate.
Defined.

Lemma unique_ids_stable_witness : bytes "cb_quit" = bytes "cb_quit".
Proof.
  eapply (unique_ids_stable id_calls INull _ _ 0 2);
    [vm_compute; reflexivity | reflexivity | reflexivity | reflexivity | reflexivity].
Defined.

Example unique_ids_quit :
  fst <$> unique_ids id_calls INull
  = Some [bytes "cb_quit"; bytes "cb_quit1"; bytes "cb_quit"].
Proof. by vm_compute. Qed.

(** *** The hexadecimal suffix *)

Lemma hex_value_snoc ds c :
  hex_value (ds ++ [c]) = 16 * hex_value ds + (if c <? 58 then c - 48 else c - 87).
Proof. unfold hex_value. by rewrite fold_left_app. Qed.

Lemma digits_of_hex fuel : forall n acc,
  (0 < fuel)%nat -> 0 <= n < 2 ^ Z.of_nat fuel ->
  exists ds, digits_of fuel 16 n acc = ds ++ acc /\ ds <> []
    /\ hex_value ds = n /\ forallb is_lower_hex ds = true.
Proof.
  induction fuel as [|fuel IH]; intros n acc Hf Hn; [lia|].
  cbn [digits_of]. cbv zeta.
  pose proof (Z.mod_pos_bound n 16 ltac:(lia)) as Hd.
  pose proof (Z.div_mod n 16 ltac:(lia)) as Hdm.
  set (d := n mod 16) in *.
  set (c := if d <? 10 then 48 + d else 87 + d).
  assert (Hc : (if c <? 58 then c - 48 else c - 87) = d /\ is_lower_hex c = true).
  { subst c. unfold is_lower_hex. destruct (Z.ltb_spec d 10).
    - destruct (Z.ltb_spec (48 + d) 58); [|lia]. split; [lia|].
      apply orb_true_iff. left. apply andb_true_iff. lia.
    - destruct (Z.ltb_spec (87 + d) 58); [lia|]. split; [lia|].
      apply orb_true_iff. right. apply andb_true_iff. lia. }
  destruct Hc as [Hv Hh].
  destruct (Z.eqb_spec (n / 16) 0) as [E0|E0].
  - exists [c]. split; [done|]. split; [done|]. split.
    + unfold hex_value. simpl. lia.
    + simpl. by rewrite Hh.
  - assert (Hq : 0 < n / 16) by (pose proof (Z.div_pos n 16); lia).
    assert (Hpow : 2 ^ Z.of_nat (S fuel) = 2 * 2 ^ Z.of_nat fuel).
    { rewrite Nat2Z.inj_succ, Z.pow_succ_r; lia. }
    assert (Hfuel : (0 < fuel)%nat).
    { destruct fuel; [|lia]. simpl in Hn. lia. }
    destruct (IH (n / 16) (c :: acc) Hfuel) as (ds & E & Hne & Hval & Hall).
    { split; [lia|]. apply Z.div_lt_upper_bound; lia. }
    exists (ds ++ [c]). split; [by rewrite E, <- app_assoc|].
    split; [by destruct ds|]. split.
    + rewrite hex_value_snoc, Hval, Hv. lia.
    + rewrite forallb_app, Hall. simpl. by rewrite Hh.
Qed.

Lemma digits_of_length fuel : forall n acc k,
  0 <= n < 16 ^ Z.of_nat k -> (1 <= k)%nat ->
  (length (digits_of fuel 16 n acc) <= k + length acc)%nat.
Proof.
  induction fuel as [|fuel IH]; intros n acc k Hn Hk; [simpl; lia|].
  cbn [digits_of]. cbv zeta.
  destruct (Z.eqb_spec (n / 16) 0) as [E0|E0]; [simpl; lia|].
  assert (Hq : 0 < n / 16) by (pose proof (Z.div_pos n 16); lia).
  destruct k as [|[|k]]; [lia| |].
  - change (16 ^ Z.of_nat 1) with 16 in Hn. rewrite Z.div_small in Hq; lia.
  - etrans; [apply (IH _ _ (S k)); [|lia]|simpl; lia].
    split; [lia|]. apply Z.div_lt_upper_bound; [lia|].
    replace (Z.of_nat (S (S k))) with (Z.succ (Z.of_nat (S k))) in Hn by lia.
    rewrite Z.pow_succ_r in Hn; lia.
Qed.

Lemma fmt_x_facts w :
  0 <= w < 2 ^ 32 ->
  fmt_x w <> [] /\ hex_value (fmt_x w) = w
  /\ forallb is_lower_hex (fmt_x w) = true /\ (length (fmt_x w) <= 8)%nat.
Proof.
  intros Hw. unfold fmt_x, unsigned_digits. rewrite Z.mod_small by done.
  destruct (digits_of_hex (S (Z.to_nat (Z.log2 w))) w []) as (ds & E & Hne & Hv & Hh).
  { lia. }
  { split; [lia|]. pose proof (Z.log2_nonneg w).
    replace (Z.of_nat (S (Z.to_nat (Z.log2 w)))) with (Z.succ (Z.log2 w)) by lia.
    destruct (Z.eq_dec w 0) as [->|]; [done|]. apply Z.log2_spec. lia. }
  rewrite app_nil_r in E. rewrite E. split; [done|]. split; [done|]. split; [done|].
  rewrite <- E.
  pose proof (digits_of_length (S (Z.to_nat (Z.log2 w))) w [] 8) as H. simpl length in H.
  apply H; [|lia]. change (16 ^ Z.of_nat 8) with (2 ^ 32). lia.
Qed.

Lemma lower_hex_id_char c : is_lower_hex c = true -> id_char c /\ c <> 0.
Proof.
  unfold is_lower_hex. intros H.
  rewrite !orb_true_iff, !andb_true_iff, !Z.leb_le in H.
  unfold id_char, is_id, char_val.
  destruct (Z.ltb_spec c 128); [|lia]. split; [|lia].
  rewrite !orb_true_iff, !andb_true_iff, !Z.leb_le. lia.
Qed.

Lemma id_char_nonzero c : id_char c -> c <> 0.
Proof. intros H ->. done. Qed.

Lemma fmt_x_id_chars w : Forall id_char (fmt_x w).
Proof.
  destruct (fmt_x_facts (w mod 2 ^ 32)) as (_ & _ & H & _).
  { apply Z.mod_pos_bound. lia. }
  unfold fmt_x in *. rewrite Z.mod_mod in H by lia.
  rewrite forallb_forall in H. apply Forall_forall. intros c Hc.
  by apply lower_hex_id_char, H, list_elem_of_In.
Qed.

(** *** The base of the identifier *)

Lemma copy_id_facts room : forall n,
  Forall id_char (copy_id room n) /\ (length (copy_id room n) <= room)%nat.
Proof.
  induction room as [|room IH]; intros [|c r]; simpl; try (split; [done | lia]).
  destruct (is_id (char_val c)) eqn:E; [|split; [done | simpl; lia]].
  destruct (IH r) as [H1 H2]. split; [by constructor | simpl; lia].
Qed.

Lemma id_chars_nonul l : Forall id_char l -> nonul l.
Proof. intros H. eapply Forall_impl; [exact H|]. intros c. apply id_char_nonzero. Qed.

Lemma id_base_facts type name label base :
  id_base type name label = Some base ->
  exists rest, base = cstr type ++ [95] ++ rest /\ Forall id_char rest
    /\ nonul base
    /\ ((length (cstr type) <= 118)%nat -> (length base <= 119)%nat).
Proof.
  unfold id_base. cbv zeta.
  destruct (126 <? length (cstr type))%nat; [done|]. intros [= <-].
  set (n := match name with
            | Some n' => if peek n' =? 0 then label else name
            | None => label end).
  set (rest := match n with
               | Some n' => if peek n' =? 0 then []
                            else copy_id (119 - (length (cstr type) + 1)) (skip_non_id n')
               | None => [] end).
  assert (Hr : Forall id_char rest
               /\ (length rest <= 119 - (length (cstr type) + 1))%nat).
  { subst rest. destruct n as [n'|]; [|split; [done | simpl; lia]].
    destruct (peek n' =? 0); [split; [done | simpl; lia]|]. apply copy_id_facts. }
  destruct Hr as [Hr Hl]. clearbody rest.
  exists rest. split; [done|]. split; [done|]. split.
  - apply nonul_app; [apply nonul_cstr|]. constructor; [done|]. by apply id_chars_nonul.
  - intros Ht. rewrite !length_app. simpl. lia.
Qed.


(** *** The search comes to an end *)

Lemma id_texts_length p : length (id_texts p) = id_size p.
Proof.
  induction p as [|t o l IHl r IHr]; simpl; [done|].
  rewrite length_app. simpl. lia.
Qed.

Lemma id_owner_texts b p x :
  id_owner b p = Some x -> cstr b ∈ cstr <$> id_texts p.
Proof.
  induction p as [|t o l IHl r IHr]; simpl; [done|].
  rewrite fmap_app, fmap_cons, elem_of_app, elem_of_cons.
  destruct (Z.eqb_spec (strcmp b t) 0) as [E|_].
  - intros _. right. left. by apply strcmp_eq.
  - destruct (strcmp b t <? 0); intros H; [left; by apply IHl | right; right; by apply IHr].
Qed.

Lemma id_candidate_nonul base w : nonul base -> nonul (id_candidate base w).
Proof.
  intros Hb. unfold id_candidate. apply nonul_app; [done|].
  destruct (w =? 0); [constructor|]. apply id_chars_nonul, fmt_x_id_chars.
Qed.

Lemma id_candidate_inj base w1 w2 :
  0 <= w1 < 2 ^ 32 -> 0 <= w2 < 2 ^ 32 ->
  id_candidate base w1 = id_candidate base w2 -> w1 = w2.
Proof.
  intros H1 H2 E. unfold id_candidate in E. apply app_inv_head in E.
  destruct (fmt_x_facts w1 H1) as (N1 & V1 & _). destruct (fmt_x_facts w2 H2) as (N2 & V2 & _).
  destruct (Z.eqb_spec w1 0) as [->|], (Z.eqb_spec w2 0) as [->|]; try done.
  congruence.
Qed.

Lemma id_pigeonhole base root n :
  nonul base -> Z.of_nat n <= 2 ^ 32 ->
  (forall j, 0 <= j < Z.of_nat n -> is_Some (id_owner (id_candidate base j) root)) ->
  (n <= id_size root)%nat.
Proof.
  intros Hb Hn Hall.
  rewrite <- id_texts_length, <- (length_fmap cstr (id_texts root)).
  replace n with (length (id_candidate base <$> seqZ 0 (Z.of_nat n)))
    by (rewrite length_fmap, length_seqZ; lia).
  apply submseteq_length, NoDup_submseteq.
  - apply NoDup_fmap_2_strong; [|apply NoDup_seqZ].
    intros x y Hx Hy. apply elem_of_seqZ in Hx, Hy. apply id_candidate_inj; lia.
  - intros c Hc. apply list_elem_of_fmap in Hc as (j & -> & Hj).
    apply elem_of_seqZ in Hj. destruct (Hall j) as [x Hx]; [lia|].
    apply id_owner_texts in Hx. by rewrite cstr_nonul in Hx by by apply id_candidate_nonul.
Qed.

Lemma unique_id_loop_defined base o root :
  nonul base -> (length base <= 119)%nat -> Z.of_nat (id_size root) < 2 ^ 31 - 1 ->
  forall fuel which buffer,
    0 <= which <= Z.of_nat (id_size root) ->
    buffer = id_candidate base which ->
    (forall j, 0 <= j < which -> is_Some (id_owner (id_candidate base j) root)) ->
    Z.of_nat (id_size root) < Z.of_nat fuel + which ->
    exists w root',
      unique_id_loop fuel base buffer o which root = Some (id_candidate base w, root').
Proof.
  intros Hb Hl Hs. induction fuel as [|fuel IH]; intros which buffer Hw -> Hall Hf; [lia|].
  cbn [unique_id_loop].
  pose proof (id_candidate_nonul base which Hb) as Hnn.
  destruct (id_walk (id_candidate base which) o root) as [text| |p'] eqn:E.
  - apply id_walk_owned in E as [_ Et]. exists which, root.
    by rewrite Et, cstr_nonul.
  - apply id_walk_taken in E as (x & Hx & _).
    assert (Hall' : forall j, 0 <= j < which + 1 ->
                      is_Some (id_owner (id_candidate base j) root)).
    { intros j Hj. destruct (Z.eq_dec j which) as [->|]; [by eexists | apply Hall; lia]. }
    pose proof (id_pigeonhole base root (Z.to_nat (which + 1)) Hb) as Hp.
    rewrite Z2Nat.id in Hp by lia. specialize (Hp ltac:(lia) Hall').
    cbv zeta. destruct (Z.leb_spec (2 ^ 31) (which + 1)); [lia|].
    destruct (fmt_x_facts (which + 1)) as (_ & _ & _ & Hlen); [lia|].
    destruct (Z.ltb_spec 128 (Z.of_nat (length (base ++ fmt_x (which + 1))) + 1)) as [Hov|_].
    { rewrite length_app in Hov. lia. }
    apply IH; [lia | | done | lia].
    unfold id_candidate. by destruct (Z.eqb_spec (which + 1) 0); [lia|].
  - exists which, p'. by rewrite cstr_nonul.
Qed.

(** [unique_id] comes back with an identifier, for any object and any name
    or label, when the type leaves room in the buffer (at most 118 bytes)
    and the tree has fewer than 2^31-1 nodes; the identifier is then held
    for the object, and what the tree held before it still holds. *)
Theorem unique_id_defined o type name label root :
  (length (cstr type) <= 118)%nat -> Z.of_nat (id_size root) < 2 ^ 31 - 1 ->
  exists id root',
    unique_id o type name label root = Some (id, root')
    /\ id_owner id root' = Some o
    /\ id_grows root root'.
Proof.
  intros Ht Hs.
  assert (exists base, id_base type name label = Some base) as [base Eb].
  { unfold id_base. destruct (Nat.ltb_spec 126 (length (cstr type))); [lia | by eexists]. }
  destruct (id_base_facts _ _ _ _ Eb) as (rest & _ & _ & Hnn & Hl).
  destruct (unique_id_loop_defined base o root Hnn (Hl Ht) Hs (S (id_size root)) 0 base)
    as (w & root' & E); [lia | unfold id_candidate; by rewrite app_nil_r | intros j; lia | lia |].
  assert (Eu : unique_id o type name label root = Some (id_candidate base w, root')).
  { unfold unique_id. by rewrite Eb. }
  exists (id_candidate base w), root'. split; [done|].
  by apply unique_id_result in Eu.
Qed.

Lemma unique_id_defined_witness :
  exists id root',
    unique_id 1000 (bytes "cb") (Some (bytes "quit")) None INull = Some (id, root')
    /\ id_owner id root' = Some 1000
    /\ id_grows INull root'.
Proof. apply unique_id_defined; [vm_compute; lia | vm_compute; reflexivity]. Defined.

(** The identifier [unique_id] gives starts with the type and an
    underscore, and when the type is made of identifier characters (letters,
    digits, underscore), so is all of the identifier. *)
Theorem unique_id_identifier o type name label root id root' :
  unique_id o type name label root = Some (id, root') ->
  Forall id_char (cstr type) ->
  Forall id_char id
  /\ exists rest, id = cstr type ++ [95] ++ rest.
Proof.
  unfold unique_id. destruct (id_base type name label) as [base|] eqn:Eb; [|done].
  intros E Ht. destruct (id_base_facts _ _ _ _ Eb) as (rest & -> & Hr & Hnn & _).
  apply unique_id_loop_result in E as (Hid & _).
  assert (Hbase : Forall id_char (cstr type ++ [95] ++ rest)).
  { apply Forall_app. split; [done|]. by constructor. }
  destruct Hid as [->|[w ->]].
  - rewrite cstr_nonul by done. split; [done | by eexists].
  - rewrite cstr_nonul.
    + split; [apply Forall_app; split; [done | apply fmt_x_id_chars]|].
      exists (rest ++ fmt_x w). by rewrite <- !app_assoc.
    + apply nonul_app; [done | apply id_chars_nonul, fmt_x_id_chars].
Qed.

Lemma unique_id_identifier_witness :
  Forall id_char (bytes "cb_quit")
  /\ exists rest, bytes "cb_quit" = cstr (bytes "cb") ++ [95] ++ rest.
Proof.
  eapply (unique_id_identifier 1000 (bytes "cb") (Some (bytes "quit")) None INull);
    [vm_compute; reflexivity | by repeat constructor].
Defined.


(** ** Writing blocks and reading them back *)

(** *** The CRC of a text does not depend on how it is cut *)

Lemma crc_stream_app a : forall ls b,
  crc_stream ls (a ++ b)
  = (fst (crc_stream ls a) ++ fst (crc_stream (snd (crc_stream ls a)) b),
     snd (crc_stream (snd (crc_stream ls a)) b)).
Proof.
  induction a as [|c a IH]; intros ls b; cbn [app crc_stream].
  - cbn [fst snd]. by destruct (crc_stream ls b).
  - destruct (ls && isspace c); [apply IH|].
    destruct (c =? 13); [apply IH|].
    rewrite IH. by destruct (crc_stream (c =? 10) a).
Qed.

Lemma no_cr_no_pair t : no_cr t -> no_cr_pair t = true.
Proof.
  induction 1 as [|c t Hc _ IH]; [done|]. cbn [no_cr_pair]. rewrite IH.
  by rewrite (proj2 (Z.eqb_neq c 13) Hc).
Qed.

Lemma crc_line_stream crc ls s :
  is_cstring s -> no_cr_pair s = true ->
  crc_line (crc, ls) s
  = (fold_left crc32 (fst (crc_stream ls s)) crc, snd (crc_stream ls s)).
Proof.
  intros Hs Hn. unfold crc_line, strlen. simpl.
  rewrite cstr_nonul by by apply is_cstring_nonul.
  rewrite Nat2Z.id. by apply crc_add_loop_stream.
Qed.

Lemma crc_lines_stream ps : forall crc ls,
  Forall is_cstring ps -> no_cr (concat ps) ->
  fold_left crc_line ps (crc, ls)
  = (fold_left crc32 (fst (crc_stream ls (concat ps))) crc,
     snd (crc_stream ls (concat ps))).
Proof.
  induction ps as [|p ps IH]; intros crc ls Hc Hn; [done|].
  inversion Hc as [|? ? Hp Hps]; subst. cbn [concat] in *.
  apply Forall_app in Hn as [Hn1 Hn2].
  cbn [fold_left]. rewrite crc_line_stream by (done || by apply no_cr_no_pair).
  rewrite IH by done. rewrite crc_stream_app. cbn [fst snd].
  by rewrite fold_left_app.
Qed.

Lemma crc_stream_ends_line t : forall ls,
  ends_line t = true -> t <> [] \/ ls = true -> snd (crc_stream ls t) = true.
Proof.
  induction t as [|c t IH]; intros ls He Hne.
  - by destruct Hne.
  - cbn [crc_stream]. destruct t as [|c' t'].
    + simpl in He. apply Z.eqb_eq in He as ->. by destruct ls.
    + assert (Hr : forall ls', snd (crc_stream ls' (c' :: t')) = true)
        by (intros ls'; apply IH; [done | by left]).
      destruct (ls && isspace c); [apply Hr|]. destruct (c =? 13); [apply Hr|].
      specialize (Hr (c =? 10)). by destruct (crc_stream (c =? 10) (c' :: t')).
Qed.


(** *** Reading the lines back *)

Lemma read_lines_fuel fuel1 : forall fuel2 f,
  (length f <= fuel1)%nat -> (length f <= fuel2)%nat ->
  read_lines fuel1 f = read_lines fuel2 f.
Proof.
  induction fuel1 as [|fuel1 IH]; intros fuel2 f H1 H2.
  - destruct f; [by destruct fuel2 | simpl in H1; lia].
  - destruct f as [|c f]; [by destruct fuel2|].
    destruct fuel2 as [|fuel2]; [simpl in H2; lia|]. cbn [read_lines].
    destruct (fgets 1022 (c :: f)) as [line rest] eqn:E.
    destruct (fgets_app _ _ _ _ E) as [Happ Hne].
    assert (line <> []) by (by apply Hne).
    assert (length (line ++ rest) = length (c :: f)) as Hlen by (by rewrite Happ).
    rewrite length_app in Hlen. f_equal. apply IH; destruct line; simpl in *; done || lia.
Qed.

Lemma ends_line_tail c t : ends_line (c :: t) = true -> ends_line t = true.
Proof. destruct t as [|c' t']; [done|]. done. Qed.

Lemma fgets_ends_line k : forall f r,
  f <> [] -> ends_line f = true ->
  fgets k (f ++ r) = (fst (fgets k f), snd (fgets k f) ++ r)
  /\ ends_line (snd (fgets k f)) = true.
Proof.
  induction k as [|k IH]; intros f r Hne He; [done|].
  destruct f as [|c f]; [done|]. cbn [app fgets].
  destruct (Z.eqb_spec c 10) as [->|Hc].
  - split; [done|]. by apply ends_line_tail in He.
  - assert (f <> []) as Hf by (intros ->; simpl in He; lia).
    destruct (IH f r Hf (ends_line_tail _ _ He)) as [E1 E2].
    rewrite E1. by destruct (fgets k f).
Qed.

Lemma read_lines_app fuel : forall t r,
  (length t <= fuel)%nat -> ends_line t = true ->
  read_lines (fuel + length r) (t ++ r) = read_lines fuel t ++ file_lines r.
Proof.
  induction fuel as [|fuel IH]; intros t r Hl He.
  - destruct t; [|simpl in Hl; lia]. simpl. apply read_lines_fuel; lia.
  - destruct t as [|c t].
    { simpl app. rewrite (read_lines_fuel (S fuel + length r) (length r)) by lia.
      done. }
    cbn [Nat.add read_lines app].
    destruct (fgets_ends_line 1022 (c :: t) r) as [E1 E2]; [done | done |].
    cbn [app] in E1. rewrite E1.
    destruct (fgets 1022 (c :: t)) as [line rest] eqn:E. cbn [fst snd] in *.
    destruct (fgets_app _ _ _ _ E) as [Happ Hne].
    assert (line <> []) by (by apply Hne).
    assert (length (line ++ rest) = length (c :: t)) as Hlen by (by rewrite Happ).
    rewrite length_app in Hlen. cbn [app]. f_equal.
    apply IH; [|done]. destruct line; simpl in *; done || lia.
Qed.

Lemma file_lines_app t r :
  ends_line t = true -> file_lines (t ++ r) = file_lines t ++ file_lines r.
Proof.
  intros He. unfold file_lines at 1 2. rewrite length_app.
  by apply read_lines_app.
Qed.

Lemma fgets_line k : forall body r,
  Forall (fun c => c <> 10) body -> (length body < k)%nat ->
  fgets k (body ++ [10] ++ r) = (body ++ [10], r).
Proof.
  induction k as [|k IH]; intros body r Hb Hl; [lia|].
  destruct body as [|c body]; [done|]. inversion Hb as [|? ? Hc Hb']; subst.
  cbn [app fgets]. rewrite (proj2 (Z.eqb_neq c 10) Hc).
  specialize (IH body r Hb' ltac:(simpl in Hl; lia)). cbn [app] in IH. by rewrite IH.
Qed.

Lemma file_lines_line body r :
  Forall (fun c => c <> 10) body -> (length body < 1022)%nat ->
  file_lines ((body ++ [10]) ++ r) = (body ++ [10]) :: file_lines r.
Proof.
  intros Hb Hl. unfold file_lines at 1. rewrite <- app_assoc.
  destruct (length (body ++ [10] ++ r)) as [|n] eqn:En.
  { rewrite length_app in En. simpl in En. lia. }
  destruct (body ++ [10] ++ r) as [|c f] eqn:Ef; [by destruct body|].
  cbn [read_lines]. rewrite <- Ef, (fgets_line 1022 body r Hb Hl). f_equal.
  apply read_lines_fuel; [|done].
  rewrite <- Ef, !length_app in En. simpl in En. lia.
Qed.

(** *** The tag marker *)

Lemma is_prefix_app p : forall r, is_prefix p (p ++ r) = true.
Proof. induction p as [|x p IH]; intros r; simpl; [done|]. by rewrite Z.eqb_refl, IH. Qed.

Lemma is_prefix_mono p : forall l c, is_prefix p l = true -> is_prefix p (l ++ c) = true.
Proof.
  induction p as [|x p IH]; intros [|y l] c; simpl; try done.
  intros H. apply andb_prop in H as [-> H]. by rewrite IH.
Qed.

Lemma strstr_unfold hay needle :
  strstr hay needle
  = if is_prefix needle hay then Some hay
    else match hay with [] => None | _ :: hay' => strstr hay' needle end.
Proof. by destruct hay. Qed.

Lemma strstr_suffix a : forall l n, strstr (a ++ l) n = None -> strstr l n = None.
Proof.
  induction a as [|x a IH]; intros l n; [done|].
  cbn [app]. rewrite (strstr_unfold (x :: a ++ l)).
  destruct (is_prefix n (x :: a ++ l)); [done | apply IH].
Qed.

Lemma strstr_prefix l : forall c n, strstr (l ++ c) n = None -> strstr l n = None.
Proof.
  induction l as [|x l IH]; intros c n H.
  - rewrite strstr_unfold in H |- *. destruct (is_prefix n []) eqn:E; [|done].
    by rewrite (is_prefix_mono n [] c E) in H.
  - cbn [app] in H. rewrite strstr_unfold in H. rewrite strstr_unfold.
    destruct (is_prefix n (x :: l)) eqn:E.
    + change (x :: l ++ c) with ((x :: l) ++ c) in H.
      by rewrite (is_prefix_mono n (x :: l) c E) in H.
    + destruct (is_prefix n (x :: l ++ c)); [done|]. by apply (IH c).
Qed.

Lemma strstr_chunks t n :
  strstr t n = None -> Forall (fun l => strstr l n = None) (file_lines t).
Proof.
  intros H. apply Forall_forall. intros l Hl.
  apply list_elem_of_split in Hl as (l1 & l2 & E).
  pose proof (file_lines_concat t) as Hc. rewrite E, concat_app in Hc. cbn [concat] in Hc.
  rewrite <- Hc in H. by apply strstr_suffix, strstr_prefix in H.
Qed.

Lemma Forall_chunks (P : Z -> Prop) t :
  Forall P t -> Forall (Forall P) (file_lines t).
Proof. intros H. apply Forall_concat. by rewrite file_lines_concat. Qed.


(** *** The tag line *)

Lemma fmt_x_lower_hex w : Forall (fun c => is_lower_hex c = true) (fmt_x w) /\ (length (fmt_x w) <= 8)%nat.
Proof.
  destruct (fmt_x_facts (w mod 2 ^ 32)) as (_ & _ & H & Hl).
  { apply Z.mod_pos_bound. lia. }
  unfold fmt_x in *. rewrite Z.mod_mod in H, Hl by lia. split; [|done].
  rewrite forallb_forall in H. apply Forall_forall. intros c Hc.
  by apply H, list_elem_of_In.
Qed.

Lemma lower_hex_line_byte c : is_lower_hex c = true -> line_byte c.
Proof.
  unfold is_lower_hex, line_byte. rewrite !orb_true_iff, !andb_true_iff, !Z.leb_le. lia.
Qed.

Lemma fmt_0x_line_bytes width n :
  Forall line_byte (fmt_0x width n) /\ (length (fmt_0x width n) <= width + 8)%nat.
Proof.
  destruct (fmt_x_lower_hex n) as [Hh Hl].
  change (fmt_0x width n) with (zero_pad width (fmt_x n)). unfold zero_pad. split.
  - apply Forall_app. split.
    + generalize (width - length (fmt_x n))%nat. intros k.
      induction k as [|k IH]; simpl; [done|]. constructor; [|done].
      unfold line_byte. lia.
    + eapply Forall_impl; [exact Hh|]. apply lower_hex_line_byte.
  - rewrite length_app, repeat_length. lia.
Qed.

Lemma fmt_d_line_bytes v :
  0 <= v < 256 -> Forall line_byte (fmt_d v) /\ (length (fmt_d v) <= 3)%nat.
Proof.
  intros Hv. destruct (fmt_d_facts v Hv) as (Hd & _ & Hl). split.
  - rewrite forallb_forall in Hd. apply Forall_forall. intros c Hc.
    apply list_elem_of_In, Hd in Hc. unfold is_digit in Hc. unfold line_byte. lia.
  - destruct (99 <? v); [lia|]. destruct (9 <? v); lia.
Qed.

Lemma line_bytes_check l :
  forallb (fun c => (0 <? c) && (c <? 256) && negb (c =? 10)) l = true -> Forall line_byte l.
Proof.
  rewrite forallb_forall. intros H. apply Forall_forall. intros c Hc.
  apply list_elem_of_In, H in Hc. unfold line_byte.
  apply andb_prop in Hc as [Hc H10]. apply andb_prop in Hc as [H0 H256].
  apply negb_true_iff in H10. lia.
Qed.

Lemma tag_line_shape type uid crc :
  0 <= type <= FD_TAG_LAST ->
  exists body, tag_line type uid crc = (tag_marker ++ body) ++ [10]
    /\ Forall line_byte (tag_marker ++ body)
    /\ (length (tag_marker ++ body) < 1022)%nat.
Proof.
  unfold FD_TAG_LAST. intros Ht.
  destruct (fmt_d_line_bytes type ltac:(lia)) as [D1 D2].
  destruct (fmt_0x_line_bytes 4 uid) as [U1 U2].
  destruct (fmt_0x_line_bytes 8 crc) as [C1 C2].
  exists (fmt_d type ++ bytes "~" ++ fmt_0x 4 uid ++ bytes "~" ++ fmt_0x 8 crc ++ bytes "~~").
  split; [|split].
  - unfold tag_line, tag_marker. by rewrite <- !app_assoc.
  - assert (T : Forall line_byte (bytes "~")) by (by apply line_bytes_check).
    assert (M : Forall line_byte tag_marker) by (by apply line_bytes_check).
    assert (E : Forall line_byte (bytes "~~")) by (by apply line_bytes_check).
    apply Forall_app; split; [exact M|]. apply Forall_app; split; [exact D1|].
    apply Forall_app; split; [exact T|]. apply Forall_app; split; [exact U1|].
    apply Forall_app; split; [exact T|]. apply Forall_app; split; [exact C1 | exact E].
  - rewrite !length_app. change (length tag_marker) with 6%nat.
    change (length (bytes "~")) with 1%nat. change (length (bytes "~~")) with 2%nat. lia.
Qed.

Lemma line_bytes_cstring l : Forall line_byte l -> is_cstring l.
Proof. intros H. eapply Forall_impl; [exact H|]. by intros c [? _]. Qed.

Lemma line_bytes_no_newline l : Forall line_byte l -> Forall (fun c => c <> 10) l.
Proof. intros H. eapply Forall_impl; [exact H|]. by intros c [_ ?]. Qed.

(** *** The scan over a written block *)

Lemma scan_code_lines sscanf_tag task f tr lines : forall rest st,
  Forall is_cstring lines ->
  Forall (fun l => strstr l tag_marker = None) lines ->
  scan_idle tr st ->
  exists st1,
    scan sscanf_tag task f (lines ++ rest) st = scan sscanf_tag task f rest st1
    /\ scan_idle tr st1
    /\ crc_state (writer st1) = fold_left crc_line lines (crc_state (writer st)).
Proof.
  induction lines as [|line lines IH]; intros rest st Hc Hm Hi.
  - by exists st.
  - inversion Hc as [|? ? Hc1 Hc2]; subst. inversion Hm as [|? ? Hm1 Hm2]; subst.
    cbn [app scan]. rewrite cstr_nonul by by apply is_cstring_nonul. rewrite Hm1.
    destruct (IH rest (code_line line (next_line line st)) Hc2 Hm2) as (st1 & E & I1 & C1).
    { exact Hi. }
    exists st1. split; [exact E|]. split; [exact I1|].
    rewrite C1. cbn [fold_left]. f_equal. simpl writer. apply crc_state_crc_add.
Qed.

Lemma scan_tag_line sscanf_tag task f tr line rest st type uid :
  strstr (cstr line) tag_marker = Some line ->
  sscanf_tag line
  = {| sc_n := 3; sc_type := type; sc_uid := uid; sc_crc := block_crc_ (writer st) |} ->
  0 <= type <= FD_TAG_LAST ->
  scan_idle tr st ->
  exists st1,
    scan sscanf_tag task f (line :: rest) st = scan sscanf_tag task f rest st1
    /\ scan_idle tr st1
    /\ crc_state (writer st1) = (crc32_init, true).
Proof.
  intros Hm Hs Ht Hi. cbn [scan]. rewrite Hm, Hs. cbn [sc_n sc_type sc_uid sc_crc].
  change (negb (3 =? 3)) with false. cbn [orb].
  destruct (Z.ltb_spec type 0); [lia|]. destruct (Z.ltb_spec FD_TAG_LAST type); [lia|].
  cbn [orb]. simpl writer. rewrite Z.eqb_refl. cbn [negb mbind option_bind].
  eexists. split; [reflexivity|]. split; [exact Hi | reflexivity].
Qed.


(** *** The writer's side *)

Lemma emit_pieces_run g ps : forall w,
  write_mergeback_data g = true -> Forall is_cstring ps ->
  exists w', emit_pieces g ps w = Some (tt, w')
    /\ code_file w' = code_file w ++ concat ps
    /\ crc_state w' = fold_left crc_line ps (crc_state w).
Proof.
  induction ps as [|p ps IH]; intros w Hg Hc.
  - exists w. by rewrite app_nil_r.
  - inversion Hc as [|? ? Hp Hps]; subst. cbn [emit_pieces].
    set (w1 := fputs_code (cstr p) (crc_add (Some p) (-1) w)).
    assert (E1 : crc_puts g p w = Some (tt, w1)) by (unfold crc_puts; by rewrite Hg).
    erewrite bind_Some by exact E1.
    destruct (IH w1 Hg Hps) as (w' & E & C & S').
    exists w'. split; [exact E|]. split.
    + rewrite C. subst w1. simpl code_file.
      destruct (crc_add_frame (Some p) (-1) w) as (-> & _).
      rewrite cstr_nonul by by apply is_cstring_nonul. by rewrite <- app_assoc.
    + rewrite S'. cbn [fold_left]. f_equal. subst w1.
      change (crc_state (fputs_code (cstr p) (crc_add (Some p) (-1) w)))
        with (crc_state (crc_add (Some p) (-1) w)).
      apply crc_state_crc_add.
Qed.

Lemma emitted_crc_stream b :
  emitted_ok b ->
  fold_left crc_line (e_pieces b) (crc32_init, true)
  = (fold_left crc32 (fst (crc_stream true (e_text b))) crc32_init, true).
Proof.
  intros (Hc & Hn & He & _). rewrite crc_lines_stream by done. f_equal.
  apply crc_stream_ends_line; [done | by right].
Qed.

Lemma emit_blocks_run g bs : forall w,
  write_mergeback_data g = true -> Forall emitted_ok bs ->
  crc_state w = (crc32_init, true) ->
  exists w', emit_blocks g bs w = Some (tt, w')
    /\ code_file w' = code_file w ++ emitted_file bs
    /\ crc_state w' = (crc32_init, true).
Proof.
  induction bs as [|b bs IH]; intros w Hg Hok Hs.
  - exists w. unfold emitted_file. simpl. by rewrite app_nil_r.
  - inversion Hok as [|? ? Hb Hbs]; subst. cbn [emit_blocks]. unfold emit_block.
    destruct (emit_pieces_run g (e_pieces b) w Hg) as (w1 & E1 & C1 & S1); [by destruct Hb|].
    rewrite Hs, (emitted_crc_stream b Hb) in S1.
    set (w2 := set_block crc32_init (block_line_start_ w1)
                 (fputs_code (tag_line (e_type b) (e_uid b mod 2 ^ 16) (block_crc_ w1)) w1)).
    assert (E2 : tag g (e_type b) (e_uid b) w1 = Some (tt, w2))
      by (unfold tag; by rewrite Hg).
    assert (Eb : (emit_pieces g (e_pieces b);; tag g (e_type b) (e_uid b)) w = Some (tt, w2))
      by (erewrite bind_Some by exact E1; exact E2).
    erewrite bind_Some by exact Eb.
    injection S1 as Hcrc Hls.
    destruct (IH w2 Hg Hbs) as (w' & E & C & S').
    { subst w2. unfold crc_state. simpl. by rewrite Hls. }
    exists w'. split; [exact E|]. split; [|exact S'].
    rewrite C. subst w2. simpl code_file. rewrite C1, Hcrc.
    unfold emitted_file. cbn [fmap list_fmap concat]. unfold emitted_crc.
    rewrite (emitted_crc_stream b Hb). cbn [fst]. unfold e_text.
    by rewrite <- !app_assoc.
Qed.

(** *** The reader's side *)

Lemma scan_emitted sscanf_tag task f tr bs : forall st,
  Forall emitted_ok bs -> Forall (reads_back sscanf_tag) bs ->
  scan_idle tr st -> crc_state (writer st) = (crc32_init, true) ->
  exists st', scan sscanf_tag task f (file_lines (emitted_file bs)) st = Some st'
    /\ scan_idle tr st'.
Proof.
  induction bs as [|b bs IH]; intros st Hok Hrb Hi Hs.
  - by exists st.
  - inversion Hok as [|? ? Hb Hbs]; subst. inversion Hrb as [|? ? Rb Rbs]; subst.
    pose proof Hb as (Hc & Hn & He & Hm & Ht).
    assert (Htxt : is_cstring (e_text b)).
    { unfold is_cstring, e_text. apply Forall_concat. exact Hc. }
    destruct (tag_line_shape (e_type b) (e_uid b mod 2 ^ 16) (emitted_crc b) Ht)
      as (body & Etag & Hbytes & Hlen).
    assert (Elines : file_lines (emitted_file (b :: bs))
                     = file_lines (e_text b)
                       ++ tag_line (e_type b) (e_uid b mod 2 ^ 16) (emitted_crc b)
                          :: file_lines (emitted_file bs)).
    { unfold emitted_file. cbn [fmap list_fmap concat].
      rewrite <- app_assoc, (file_lines_app _ _ He). f_equal.
      rewrite Etag. apply file_lines_line; [by apply line_bytes_no_newline | done]. }
    rewrite Elines.
    destruct (scan_code_lines sscanf_tag task f tr (file_lines (e_text b))
                (tag_line (e_type b) (e_uid b mod 2 ^ 16) (emitted_crc b)
                 :: file_lines (emitted_file bs)) st)
      as (st1 & E1 & I1 & C1).
    { by apply (Forall_chunks (fun c => 0 < c < 256)). }
    { by apply strstr_chunks. }
    { exact Hi. }
    rewrite E1.
    assert (Hcrc : block_crc_ (writer st1) = emitted_crc b).
    { rewrite Hs in C1. rewrite crc_lines_stream in C1.
      - rewrite file_lines_concat in C1. unfold emitted_crc.
        rewrite (emitted_crc_stream b Hb). by injection C1 as -> _.
      - by apply (Forall_chunks (fun c => 0 < c < 256)).
      - by rewrite file_lines_concat. }
    assert (Hcs : is_cstring (tag_line (e_type b) (e_uid b mod 2 ^ 16) (emitted_crc b))).
    { rewrite Etag. apply Forall_app. split; [by apply line_bytes_cstring|].
      constructor; [lia | constructor]. }
    destruct (scan_tag_line sscanf_tag task f tr
                (tag_line (e_type b) (e_uid b mod 2 ^ 16) (emitted_crc b))
                (file_lines (emitted_file bs)) st1 (e_type b) (e_uid b mod 2 ^ 16))
      as (st2 & E2 & I2 & C2).
    { rewrite cstr_nonul by by apply is_cstring_nonul.
      rewrite strstr_unfold. rewrite Etag at 1. rewrite <- !app_assoc.
      by rewrite is_prefix_app. }
    { rewrite Hcrc. exact Rb. }
    { exact Ht. }
    { exact I1. }
    rewrite E2. by apply IH.
Qed.

(** Code that has just been written merges back as unchanged: when the
    code file holds what the writer has put out for a sequence of blocks
    (each text without carriage returns and tag markers and ending with a
    newline) and [sscanf] reads the tag lines as they were printed, then
    [merge_back] returns 0 in every mode, without an edit to the design. *)
Theorem emitted_code_merges_back_unchanged
    g sscanf_tag fl_fopen fl_choice s task tr w bs w0 w1 :
  write_mergeback_data g = true ->
  Forall emitted_ok bs -> Forall (reads_back sscanf_tag) bs ->
  code_file w0 = [] -> crc_state w0 = (crc32_init, true) ->
  emit_blocks g bs w0 = Some (tt, w1) ->
  fl_fopen s = Some (code_file w1) ->
  exists m, merge_back g sscanf_tag fl_fopen fl_choice s task tr w = Some m
    /\ ret m = 0 /\ m_tree m = tr /\ m_edits m = [] /\ m_changed m = false.
Proof.
  intros Hg Hok Hrb Hf0 Hs0 Hemit Hopen.
  destruct (emit_blocks_run g bs w0 Hg Hok Hs0) as (w1' & E & C & _).
  rewrite Hemit in E. injection E as <-. rewrite Hf0 in C. cbn [app] in C.
  unfold merge_back. rewrite Hg, Hopen, C. cbn [negb].
  destruct (scan_emitted sscanf_tag task (emitted_file bs) tr bs (scan_start tr w) Hok Hrb)
    as (st & Es & Ht & He & Hc & Hte & N1 & N2 & N3 & N4); [by repeat split | done |].
  rewrite Es. cbn [mbind option_bind].
  destruct task; rewrite ?Hte, ?N1, ?N2, ?N3, ?N4; simpl;
    (eexists; split; [reflexivity|]); simpl; rewrite ?Hc; done.
Qed.

Lemma emitted_code_merges_back_unchanged_witness :
  exists m, merge_back project_tagging sscanf_tag_libc
              (any_file (code_file (after (emit_blocks project_tagging blocks_cb)
                                      Fd_Code_Writer_new)))
              always_merge (bytes "a.cxx") FD_MERGEBACK_GO_SAFE tree_one_widget
              Fd_Code_Writer_new = Some m
    /\ ret m = 0 /\ m_tree m = tree_one_widget /\ m_edits m = [] /\ m_changed m = false.
Proof.
  apply (emitted_code_merges_back_unchanged project_tagging sscanf_tag_libc _ always_merge
           (bytes "a.cxx") FD_MERGEBACK_GO_SAFE tree_one_widget Fd_Code_Writer_new
           blocks_cb Fd_Code_Writer_new
           (after (emit_blocks project_tagging blocks_cb) Fd_Code_Writer_new)).
  - reflexivity.
  - repeat constructor; try (by apply line_bytes_cstring, line_bytes_check);
      try (apply Forall_forall; intros c Hc; vm_compute in Hc;
           repeat (apply elem_of_cons in Hc as [->|Hc]; [done|]); by apply elem_of_nil in Hc);
      try (vm_compute; congruence).
  - repeat constructor.
  - reflexivity.
  - reflexivity.
  - by vm_compute.
  - reflexivity.
Defined.


(** ** [write_c_indented] *)

Lemma split_line_spec s :
  Forall (fun c => c <> 10) (fst (split_line s))
  /\ s = fst (split_line s)
         ++ match snd (split_line s) with Some rest => 10 :: rest | None => [] end
  /\ match snd (split_line s) with
     | Some rest => (length rest < length s)%nat
     | None => True
     end.
Proof.
  induction s as [|c s IH]; simpl; [done|].
  destruct (Z.eqb_spec c 10) as [->|Hc]; [repeat split; simpl; by (done || lia)|].
  destruct (split_line s) as [line newline]. destruct IH as (H1 & H2 & H3).
  simpl in *. split; [by constructor|]. split; [by f_equal|].
  destruct newline; [lia | done].
Qed.

Lemma within_split limit s : forall col,
  (col <= limit)%nat -> within limit col s = true ->
  (col + length (fst (split_line s)) <= limit)%nat
  /\ forall rest, snd (split_line s) = Some rest -> within limit 0 rest = true.
Proof.
  induction s as [|c s IH]; intros col Hcol H; cbn [within split_line] in *.
  - cbn [fst snd length]. split; [lia | done].
  - destruct (c =? 10); cbn [fst snd length].
    + split; [lia|]. by intros rest [= <-].
    + apply andb_prop in H as [H1 H2]. apply Nat.leb_le in H1.
      destruct (IH (S col) H1 H2) as [Hl Hr].
      destruct (split_line s) as [line newline]. cbn [fst snd length] in *.
      split; [lia | done].
Qed.

Lemma indent_text_inside ind s :
  indent_text ind false s
  = fst (split_line s)
    ++ match snd (split_line s) with
       | Some rest => 10 :: indent_text ind true rest
       | None => []
       end.
Proof.
  induction s as [|c s IH]; simpl; [done|].
  destruct (c =? 10); [done|]. rewrite IH. by destruct (split_line s).
Qed.

Lemma indent_text_line ind s :
  indent_text ind true s
  = (if peek s =? 10 then []
     else if peek s =? 35 then fst (split_line s)
     else ind ++ fst (split_line s))
    ++ match snd (split_line s) with
       | Some rest => 10 :: indent_text ind true rest
       | None => []
       end.
Proof.
  destruct s as [|c s]; [simpl; by rewrite !app_nil_r|].
  cbn [indent_text peek hd split_line]. destruct (c =? 10); [done|].
  rewrite indent_text_inside. cbn [andb].
  destruct (c =? 35); destruct (split_line s); simpl; [done|].
  by rewrite <- app_assoc.
Qed.

Lemma char_val_peek_eqb s k :
  is_cstring s -> 0 < k < 128 -> (char_val (peek s) =? k) = (peek s =? k).
Proof.
  intros Hs Hk. destruct Hs as [|c s Hc _]; [simpl; by destruct k|].
  cbn [peek hd]. unfold char_val. destruct (Z.ltb_spec c 128); [done|].
  destruct (Z.eqb_spec (c - 256) k), (Z.eqb_spec c k); lia || done.
Qed.

Lemma write_c_short g va txt w :
  ready g w -> nonul txt -> (length txt < 129)%nat ->
  exists w', write_c g va txt w = Some (tt, w')
    /\ code_file w' = code_file w ++ txt
    /\ ready g w'
    /\ keeps w w'.
Proof.
  intros (Hv & Hinv & Hbuf) Hnn Hl. unfold write_c.
  erewrite bind_Some by reflexivity. rewrite Hv. cbn [Z.eqb negb].
  destruct (crc_vprintf_buffered g va txt w) as (w' & E & C & [I B] & _ & K);
    [by split | done | lia |].
  exists w'. split; [exact E|]. split; [exact C|]. split; [|exact K].
  split; [|done]. destruct K as (_ & _ & _ & -> & _). done.
Qed.

Lemma ready_keeps_indent w w' : keeps w w' -> indent_cur w' = indent_cur w.
Proof. intros (_ & _ & _ & _ & _ & _ & E). unfold indent_cur. by rewrite E. Qed.

Lemma write_c_indented_loop_run g ind limit trail fuel : forall text w,
  ready g w -> indent_cur w = Some ind -> nonul ind -> (length ind + limit <= 128)%nat ->
  is_cstring text -> within limit 0 text = true -> (length text < fuel)%nat ->
  (trail = 0 \/ to_uchar trail <> 0) ->
  exists w', write_c_indented_loop g fuel text trail w = Some (tt, w')
    /\ code_file w'
       = code_file w ++ indent_text ind true text
         ++ (if trail =? 0 then [] else [to_uchar trail])
    /\ ready g w'
    /\ keeps w w'.
Proof.
  intros text w. revert text w.
  induction fuel as [|fuel IH]; intros text w Hr Hi Hni Hlim Hs Hw Hf Ht; [lia|].
  cbn [write_c_indented_loop].
  pose proof (split_line_spec text) as (Hline & Htext & Hrest).
  destruct (within_split limit text 0 ltac:(lia) Hw) as [Hlen Hwr].
  rewrite (indent_text_line ind text).
  rewrite !(char_val_peek_eqb text) by (done || lia).
  destruct (split_line text) as [line newline]. cbn [fst snd] in *.
  assert (Hcs : is_cstring line /\ match newline with
                                   | Some rest => is_cstring rest | None => True end).
  { unfold is_cstring in *. rewrite Htext in Hs. apply Forall_app in Hs as [H1 H2].
    split; [done|]. destruct newline; [by inversion H2 | done]. }
  destruct Hcs as [Hcl Hcr].
  (* the line *)
  set (first := if peek text =? 10 then []
                else if peek text =? 35 then line else ind ++ line).
  assert (exists w1,
    (if peek text =? 10 then mret tt
     else if peek text =? 35 then write_c g true line
     else ind0 ← indent_now; write_c g true (ind0 ++ line)) w = Some (tt, w1)
    /\ code_file w1 = code_file w ++ first /\ ready g w1 /\ keeps w w1)
    as (w1 & E1 & C1 & R1 & K1).
  { subst first. destruct (peek text =? 10).
    - exists w. rewrite app_nil_r. split; [done|]. split; [done|]. split; [done|].
      apply keeps_refl.
    - destruct (peek text =? 35).
      + apply write_c_short; [done | by apply is_cstring_nonul | simpl in *; lia].
      + assert (Ei : indent_now w = Some (ind, w)) by (unfold indent_now; by rewrite Hi).
        erewrite bind_Some by exact Ei.
        apply write_c_short; [done | |rewrite length_app; lia].
        apply nonul_app; [done | by apply is_cstring_nonul]. }
  erewrite bind_Some by exact E1.
  destruct newline as [rest|].
  - (* a newline, and the rest *)
    destruct (write_c_short g false [10] w1 R1) as (w2 & E2 & C2 & R2 & K2);
      [by repeat constructor | simpl; lia |].
    erewrite bind_Some by exact E2.
    destruct (IH rest w2 R2) as (w3 & E3 & C3 & R3 & K3); try done.
    { rewrite (ready_keeps_indent w1 w2 K2), (ready_keeps_indent w w1 K1). exact Hi. }
    { by apply Hwr. }
    { lia. }
    exists w3. split; [exact E3|]. split; [|split; [exact R3|]].
    + rewrite C3, C2, C1. rewrite <- !app_assoc. done.
    + eapply keeps_trans; [exact K1|]. eapply keeps_trans; [exact K2 | exact K3].
  - (* the last line *)
    rewrite app_nil_r. destruct (Z.eqb_spec trail 0) as [->|Hne]; cbn [negb].
    + exists w1. rewrite app_nil_r. done.
    + destruct (write_c_short g true [to_uchar trail] w1 R1) as (w2 & E2 & C2 & R2 & K2).
      { constructor; [|constructor]. by destruct Ht. }
      { simpl. lia. }
      exists w2. split; [exact E2|]. split; [|split; [exact R2|]].
      * by rewrite C2, C1, <- app_assoc.
      * eapply keeps_trans; [exact K1 | exact K2].
Qed.

Lemma write_c_indented_run g text inIndent trail w limit :
  ready g w -> is_cstring text ->
  - 2 ^ 31 <= indentation w < 2 ^ 31 ->
  - 2 ^ 30 <= indentation w + inIndent < 2 ^ 30 ->
  let ind := repeat 32 (Z.to_nat (Z.min 32 (Z.max 0 (2 * (indentation w + inIndent))))) in
  (length ind + limit <= 128)%nat -> within limit 0 text = true ->
  (trail = 0 \/ to_uchar trail <> 0) ->
  exists w', write_c_indented g (Some text) inIndent trail w = Some (tt, w')
    /\ code_file w'
       = code_file w ++ indent_text ind true text
         ++ (if trail =? 0 then [] else [to_uchar trail])
    /\ indentation w' = indentation w
    /\ header_file w' = header_file w
    /\ ready g w'.
Proof.
  intros Hr Hs Hi0 Hi1 ind Hlim Hw Ht. unfold write_c_indented.
  rewrite cstr_nonul by by apply is_cstring_nonul.
  set (w1 := set_indentation (indentation w + inIndent) w).
  assert (E1 : add_indentation inIndent w = Some (tt, w1)).
  { unfold add_indentation. cbv zeta.
    destruct (Z.ltb_spec (indentation w + inIndent) (- 2 ^ 31)); [lia|].
    destruct (Z.leb_spec (2 ^ 31) (indentation w + inIndent)); [lia | done]. }
  erewrite bind_Some by exact E1.
  destruct (write_c_indented_loop_run g ind limit trail (S (length text)) text w1)
    as (w2 & E2 & C2 & R2 & K2); try done.
  { unfold indent_cur. simpl. by apply indent_run. }
  { subst ind. generalize (Z.to_nat (Z.min 32 (Z.max 0 (2 * (indentation w + inIndent))))).
    intros k. induction k; simpl; by constructor. }
  { lia. }
  erewrite bind_Some by exact E2.
  assert (Ei2 : indentation w2 = indentation w + inIndent).
  { destruct K2 as (_ & _ & _ & _ & _ & _ & ->). done. }
  unfold add_indentation. cbv zeta. rewrite Ei2.
  replace (indentation w + inIndent + - inIndent) with (indentation w) by lia.
  destruct (Z.ltb_spec (indentation w) (- 2 ^ 31)); [lia|].
  destruct (Z.leb_spec (2 ^ 31) (indentation w)); [lia|]. cbn [orb].
  eexists. split; [reflexivity|]. simpl. split; [exact C2|]. split; [done|].
  split; [by destruct K2 as (-> & _) | exact R2].
Qed.

(** [write_c_indented] puts the indentation of the raised level before
    every line of the text that is not empty and does not start with [#],
    and after a final newline; then comes the trailing character, if one is
    given.  Afterwards the indentation level is what it was, and the header
    file is untouched.  The lines are taken short enough for the block
    buffer (96 bytes). *)
Theorem write_c_indented_text g text inIndent trail w :
  ready g w -> is_cstring text -> within 96 0 text = true ->
  - 2 ^ 31 <= indentation w < 2 ^ 31 ->
  - 2 ^ 30 <= indentation w + inIndent < 2 ^ 30 ->
  (trail = 0 \/ to_uchar trail <> 0) ->
  exists w', write_c_indented g (Some text) inIndent trail w = Some (tt, w')
    /\ code_file w'
       = code_file w
         ++ indent_text
              (repeat 32 (Z.to_nat (Z.min 32 (Z.max 0 (2 * (indentation w + inIndent))))))
              true text
         ++ (if trail =? 0 then [] else [to_uchar trail])
    /\ indentation w' = indentation w
    /\ header_file w' = header_file w.
Proof.
  intros Hr Hs Hw Hi0 Hi1 Ht.
  destruct (write_c_indented_run g text inIndent trail w 96 Hr Hs Hi0 Hi1)
    as (w' & E & C & I & H & _); try done.
  { rewrite repeat_length. lia. }
  by exists w'.
Qed.


Lemma is_cstring_check l :
  forallb (fun c => (0 <? c) && (c <? 256)) l = true -> is_cstring l.
Proof.
  rewrite forallb_forall. intros H. apply Forall_forall. intros c Hc.
  apply list_elem_of_In, H in Hc. lia.
Qed.

Lemma no_cr_check l : forallb (fun c => negb (c =? 13)) l = true -> no_cr l.
Proof.
  rewrite forallb_forall. intros H. apply Forall_forall. intros c Hc.
  apply list_elem_of_In, H in Hc. apply negb_true_iff in Hc. lia.
Qed.

Lemma write_c_indented_text_witness :
  exists w', write_c_indented project_tagging (Some text_callback) 1 59 writer_started
             = Some (tt, w')
    /\ code_file w'
       = code_file writer_started
         ++ indent_text
              (repeat 32 (Z.to_nat (Z.min 32 (Z.max 0 (2 * (indentation writer_started + 1))))))
              true text_callback
         ++ (if 59 =? 0 then [] else [to_uchar 59])
    /\ indentation w' = indentation writer_started
    /\ header_file w' = header_file writer_started.
Proof.
  apply write_c_indented_text.
  - split; [reflexivity|]. split; [|intros _; by eexists].
    right. split; [by eexists | by vm_compute].
  - by apply is_cstring_check.
  - reflexivity.
  - by vm_compute.
  - by vm_compute.
  - right. by vm_compute.
Defined.

Example write_c_indented_callback :
  code_file <$> exec (write_c_indented project_tagging (Some text_callback) 1 59)
                  writer_started
  = Some (bytes "// generated" ++ [10] ++ bytes "  if (x)" ++ [10] ++ bytes "    quit();;").
Proof. by vm_compute. Qed.

(** *** What is written one level deep, [unindent] gives back *)

Lemma indent_text_Forall (P : Z -> Prop) ind s : forall b,
  Forall P ind -> Forall P s -> Forall P (indent_text ind b s).
Proof.
  induction s as [|c s IH]; intros b Hi Hs; simpl.
  - by destruct b.
  - inversion Hs as [|? ? Hc Hs']; subst. destruct (Z.eqb_spec c 10) as [->|_].
    + constructor; [done | by apply IH].
    + apply Forall_app. split; [by destruct (b && negb (c =? 35))|].
      constructor; [done | by apply IH].
Qed.

Lemma spec_unindent_indent_text s :
  no_cr s ->
  spec_unindent 0 (indent_text [32; 32] false s) = s
  /\ spec_unindent 2 (indent_text [32; 32] true s) = s.
Proof.
  induction 1 as [|c s Hc Hs [IH0 IH2]]; [done|].
  cbn [indent_text]. destruct (Z.eqb_spec c 10) as [->|H10].
  - simpl. by rewrite IH2.
  - cbn [andb app]. split.
    + cbn [spec_unindent]. rewrite (proj2 (Z.eqb_neq c 13) Hc), (proj2 (Z.eqb_neq c 10) H10).
      by rewrite IH0.
    + destruct (Z.eqb_spec c 35) as [->|H35]; cbn [negb app].
      * simpl. by rewrite IH0.
      * change (spec_unindent 2 (32 :: 32 :: c :: indent_text [32; 32] false s))
          with (spec_unindent 0 (c :: indent_text [32; 32] false s)).
        cbn [spec_unindent].
        rewrite (proj2 (Z.eqb_neq c 13) Hc), (proj2 (Z.eqb_neq c 10) H10).
        by rewrite IH0.
Qed.

Lemma lines_ok_indent_text s : forall (seen : LineSeen) (at_start : bool),
  (if at_start then seen = AtStart else seen <> AtStart) ->
  lines_ok seen s = true -> open_end at_start s = true ->
  lines_ok seen (indent_text [32; 32] at_start s) = true.
Proof.
  induction s as [|c s IH]; intros seen at_start Hst Hl Ho.
  - simpl in Ho. destruct at_start; [done|]. exact Hl.
  - cbn [indent_text lines_ok open_end] in *. destruct (Z.eqb_spec c 10) as [->|H10].
    + cbn [lines_ok]. change (10 =? 10) with true. cbv iota.
      destruct seen; try done. by apply (IH AtStart true).
    + destruct at_start.
      * subst seen. destruct (Z.eqb_spec c 35) as [->|H35]; cbn [andb negb app].
        -- cbn [lines_ok]. change (35 =? 10) with false. change (isspace 35) with false.
           cbv iota. change (isspace 35) with false in Hl. by apply (IH SeenByte false).
        -- change (lines_ok AtStart (32 :: 32 :: c :: indent_text [32; 32] false s))
             with (lines_ok OnlyWhite (c :: indent_text [32; 32] false s)).
           cbn [lines_ok]. rewrite (proj2 (Z.eqb_neq c 10) H10).
           destruct (isspace c); [by apply (IH OnlyWhite false) | by apply (IH SeenByte false)].
      * cbn [andb app lines_ok]. rewrite (proj2 (Z.eqb_neq c 10) H10).
        destruct (isspace c).
        -- apply (IH _ false); [by destruct seen | done | done].
        -- by apply (IH SeenByte false).
Qed.

(** A text written by [write_c_indented] one level deep comes back from
    [unindent] as it was: the text has no carriage return, every line of it
    holds a byte that is not white space, and it does not end with a
    newline; its lines are taken short enough for the block buffer. *)
Theorem write_c_indented_unindent g text inIndent w :
  ready g w -> is_cstring text -> no_cr text -> within 126 0 text = true ->
  lines_ok AtStart text = true -> open_end true text = true ->
  - 2 ^ 31 <= indentation w < 2 ^ 31 -> indentation w + inIndent = 1 ->
  exists w' out,
    write_c_indented g (Some text) inIndent 0 w = Some (tt, w')
    /\ code_file w' = code_file w ++ out
    /\ unindent out = Some text.
Proof.
  intros Hr Hs Hn Hw Hl Ho Hi0 Hi1.
  destruct (write_c_indented_run g text inIndent 0 w 126 Hr Hs Hi0)
    as (w' & E & C & _); [lia | rewrite Hi1; simpl; lia | done | by left |].
  rewrite Hi1 in C. change (repeat 32 _) with [32; 32] in C.
  change (0 =? 0) with true in C. cbv iota in C. rewrite app_nil_r in C.
  exists w', (indent_text [32; 32] true text). split; [exact E|]. split; [exact C|].
  assert (Hcs : is_cstring (indent_text [32; 32] true text)).
  { apply indent_text_Forall; [|done]. by repeat (constructor; [lia|]). }
  unfold unindent. rewrite cstr_nonul by by apply is_cstring_nonul.
  destruct (unindent_loop_clean (length (indent_text [32; 32] true text))
              (indent_text [32; 32] true text) [] Hcs) as [H _].
  { apply indent_text_Forall; [by repeat (constructor; [lia|]) | done]. }
  { done. }
  rewrite H by (by apply lines_ok_indent_text).
  cbn [app]. f_equal. by apply spec_unindent_indent_text.
Qed.

Lemma write_c_indented_unindent_witness :
  exists w' out,
    write_c_indented project_tagging (Some text_callback) 1 0 writer_started = Some (tt, w')
    /\ code_file w' = code_file writer_started ++ out
    /\ unindent out = Some text_callback.
Proof.
  apply write_c_indented_unindent.
  - split; [reflexivity|]. split; [|intros _; by eexists].
    right. split; [by eexists | by vm_compute].
  - by apply is_cstring_check.
  - by apply no_cr_check.
  - reflexivity.
  - reflexivity.
  - reflexivity.
  - by vm_compute.
  - reflexivity.
Defined.


(** ** [crc_add] on a text handed over in pieces *)

Lemma no_cr_pair_app a b :
  no_cr_pair (a ++ b) = true -> no_cr_pair a = true /\ no_cr_pair b = true.
Proof.
  induction a as [|c a IH]; [done|]. cbn [app no_cr_pair]. intros H.
  apply andb_prop in H as [H1 H2]. destruct (IH H2) as [Ha Hb].
  split; [|done]. rewrite Ha, andb_true_r.
  destruct a as [|x a]; [|exact H1]. cbn [peek hd]. by rewrite andb_false_r.
Qed.

Lemma crc_lines_stream_pair ps : forall crc ls,
  Forall is_cstring ps -> no_cr_pair (concat ps) = true ->
  fold_left crc_line ps (crc, ls)
  = (fold_left crc32 (fst (crc_stream ls (concat ps))) crc,
     snd (crc_stream ls (concat ps))).
Proof.
  induction ps as [|p ps IH]; intros crc ls Hc Hn; [done|].
  inversion Hc as [|? ? Hp Hps]; subst. cbn [concat] in *.
  apply no_cr_pair_app in Hn as [Hn1 Hn2].
  cbn [fold_left]. rewrite crc_line_stream by done.
  rewrite IH by done. rewrite crc_stream_app. cbn [fst snd].
  by rewrite fold_left_app.
Qed.

Lemma crc_state_pieces ps : forall w,
  crc_state (fold_left (fun w p => crc_add (Some p) (-1) w) ps w)
  = fold_left crc_line ps (crc_state w).
Proof.
  induction ps as [|p ps IH]; intros w; [done|].
  cbn [fold_left]. by rewrite IH, crc_state_crc_add.
Qed.

(** The CRC and the line-start flag do not depend on how a text is cut
    into the strings handed to [crc_add]: adding the pieces one after the
    other gives what adding the whole text gives, for C strings in which no
    carriage return directly follows another. *)
Theorem crc_add_pieces ps w :
  Forall is_cstring ps -> no_cr_pair (concat ps) = true ->
  crc_state (fold_left (fun w p => crc_add (Some p) (-1) w) ps w)
  = crc_state (crc_add (Some (concat ps)) (-1) w).
Proof.
  intros Hc Hn. rewrite crc_state_pieces, crc_state_crc_add.
  destruct (crc_state w) as [crc ls].
  rewrite crc_lines_stream_pair by done.
  rewrite crc_line_stream; [done | | done].
  unfold is_cstring. by apply Forall_concat.
Qed.

Lemma crc_add_pieces_witness :
  crc_state (fold_left (fun w p => crc_add (Some p) (-1) w)
               [bytes "  if (x)" ++ [13]; [10; 32] ++ bytes "y();"] Fd_Code_Writer_new)
  = crc_state (crc_add (Some (concat [bytes "  if (x)" ++ [13]; [10; 32] ++ bytes "y();"]))
                 (-1) Fd_Code_Writer_new).
Proof.
  apply crc_add_pieces; [|reflexivity].
  repeat (constructor; [by apply is_cstring_check|]). constructor.
Defined.

(** ** [crc_vprintf] and the size of the block buffer *)

(** What [crc_vprintf] does, case by case.  With merge-back data on it is
    undefined when the text is longer than the block buffer and the format
    has a conversion (the second [vsnprintf] reads the arguments the first
    one has consumed), and when the text is empty and there is no buffer
    ([fputs] of a null pointer).  In every other case it puts the text
    into the code file: the whole text, but for a text of exactly
    [block_buffer_size_] bytes with merge-back data on, which loses its
    last byte ([vsnprintf] keeps one byte of the buffer for the NUL, and
    the buffer only grows for longer texts). *)
Theorem crc_vprintf_written g va txt w :
  buffer_inv w -> nonul txt ->
  if write_mergeback_data g
     && ((va && (block_buffer_size_ w <? Z.of_nat (length txt)))
         || (bool_decide (txt = []) && (block_buffer_size_ w =? 0)))
  then crc_vprintf g va txt w = None
  else exists w', crc_vprintf g va txt w = Some (tt, w')
    /\ code_file w'
       = code_file w
         ++ (if write_mergeback_data g && (Z.of_nat (length txt) =? block_buffer_size_ w)
             then removelast txt else txt)
    /\ header_file w' = header_file w.
Proof.
  intros Hinv Hnn.
  destruct (write_mergeback_data g
            && ((va && (block_buffer_size_ w <? Z.of_nat (length txt)))
                || (bool_decide (txt = []) && (block_buffer_size_ w =? 0)))) eqn:Ec.
  - apply andb_prop in Ec as [Hg Ec]. unfold crc_vprintf. rewrite Hg.
    apply orb_prop in Ec as [Ec|Ec]; apply andb_prop in Ec as [E1 E2].
    + subst va. rewrite E2. cbn [andb].
      destruct Hinv as [[-> ->]|[[b ->] Hs]]; [done|].
      by destruct (0 <? block_buffer_size_ w).
    + apply bool_decide_eq_true in E1 as ->. apply Z.eqb_eq in E2.
      destruct Hinv as [[-> ->]|[_ Hs]]; [done | lia].
  - assert (Hdef : write_mergeback_data g = false \/ is_Some (block_buffer_ w) \/ txt <> []).
    { destruct (write_mergeback_data g); [|by left]. right. cbn [andb] in Ec.
      apply orb_false_iff in Ec as [_ Ec]. apply andb_false_iff in Ec as [Ec|Ec].
      - right. by apply bool_decide_eq_false in Ec.
      - left. apply Z.eqb_neq in Ec. destruct Hinv as [[_ ?]|[? _]]; [lia | done]. }
    assert (Hva : no_second_read g va w txt).
    { intros Hg ->. rewrite Hg in Ec. cbn [andb] in Ec.
      apply orb_false_iff in Ec as [Ec _]. apply Z.ltb_ge in Ec. lia. }
    destruct (crc_vprintf_run g va txt w Hinv Hnn Hdef Hva) as (w' & E & C & _ & _ & _ & K).
    exists w'. split; [exact E|]. split; [|by destruct K as (-> & _)].
    rewrite C. f_equal. unfold crc_text.
    destruct (write_mergeback_data g); [|done]. cbn [andb].
    destruct (Z.eqb_spec (Z.of_nat (length txt)) (block_buffer_size_ w)) as [El|_].
    + destruct (Z.ltb_spec 0 (block_buffer_size_ w)) as [Hpos|Hz]; cbn [andb].
      * rewrite removelast_firstn_len. f_equal. lia.
      * destruct txt; [done | simpl in El; lia].
    + by rewrite andb_false_r.
Qed.

Lemma crc_vprintf_written_witness :
  exists w', crc_vprintf project_tagging true text_129 writer_small_buffer = Some (tt, w')
    /\ code_file w' = bytes "x" ++ repeat 97 128
    /\ header_file w' = [].
Proof.
  pose proof (crc_vprintf_written project_tagging true text_129 writer_small_buffer) as H.
  assert (Hinv : buffer_inv writer_small_buffer).
  { right. split; [by eexists | by vm_compute]. }
  assert (Hnn : nonul text_129) by (by apply nonul_check).
  specialize (H Hinv Hnn).
  match type of H with
  | if ?c then _ else _ => assert (C : c = false) by (vm_compute; reflexivity); rewrite C in H
  end.
  destruct H as (w' & E & Cf & Hh). exists w'. split; [exact E|]. split.
  - rewrite Cf. vm_compute. reflexivity.
  - rewrite Hh. reflexivity.
Defined.

(** ** [write_public] *)

Lemma write_public_keyword state w :
  exists w1,
    (if state =? 0 then write_h (bytes "private:" ++ [10])
     else if state =? 1 then write_h (bytes "public:" ++ [10])
     else if state =? 2 then write_h (bytes "protected:" ++ [10])
     else mret tt) w = Some (tt, w1)
    /\ code_file w1 = code_file w.
Proof.
  destruct (state =? 0); [|destruct (state =? 1); [|destruct (state =? 2)]];
    rewrite ?write_h_run; (eexists; split; [reflexivity|]);
    try done; by destruct (varused_test w =? 0).
Qed.

(** A second [write_public] with the same state writes nothing and changes
    nothing: the keyword is only written when the state changes.  The code
    file is never touched. *)
Theorem write_public_again state cs w cs1 w1 :
  write_public state cs w = Some (cs1, w1) ->
  write_public state cs1 w1 = Some (cs1, w1)
  /\ code_file w1 = code_file w.
Proof.
  unfold write_public. cbv zeta.
  destruct (write_public_keyword state w) as (w' & Ek & Ck).
  destruct cs as [[c|] [wc|]]; cbn [current_class current_widget_class].
  - rewrite bool_decide_eq_true_2 by (by eexists). cbn [negb andb].
    destruct (Z.eqb_spec c state) as [->|Hc].
    { intros [= <- <-]. cbn [current_class current_widget_class].
      rewrite bool_decide_eq_true_2 by (by eexists). cbn [negb andb].
      by rewrite Z.eqb_refl. }
    destruct (Z.eqb_spec wc state) as [->|Hwc].
    { intros [= <- <-]. cbn [current_class current_widget_class].
      rewrite bool_decide_eq_true_2 by (by eexists). cbn [negb andb].
      rewrite (proj2 (Z.eqb_neq c state) Hc). by rewrite Z.eqb_refl. }
    erewrite bind_Some by exact Ek. intros [= <- <-].
    cbn [current_class current_widget_class].
    rewrite bool_decide_eq_true_2 by (by eexists). cbn [negb andb].
    by rewrite Z.eqb_refl.
  - rewrite bool_decide_eq_true_2 by (by eexists). cbn [negb andb].
    destruct (Z.eqb_spec c state) as [->|Hc].
    { intros [= <- <-]. cbn [current_class current_widget_class].
      rewrite bool_decide_eq_true_2 by (by eexists). cbn [negb andb].
      by rewrite Z.eqb_refl. }
    erewrite bind_Some by exact Ek. intros [= <- <-].
    cbn [current_class current_widget_class].
    rewrite bool_decide_eq_true_2 by (by eexists). cbn [negb andb].
    by rewrite Z.eqb_refl.
  - rewrite (bool_decide_eq_false_2 (is_Some None)) by (by intros [? ?]).
    rewrite bool_decide_eq_true_2 by (by eexists). cbn [negb andb].
    destruct (Z.eqb_spec wc state) as [->|Hwc].
    { intros [= <- <-]. cbn [current_class current_widget_class].
      rewrite (bool_decide_eq_false_2 (is_Some None)) by (by intros [? ?]).
      rewrite bool_decide_eq_true_2 by (by eexists). cbn [negb andb].
      by rewrite Z.eqb_refl. }
    erewrite bind_Some by exact Ek. intros [= <- <-].
    cbn [current_class current_widget_class].
    rewrite (bool_decide_eq_false_2 (is_Some None)) by (by intros [? ?]).
    rewrite bool_decide_eq_true_2 by (by eexists). cbn [negb andb].
    by rewrite Z.eqb_refl.
  - rewrite !(bool_decide_eq_false_2 (is_Some None)) by (by intros [? ?]).
    cbn [negb andb]. intros [= <- <-]. cbn [current_class current_widget_class].
    by rewrite !(bool_decide_eq_false_2 (is_Some None)) by (by intros [? ?]).
Qed.

Lemma write_public_again_witness :
  write_public 1 {| current_class := Some 1; current_widget_class := None |}
    (fputs_header (bytes "public:" ++ [10]) Fd_Code_Writer_new)
  = Some ({| current_class := Some 1; current_widget_class := None |},
          fputs_header (bytes "public:" ++ [10]) Fd_Code_Writer_new)
  /\ code_file (fputs_header (bytes "public:" ++ [10]) Fd_Code_Writer_new)
     = code_file Fd_Code_Writer_new.
Proof. apply (write_public_again 1 scope_private Fd_Code_Writer_new). reflexivity. Defined.


(** ** [write_cstring]: the literal reads back as the string *)














(** *** The items, spliced and read *)






Lemma splice_wrap l : splice ([92; 10] ++ l) = splice l.
Proof. done. Qed.
















Example write_cstring_mixed :
  code_file <$> exec (write_cstring project_plain 0 (Some [63; 63; 1; 57; 10; 200]) 6)
                  Fd_Code_Writer_new
  = Some ([34; 63; 92; 63; 92; 49; 34; 34; 57; 92; 110; 92; 51; 49; 48; 34]).
Proof. by vm_compute. Qed.


(** ** The mode GO on a file of tagged blocks *)

(** *** Edits keep the shape of the tree *)

Lemma shape_apply_edit tr e : shape (apply_edit tr e) = shape tr.
Proof.
  unfold shape. destruct e as [i text|i text]; simpl.
  - rewrite (list_fmap_alter _ (set_callback text) id); [by apply list_alter_id|].
    by apply Forall_forall.
  - rewrite (list_fmap_alter _ (set_name text) id); [by apply list_alter_id|].
    by apply Forall_forall.
Qed.

Lemma shape_edits es : forall tr, shape (fold_left apply_edit es tr) = shape tr.
Proof.
  induction es as [|e es IH]; intros tr; [done|]. simpl.
  by rewrite IH, shape_apply_edit.
Qed.

Lemma find_by_uid_shape uid tr : forall tr',
  shape tr = shape tr' -> find_by_uid uid tr = find_by_uid uid tr'.
Proof.
  induction tr as [|tp tr IH]; intros [|tp' tr'] E; try done.
  simpl in *. injection E as E1 _ _ E2. rewrite E1. by rewrite (IH tr' E2).
Qed.

Lemma kinds_shape tr tr' i :
  shape tr = shape tr' ->
  from_option is_true_widget false (tr !! i) = from_option is_true_widget false (tr' !! i)
  /\ from_option is_a_Code false (tr !! i) = from_option is_a_Code false (tr' !! i).
Proof.
  intros E. assert (H : shape tr !! i = shape tr' !! i) by by rewrite E.
  unfold shape in H. rewrite !list_lookup_fmap in H.
  destruct (tr !! i), (tr' !! i); simpl in *; try done. by injection H as _ -> ->.
Qed.


(** *** The scan, block by block *)

Lemma scan_code_lines_pos sscanf_tag task f lines : forall rest st,
  Forall is_cstring lines ->
  Forall (fun l => strstr l tag_marker = None) lines ->
  exists st1,
    scan sscanf_tag task f (lines ++ rest) st = scan sscanf_tag task f rest st1
    /\ tree st1 = tree st /\ edits st1 = edits st /\ changed st1 = changed st
    /\ tag_error st1 = tag_error st /\ block_start st1 = block_start st
    /\ pos st1 = pos st + Z.of_nat (length (concat lines))
    /\ block_end st1 = match lines with [] => block_end st | _ => pos st1 end
    /\ crc_state (writer st1) = fold_left crc_line lines (crc_state (writer st)).
Proof.
  induction lines as [|line lines IH]; intros rest st Hc Hm.
  - exists st. simpl. repeat split; try done. lia.
  - inversion Hc as [|? ? Hc1 Hc2]; subst. inversion Hm as [|? ? Hm1 Hm2]; subst.
    cbn [app scan]. rewrite cstr_nonul by by apply is_cstring_nonul. rewrite Hm1.
    destruct (IH rest (code_line line (next_line line st)) Hc2 Hm2)
      as (st1 & E & T1 & D1 & G1 & R1 & B1 & P1 & N1 & C1).
    exists st1. split; [exact E|]. simpl in T1, D1, G1, R1, B1, P1.
    repeat split; try done.
    + rewrite P1. cbn [concat]. rewrite length_app. lia.
    + rewrite N1. destruct lines as [|l2 lines]; [|done].
      rewrite P1. simpl. lia.
    + rewrite C1. cbn [fold_left]. f_equal. simpl writer. apply crc_state_crc_add.
Qed.


Lemma file_lines_nonempty t : t <> [] -> file_lines t <> [].
Proof.
  destruct t as [|c t]; [done|]. intros _. unfold file_lines. cbn [length read_lines].
  by destruct (fgets 1022 (c :: t)).
Qed.

Lemma go_target_shape tr tr' b : shape tr = shape tr' -> go_target tr b = go_target tr' b.
Proof.
  intros E. unfold go_target. rewrite (find_by_uid_shape _ tr tr' E).
  destruct (find_by_uid (t_uid b) tr') as [i|]; [|done].
  by destruct (kinds_shape tr tr' i E) as [-> ->].
Qed.

Lemma scan_tagged_go sscanf_tag tr f bs : forall prefix st,
  f = prefix ++ tagged_file bs ->
  Forall (tagged_ok sscanf_tag) bs -> Forall (mergeable tr) bs ->
  go_inv tr st -> tag_error st = 0 ->
  pos st = Z.of_nat (length prefix) -> block_start st = Z.of_nat (length prefix) ->
  crc_state (writer st) = (crc32_init, true) ->
  exists st',
    scan sscanf_tag FD_MERGEBACK_GO f (file_lines (tagged_file bs)) st = Some st'
    /\ edits st' = edits st ++ go_edits tr bs
    /\ go_inv tr st' /\ tag_error st' = 0.
Proof.
  induction bs as [|b bs IH]; intros prefix st Hf Hok Hm Hinv Hte Hpos Hstart Hcrc.
  - exists st. unfold go_edits. simpl. by rewrite app_nil_r.
  - apply Forall_cons in Hok as [Hb Hbs]. apply Forall_cons in Hm as [Mb Mbs]. subst f.
    destruct Hb as (Hcs & He & Hmk & Ht & Hsc).
    destruct (tag_line_shape (t_type b) (t_uid b) (t_crc b) Ht)
      as (body & Etag & Hbytes & Hlen).
    set (tagl := tag_line (t_type b) (t_uid b) (t_crc b)) in *.
    assert (Elines : file_lines (tagged_file (b :: bs))
                     = file_lines (t_text b) ++ tagl :: file_lines (tagged_file bs)).
    { unfold tagged_file. cbn [fmap list_fmap concat]. fold tagl.
      rewrite <- app_assoc, (file_lines_app _ _ He). f_equal.
      rewrite Etag. apply file_lines_line; [by apply line_bytes_no_newline | done]. }
    rewrite Elines.
    destruct (scan_code_lines_pos sscanf_tag FD_MERGEBACK_GO
                (prefix ++ tagged_file (b :: bs)) (file_lines (t_text b))
                (tagl :: file_lines (tagged_file bs)) st)
      as (st1 & E1 & T1 & D1 & G1 & R1 & B1 & P1 & N1 & C1).
    { by apply (Forall_chunks (fun c => 0 < c < 256)). }
    { by apply strstr_chunks. }
    rewrite E1. rewrite file_lines_concat in P1.
    assert (Hcst : is_cstring tagl).
    { rewrite Etag. apply Forall_app. split; [by apply line_bytes_cstring|].
      constructor; [lia | constructor]. }
    assert (Hstr : strstr (cstr tagl) tag_marker = Some tagl).
    { rewrite cstr_nonul by by apply is_cstring_nonul.
      rewrite strstr_unfold. rewrite Etag at 1. rewrite <- !app_assoc.
      by rewrite is_prefix_app. }
    cbn [scan]. rewrite Hstr, Hsc. cbn [sc_n sc_type sc_uid sc_crc].
    change (negb (3 =? 3)) with false. cbn [orb].
    destruct (Z.ltb_spec (t_type b) 0); [lia|].
    destruct (Z.ltb_spec FD_TAG_LAST (t_type b)); [lia|]. cbn [orb].
    set (st2 := next_line tagl st1).
    assert (Hch : negb (block_crc_ (writer st2) =? t_crc b) = block_changed b).
    { unfold block_changed, recomputed_crc. rewrite Hcrc in C1.
      change (block_crc_ (writer st2)) with (fst (crc_state (writer st1))).
      by rewrite C1. }
    rewrite Hch.
    assert (Hinv1 : go_inv tr st2).
    { destruct Hinv as [Hc0 Ht0]. split; simpl; by rewrite ?G1, ?D1, ?T1. }
    assert (Hshape : shape (tree st2) = shape tr).
    { destruct Hinv1 as [_ ->]. apply shape_edits. }
    (* the body of [if (block_crc_ != crc)] *)
    assert (exists st3,
      (if block_changed b
       then block_differs FD_MERGEBACK_GO (prefix ++ tagged_file (b :: bs))
              (t_type b) (t_uid b) st2
       else Some st2) = Some st3
      /\ edits st3 = edits st ++ go_edits tr [b]
      /\ go_inv tr st3 /\ tag_error st3 = 0 /\ pos st3 = pos st2)
      as (st3 & E3 & D3 & I3 & R3 & P3).
    { unfold go_edits. cbn [omap list_omap]. unfold go_edit.
      rewrite <- (go_target_shape (tree st2) tr b Hshape).
      assert (Hnone : exists st3, Some st2 = Some st3
                /\ edits st3 = edits st ++ [] /\ go_inv tr st3 /\ tag_error st3 = 0
                /\ pos st3 = pos st2).
      { exists st2. split; [done|]. split; [simpl; by rewrite app_nil_r, D1|].
        split; [exact Hinv1|]. split; [simpl; congruence | done]. }
      unfold mergeable in Mb. rewrite <- (go_target_shape (tree st2) tr b Hshape) in Mb.
      unfold go_target in *. destruct (block_changed b); [|exact Hnone].
      unfold block_differs. cbn [is_GO].
      change ((t_type b =? FD_TAG_MENU_CALLBACK) || (t_type b =? FD_TAG_WIDGET_CALLBACK))
        with (is_callback_kind (t_type b)).
      assert (Hblock : t_text b <> [] ->
                unindent_block (prefix ++ tagged_file (b :: bs)) (block_start st2)
                  (block_end st2) = unindent (t_text b)).
      { intros Hne. unfold unindent_block. simpl block_start. simpl block_end.
        rewrite N1, B1, Hstart, P1, Hpos.
        pose proof (file_lines_nonempty _ Hne) as Hfl.
        destruct (file_lines (t_text b)); [done|].
        replace (Z.of_nat (length prefix) + Z.of_nat (length (t_text b))
                 - Z.of_nat (length prefix)) with (Z.of_nat (length (t_text b))) by lia.
        destruct (Z.ltb_spec (Z.of_nat (length (t_text b))) 0); [lia|].
        rewrite !Nat2Z.id, drop_app_length. unfold tagged_file.
        cbn [fmap list_fmap concat]. rewrite <- app_assoc. by rewrite take_app_length. }
      destruct (is_callback_kind (t_type b)).
      - destruct (find_by_uid (t_uid b) (tree st2)) as [i|]; [|exact Hnone].
        destruct (from_option is_true_widget false (tree st2 !! i)); [|exact Hnone].
        destruct Mb as [Hne [text Hun]]; [by eexists|].
        rewrite (Hblock Hne), Hun. cbn [mbind option_bind].
        eexists. split; [reflexivity|]. simpl. rewrite D1.
        split; [done|]. split; [by apply go_inv_do_edit|]. split; [congruence | done].
      - destruct (t_type b =? FD_TAG_CODE); [|exact Hnone].
        destruct (find_by_uid (t_uid b) (tree st2)) as [i|]; [|exact Hnone].
        destruct (from_option is_a_Code false (tree st2 !! i)); [|exact Hnone].
        destruct Mb as [Hne [text Hun]]; [by eexists|].
        rewrite (Hblock Hne), Hun. cbn [mbind option_bind].
        eexists. split; [reflexivity|]. simpl. rewrite D1.
        split; [done|]. split; [by apply go_inv_do_edit|]. split; [congruence | done]. }
    rewrite E3. cbn [mbind option_bind].
    destruct (IH (prefix ++ t_text b ++ tagl) (next_block st3)) as (st' & E' & D' & I' & R');
      try done.
    { unfold tagged_file. cbn [fmap list_fmap concat]. fold tagl.
      by rewrite <- !app_assoc. }
    { cbn [next_block pos]. rewrite P3. subst st2. cbn [next_line pos].
      rewrite P1, Hpos, !length_app. lia. }
    { cbn [next_block block_start]. rewrite P3. subst st2. cbn [next_line pos].
      rewrite P1, Hpos, !length_app. lia. }
    exists st'. split; [exact E'|]. split; [|done].
    rewrite D'. simpl. rewrite D3. unfold go_edits. cbn [omap list_omap].
    rewrite <- app_assoc. f_equal. by destruct (go_edit tr b).
Qed.

(** The mode GO on a file of well-formed blocks: [merge_back] sets, block
    by block, the callback of the true widget or the text of the code node
    named by the tag to the unindented text of the block, for every block
    whose CRC is not the one of its tag, and for no other; it returns 1
    when it has set one, 0 otherwise.  Each block that is merged has a line
    and a text [unindent] is defined on. *)
Theorem merge_back_go_tagged g sscanf_tag fl_fopen fl_choice s tr w bs :
  write_mergeback_data g = true -> fl_fopen s = Some (tagged_file bs) ->
  Forall (tagged_ok sscanf_tag) bs -> Forall (mergeable tr) bs ->
  exists m,
    merge_back g sscanf_tag fl_fopen fl_choice s FD_MERGEBACK_GO tr w = Some m
    /\ m_edits m = go_edits tr bs
    /\ m_tree m = fold_left apply_edit (go_edits tr bs) tr
    /\ ret m = (if bool_decide (go_edits tr bs = []) then 0 else 1).
Proof.
  intros Hg Hf Hok Hm. unfold merge_back. rewrite Hg, Hf. cbn [negb].
  destruct (scan_tagged_go sscanf_tag tr (tagged_file bs) bs [] (scan_start tr w))
    as (st & E & D & [Hc Ht] & _); try done.
  rewrite E. cbn [mbind option_bind]. simpl in D.
  eexists. split; [reflexivity|]. simpl. rewrite Hc, Ht, D.
  split; [done|]. split; [done|]. by destruct (bool_decide (go_edits tr bs = [])).
Qed.

Lemma merge_back_go_tagged_witness :
  exists m,
    merge_back project_tagging sscanf_tag_libc (any_file (tagged_file blocks_edited))
      always_merge (bytes "a.cxx") FD_MERGEBACK_GO tree_one_widget Fd_Code_Writer_new
    = Some m
    /\ m_edits m = go_edits tree_one_widget blocks_edited
    /\ m_tree m = fold_left apply_edit (go_edits tree_one_widget blocks_edited)
                    tree_one_widget
    /\ ret m = (if bool_decide (go_edits tree_one_widget blocks_edited = []) then 0 else 1).
Proof.
  apply merge_back_go_tagged; [reflexivity | reflexivity | |].
  - repeat (constructor;
            [split; [by apply is_cstring_check|];
             split; [reflexivity|]; split; [reflexivity|];
             split; [by vm_compute | by vm_compute]|]).
    constructor.
  - repeat (constructor;
            [intros _; split; [discriminate | by vm_compute; eexists]|]).
    constructor.
Defined.

Example merge_back_go_tagged_edit :
  tagged_file blocks_edited = file_edited
  /\ go_edits tree_one_widget blocks_edited = [EditCallback 0 (bytes "new();" ++ [10])].
Proof. by vm_compute. Qed.


(** * The checking modes on a file given block by block *)

(** ** How the reader cuts the file *)

Lemma blocks_from_code sscanf_tag lines : forall more cur,
  Forall is_cstring lines ->
  Forall (fun l => strstr l tag_marker = None) lines ->
  blocks_from sscanf_tag (lines ++ more) cur = blocks_from sscanf_tag more (cur ++ lines).
Proof.
  induction lines as [|l lines IH]; intros more cur Hc Hm.
  - by rewrite app_nil_r.
  - apply Forall_cons in Hc as [Hc1 Hc2]. apply Forall_cons in Hm as [Hm1 Hm2].
    cbn [app blocks_from]. rewrite cstr_nonul by by apply is_cstring_nonul.
    rewrite Hm1, IH by done. by rewrite <- app_assoc.
Qed.

Lemma s_tag_line b :
  source_ok b ->
  is_cstring (s_tag b) /\ strstr (s_tag b) tag_marker = Some (s_tag b)
  /\ forall r, file_lines (s_tag b ++ r) = s_tag b :: file_lines r.
Proof.
  intros (_ & _ & _ & _ & Hf & Hl).
  assert (M : Forall line_byte tag_marker) by (by apply line_bytes_check).
  assert (Hb : Forall line_byte (tag_marker ++ s_fields b)) by (by apply Forall_app).
  split; [|split].
  - unfold s_tag. rewrite app_assoc. apply Forall_app. split; [by apply line_bytes_cstring|].
    constructor; [lia | constructor].
  - rewrite strstr_unfold. unfold s_tag. by rewrite is_prefix_app.
  - intros r. unfold s_tag. rewrite (app_assoc tag_marker).
    apply file_lines_line; [by apply line_bytes_no_newline|].
    rewrite length_app. change (length tag_marker) with 6%nat. lia.
Qed.

(** The blocks [merge_back] reads from the file are the blocks the file
    was put together from. *)
Lemma file_blocks_source sscanf_tag rest :
  is_cstring rest -> strstr rest tag_marker = None ->
  forall bs, Forall source_ok bs ->
  file_blocks sscanf_tag (source_file bs rest)
  = as_read sscanf_tag <$> bs.
Proof.
  intros Hr Hm. unfold file_blocks, source_file.
  induction bs as [|b bs IH]; intros Hok.
  - cbn [fmap list_fmap concat app].
    rewrite <- (app_nil_r (file_lines rest)).
    rewrite blocks_from_code;
      [done | by apply (Forall_chunks (fun c => 0 < c < 256)) | by apply strstr_chunks].
  - apply Forall_cons in Hok as [Hb Hbs].
    destruct (s_tag_line b Hb) as (Hc & Hs & Hl).
    destruct Hb as (Ht & He & _ & Hn & _).
    cbn [fmap list_fmap concat]. rewrite <- !app_assoc.
    rewrite (file_lines_app _ _ He), Hl.
    rewrite blocks_from_code;
      [| by apply (Forall_chunks (fun c => 0 < c < 256)) | by apply strstr_chunks].
    cbn [app blocks_from]. rewrite cstr_nonul by by apply is_cstring_nonul.
    rewrite Hs. f_equal. by apply IH.
Qed.

(** The CRC [merge_back] computes over the lines of a block is the CRC of
    the normalized code. *)
Lemma recomputed_crc_normalized t :
  is_cstring t -> no_cr_pair t = true ->
  recomputed_crc (file_lines t) = normalized_crc t.
Proof.
  intros Hc Hn. unfold recomputed_crc, normalized_crc, crc32_bytes.
  rewrite crc_lines_stream_pair;
    [| by apply (Forall_chunks (fun c => 0 < c < 256)) | by rewrite file_lines_concat].
  cbn [fst]. by rewrite file_lines_concat, crc_stream_normalize.
Qed.

Section Source.

Variable sscanf_tag : list Z -> Scanned.

Lemma differs_source kind_ok b :
  source_ok b -> differs kind_ok (as_read sscanf_tag b) = s_differs sscanf_tag kind_ok b.
Proof.
  intros (Hc & _ & Hn & _). unfold differs, diverges, s_differs, as_read. cbn [b_lines b_tag].
  by rewrite recomputed_crc_normalized.
Qed.

Lemma differs_unknown_source tr b :
  source_ok b -> differs_unknown tr (as_read sscanf_tag b) = s_unknown sscanf_tag tr b.
Proof.
  intros Hb. unfold differs_unknown, s_unknown. by rewrite differs_source.
Qed.

Lemma existsb_source (P : Block -> bool) (Q : Source_Block -> bool) bs :
  (forall b, source_ok b -> P (as_read sscanf_tag b) = Q b) ->
  Forall source_ok bs -> existsb P (as_read sscanf_tag <$> bs) = existsb Q bs.
Proof.
  intros H. induction 1 as [|b bs Hb _ IH]; [done|].
  cbn [fmap list_fmap existsb]. by rewrite (H b Hb), <- IH.
Qed.

Lemma countb_source (P : Block -> bool) (Q : Source_Block -> bool) bs :
  (forall b, source_ok b -> P (as_read sscanf_tag b) = Q b) ->
  Forall source_ok bs -> countb P (as_read sscanf_tag <$> bs) = s_count Q bs.
Proof.
  intros H. induction 1 as [|b bs Hb _ IH]; [done|].
  cbn [fmap list_fmap countb s_count]. by rewrite (H b Hb), <- IH.
Qed.

End Source.


Lemma source_ok_check b :
  forallb (fun c => (0 <? c) && (c <? 256)) (s_text b) = true ->
  ends_line (s_text b) = true -> no_cr_pair (s_text b) = true ->
  strstr (s_text b) tag_marker = None ->
  forallb (fun c => (0 <? c) && (c <? 256) && negb (c =? 10)) (s_fields b) = true ->
  (length (s_fields b) <=? 1015)%nat = true ->
  source_ok b.
Proof.
  intros H1 H2 H3 H4 H5 H6. split; [by apply is_cstring_check|].
  split; [done|]. split; [done|]. split; [done|].
  split; [by apply line_bytes_check | by apply Nat.leb_le].
Qed.

Lemma source_read sscanf_tag tr bs rest :
  Forall source_ok bs -> is_cstring rest -> strstr rest tag_marker = None ->
  let blocks := file_blocks sscanf_tag (source_file bs rest) in
  existsb (fun b => malformed (b_tag b)) blocks = existsb (s_malformed sscanf_tag) bs
  /\ (forall k, existsb (differs k) blocks = existsb (s_differs sscanf_tag k) bs)
  /\ existsb (differs_unknown tr) blocks = existsb (s_unknown sscanf_tag tr) bs
  /\ (forall k, countb (differs k) blocks = s_count (s_differs sscanf_tag k) bs)
  /\ countb (differs_unknown tr) blocks = s_count (s_unknown sscanf_tag tr) bs.
Proof.
  intros Hok Hr Hm blocks. subst blocks. rewrite file_blocks_source by done.
  split; [by apply existsb_source|].
  split; [intros k; apply existsb_source; [apply differs_source | done]|].
  split; [apply existsb_source; [apply differs_unknown_source | done]|].
  split; [intros k; apply countb_source; [apply differs_source | done]|].
  apply countb_source; [apply differs_unknown_source | done].
Qed.

(** ** The check mode *)

(** C1: for a file made of well-formed blocks of code, each followed by a
    tag line, the check mode leaves the tree as it is; it returns -1 when
    some tag line is malformed, and otherwise a mask below 16 whose bits 0
    to 3 tell whether the code of a generic block, of a code block, of a
    callback block has another CRC than its tag, and whether such a code or
    callback block has a uid that no node has. *)
Theorem merge_back_check_result g sscanf_tag fl_fopen fl_choice s tr w bs rest :
  write_mergeback_data g = true -> fl_fopen s = Some (source_file bs rest) ->
  Forall source_ok bs -> is_cstring rest -> strstr rest tag_marker = None ->
  exists r,
    merge_back g sscanf_tag fl_fopen fl_choice s FD_MERGEBACK_CHECK tr w = Some r
    /\ m_tree r = tr /\ m_edits r = [] /\ m_changed r = false
    /\ if existsb (s_malformed sscanf_tag) bs then ret r = -1
       else 0 <= ret r < 16
            /\ Z.testbit (ret r) 0 = existsb (s_differs sscanf_tag (Z.eqb FD_TAG_GENERIC)) bs
            /\ Z.testbit (ret r) 1 = existsb (s_differs sscanf_tag (Z.eqb FD_TAG_CODE)) bs
            /\ Z.testbit (ret r) 2 = existsb (s_differs sscanf_tag is_callback_kind) bs
            /\ Z.testbit (ret r) 3 = existsb (s_unknown sscanf_tag tr) bs.
Proof.
  intros Hg Hf Hok Hr Hm.
  destruct (merge_back_check_blocks g sscanf_tag fl_fopen fl_choice s tr w _ Hg Hf)
    as (r & E & T & D & C & R).
  destruct (source_read sscanf_tag tr bs rest Hok Hr Hm) as (E0 & E1 & E2 & _).
  cbv zeta in R, E0, E1, E2. rewrite E0, !E1, E2 in R.
  by exists r.
Qed.

Lemma merge_back_check_result_witness :
  exists r,
    merge_back project_tagging sscanf_tag_libc (any_file (source_file source_edited []))
      always_merge (bytes "a.cxx") FD_MERGEBACK_CHECK tree_one_widget Fd_Code_Writer_new
    = Some r
    /\ m_tree r = tree_one_widget
    /\ Z.testbit (ret r) 0 = false /\ Z.testbit (ret r) 2 = true.
Proof.
  destruct (merge_back_check_result project_tagging sscanf_tag_libc
              (any_file (source_file source_edited [])) always_merge (bytes "a.cxx")
              tree_one_widget Fd_Code_Writer_new source_edited [])
    as (r & E & T & _ & _ & R).
  - reflexivity.
  - reflexivity.
  - repeat (constructor; [by apply source_ok_check|]). constructor.
  - constructor.
  - reflexivity.
  - match type of R with
    | if ?c then _ else _ => assert (C : c = false) by (vm_compute; reflexivity); rewrite C in R
    end.
    destruct R as (_ & R0 & _ & R2 & _).
    exists r. split; [exact E|]. split; [exact T|]. split.
    + rewrite R0. vm_compute. reflexivity.
    + rewrite R2. vm_compute. reflexivity.
Defined.

Example merge_back_check_sources :
  source_file source_edited [] = file_edited
  /\ ret <$> merge_back project_tagging sscanf_tag_libc
               (any_file (source_file source_edited [])) always_merge (bytes "a.cxx")
               FD_MERGEBACK_CHECK tree_one_widget Fd_Code_Writer_new = Some 4
  /\ ret <$> merge_back project_tagging sscanf_tag_libc
               (any_file (source_file source_two_edits [])) always_merge (bytes "a.cxx")
               FD_MERGEBACK_CHECK tree_one_widget Fd_Code_Writer_new = Some 5
  /\ ret <$> merge_back project_tagging sscanf_tag_libc
               (any_file (source_file source_two_edits [])) always_merge (bytes "a.cxx")
               FD_MERGEBACK_CHECK [] Fd_Code_Writer_new = Some 13
  /\ ret <$> merge_back project_tagging sscanf_tag_libc
               (any_file (source_file source_cut_tag [])) always_merge (bytes "a.cxx")
               FD_MERGEBACK_CHECK tree_one_widget Fd_Code_Writer_new = Some (-1).
Proof. by vm_compute. Qed.

(** ** The safe and the interactive mode *)

(** The safe mode on such a file: it changes nothing and returns -1 when a
    tag line is malformed or the code of a generic block has another CRC
    than its tag; it changes nothing and returns 0 when no block of code
    or of a callback has; in every other case it does what the mode GO
    does on the file. *)
Theorem merge_back_go_safe_result g sscanf_tag fl_fopen fl_choice s tr w bs rest :
  write_mergeback_data g = true -> fl_fopen s = Some (source_file bs rest) ->
  Forall source_ok bs -> is_cstring rest -> strstr rest tag_marker = None ->
  let run := merge_back g sscanf_tag fl_fopen fl_choice s in
  if existsb (s_malformed sscanf_tag) bs
     || existsb (s_differs sscanf_tag (Z.eqb FD_TAG_GENERIC)) bs
  then exists r, run FD_MERGEBACK_GO_SAFE tr w = Some r
         /\ ret r = -1 /\ m_tree r = tr /\ m_edits r = [] /\ m_changed r = false
  else if existsb (s_differs sscanf_tag (Z.eqb FD_TAG_CODE)) bs
          || existsb (s_differs sscanf_tag is_callback_kind) bs
  then run FD_MERGEBACK_GO_SAFE tr w = run FD_MERGEBACK_GO tr w
  else exists r, run FD_MERGEBACK_GO_SAFE tr w = Some r
         /\ ret r = 0 /\ m_tree r = tr /\ m_edits r = [] /\ m_changed r = false.
Proof.
  intros Hg Hf Hok Hr Hm.
  pose proof (merge_back_go_safe_blocks g sscanf_tag fl_fopen fl_choice s tr w _ Hg Hf) as R.
  destruct (source_read sscanf_tag tr bs rest Hok Hr Hm) as (E0 & E1 & _).
  cbv zeta in R, E0, E1 |- *. by rewrite E0, !E1 in R.
Qed.

Lemma merge_back_go_safe_result_witness :
  merge_back project_tagging sscanf_tag_libc (any_file (source_file source_edited []))
    always_merge (bytes "a.cxx") FD_MERGEBACK_GO_SAFE tree_one_widget Fd_Code_Writer_new
  = merge_back project_tagging sscanf_tag_libc (any_file (source_file source_edited []))
      always_merge (bytes "a.cxx") FD_MERGEBACK_GO tree_one_widget Fd_Code_Writer_new.
Proof.
  pose proof (merge_back_go_safe_result project_tagging sscanf_tag_libc
                (any_file (source_file source_edited [])) always_merge (bytes "a.cxx")
                tree_one_widget Fd_Code_Writer_new source_edited []) as R.
  cbv zeta in R.
  match type of R with
  | _ -> _ -> _ -> _ -> _ -> if ?c then _ else if ?d then _ else _ =>
      assert (C : c = false) by (vm_compute; reflexivity);
      assert (D : d = true) by (vm_compute; reflexivity);
      rewrite C, D in R
  end.
  apply R; [reflexivity | reflexivity | | constructor | reflexivity].
  repeat (constructor; [by apply source_ok_check|]). constructor.
Defined.

(** The interactive mode on such a file: with a malformed tag line it
    returns -1.  Otherwise, when the code of a code block or of a callback
    block has another CRC than its tag, it asks the user, with the four
    counts; on the answer 0 (Cancel) it returns 1, on every other answer it
    does what the mode GO does on the file.  Without such a block it
    returns -1 when a generic block has changed and 0 when none has.
    Whenever it does not go on as the mode GO, it changes nothing. *)
Theorem merge_back_interactive_result g sscanf_tag fl_fopen fl_choice s tr w bs rest :
  write_mergeback_data g = true -> fl_fopen s = Some (source_file bs rest) ->
  Forall source_ok bs -> is_cstring rest -> strstr rest tag_marker = None ->
  let run := merge_back g sscanf_tag fl_fopen fl_choice s in
  let unchanged_with (v : Z) :=
    exists r, run FD_MERGEBACK_INTERACTIVE tr w = Some r
      /\ ret r = v /\ m_tree r = tr /\ m_edits r = [] /\ m_changed r = false in
  if existsb (s_malformed sscanf_tag) bs then unchanged_with (-1)
  else if existsb (s_differs sscanf_tag (Z.eqb FD_TAG_CODE)) bs
          || existsb (s_differs sscanf_tag is_callback_kind) bs
  then if fl_choice (s_count (s_differs sscanf_tag (Z.eqb FD_TAG_CODE)) bs)
            (s_count (s_differs sscanf_tag is_callback_kind) bs)
            (s_count (s_unknown sscanf_tag tr) bs)
            (s_count (s_differs sscanf_tag (Z.eqb FD_TAG_GENERIC)) bs) =? 0
       then unchanged_with 1
       else run FD_MERGEBACK_INTERACTIVE tr w = run FD_MERGEBACK_GO tr w
  else if existsb (s_differs sscanf_tag (Z.eqb FD_TAG_GENERIC)) bs then unchanged_with (-1)
  else unchanged_with 0.
Proof.
  intros Hg Hf Hok Hr Hm.
  pose proof (merge_back_interactive_blocks g sscanf_tag fl_fopen fl_choice s tr w _ Hg Hf)
    as R.
  destruct (source_read sscanf_tag tr bs rest Hok Hr Hm) as (E0 & E1 & _ & E3 & E4).
  cbv zeta in R, E0, E1, E3, E4 |- *. by rewrite E0, !E1, !E3, E4 in R.
Qed.

Lemma merge_back_interactive_result_witness :
  merge_back project_tagging sscanf_tag_libc (any_file (source_file source_edited []))
    always_merge (bytes "a.cxx") FD_MERGEBACK_INTERACTIVE tree_one_widget Fd_Code_Writer_new
  = merge_back project_tagging sscanf_tag_libc (any_file (source_file source_edited []))
      always_merge (bytes "a.cxx") FD_MERGEBACK_GO tree_one_widget Fd_Code_Writer_new.
Proof.
  pose proof (merge_back_interactive_result project_tagging sscanf_tag_libc
                (any_file (source_file source_edited [])) always_merge (bytes "a.cxx")
                tree_one_widget Fd_Code_Writer_new source_edited []) as R.
  cbv zeta in R.
  match type of R with
  | _ -> _ -> _ -> _ -> _ -> if ?c then _ else if ?d then (if ?e then _ else _) else _ =>
      assert (C : c = false) by (vm_compute; reflexivity);
      assert (D : d = true) by (vm_compute; reflexivity);
      assert (F : e = false) by (vm_compute; reflexivity);
      rewrite C, D, F in R
  end.
  apply R; [reflexivity | reflexivity | | constructor | reflexivity].
  repeat (constructor; [by apply source_ok_check|]). constructor.
Defined.

Example merge_back_modes_on_sources :
  (* a callback block edited: the safe mode merges *)
  ret <$> merge_back project_tagging sscanf_tag_libc
            (any_file (source_file source_edited [])) always_merge (bytes "a.cxx")
            FD_MERGEBACK_GO_SAFE tree_one_widget Fd_Code_Writer_new = Some 1
  (* a generic block edited as well: the safe mode refuses, the interactive
     mode asks and merges, or returns 1 on Cancel *)
  /\ ret <$> merge_back project_tagging sscanf_tag_libc
               (any_file (source_file source_two_edits [])) always_merge (bytes "a.cxx")
               FD_MERGEBACK_GO_SAFE tree_one_widget Fd_Code_Writer_new = Some (-1)
  /\ ret <$> merge_back project_tagging sscanf_tag_libc
               (any_file (source_file source_two_edits [])) always_merge (bytes "a.cxx")
               FD_MERGEBACK_INTERACTIVE tree_one_widget Fd_Code_Writer_new = Some 1
  /\ (m_edits <$> merge_back project_tagging sscanf_tag_libc
               (any_file (source_file source_two_edits [])) (fun _ _ _ _ => 0) (bytes "a.cxx")
               FD_MERGEBACK_INTERACTIVE tree_one_widget Fd_Code_Writer_new) = Some [].
Proof. by vm_compute. Qed.
